(** * ios-device-control: the debugserver client and the web-inspector relay

    A shallow embedding of the two protocol engines of the repository,

    - [third_party/idevice_app_runner/idevice-app-runner.c]
      (module [AppRunner]): hex codec, launch packets, the compacting
      receive buffer, the packet reader and writer, and the session driver;
    - [third_party/idevicewebinspectorproxy/idevicewebinspectorproxy.c]
      (module [WebInspectorProxy]): the length-prefixed relay pumps and the
      connection record they share,

    followed by the properties proved about them. *)

From Stdlib Require Import ZArith List Ascii String Lia Bool DecimalString.
Import ListNotations.
Local Open Scope Z_scope.

(** ** C data shared by both programs *)

(** A C [char] is one [ascii]; a C string is the list of its characters, the
    terminating NUL left implicit unless a function stores it itself. *)
Definition NUL : ascii := Ascii.zero.

Definition chars (s : string) : list ascii := list_ascii_of_string s.

Definition byte_val (c : ascii) : Z := Z.of_N (N_of_ascii c).

(** Integer promotion of a plain [char].  Plain [char] is signed on the
    toolchain the source names in its build note (gcc), as it is on every
    x86 and Apple ABI: the bytes 0x80..0xFF promote to -128..-1. *)
Definition int_of_char (c : ascii) : Z :=
  if byte_val c <? 128 then byte_val c else byte_val c - 256.

(** Storing an [int] into a [char] keeps the low eight bits. *)
Definition char_of_int (z : Z) : ascii := ascii_of_N (Z.to_N (z mod 256)).

(** A C [int] (32 bits, two's complement). *)
Definition wrap_int (z : Z) : Z := (z + 2 ^ 31) mod 2 ^ 32 - 2 ^ 31.

(** [printf]'s [%d]. *)
Definition fmt_d (z : Z) : list ascii :=
  chars (NilZero.string_of_int (Z.to_int z)).

(** Reading and writing one cell of a byte arena.  A load outside the arena
    yields NUL and a store outside is dropped; the lemmas below show that
    the program keeps its accesses inside. *)
Definition load (mem : list ascii) (i : nat) : ascii := nth i mem NUL.

Fixpoint store (mem : list ascii) (i : nat) (c : ascii) : list ascii :=
  match mem, i with
  | [], _ => []
  | _ :: m, O => c :: m
  | x :: m, S j => x :: store m j c
  end.

(** The [n] bytes of [mem] from offset [p]. *)
Definition slice (mem : list ascii) (p n : nat) : list ascii :=
  firstn n (skipn p mem).

Definition bind {A B} (o : option A) (f : A -> option B) : option B :=
  match o with Some a => f a | None => None end.

Notation "x <- o ;; k" := (bind o (fun x => k))
  (at level 61, o at next level, right associativity).

Notation "' p <- o ;; k" := (bind o (fun x => match x with p => k end))
  (at level 61, p pattern, o at next level, right associativity).

Module AppRunner.

(** ** Hex codec *)

(** [static const char *hexchars = "0123456789ABCDEF"]: seventeen bytes with
    the terminator.  [int2hex] indexes it without a check, so an index
    outside the literal has no defined result. *)
Definition hexchars : list ascii := chars "0123456789ABCDEF".

Definition int2hex (x : Z) : option ascii :=
  if (0 <=? x) && (x <=? 16) then Some (nth (Z.to_nat x) hexchars NUL)
  else None.

Definition hex2int (c : ascii) : Z :=
  let c := int_of_char c in
  if (48 <=? c) && (c <=? 57) then c - 48
  else if (97 <=? c) && (c <=? 102) then 10 + c - 97
  else if (65 <=? c) && (c <=? 70) then 10 + c - 65
  else -1.

(** The loop of [tohex]: the digits stored through [to_s] for the first [n]
    characters of [from_s]. *)
Fixpoint tohex_digits (from_s : list ascii) (n : nat) {struct n}
  : option (list ascii) :=
  match n with
  | O => Some []
  | S n' =>
      match from_s with
      | [] => None
      | c :: f =>
          h <- int2hex (Z.shiftr (int_of_char c) 4) ;;
          l <- int2hex (Z.land (int_of_char c) 15) ;;
          r <- tohex_digits f n' ;;
          Some (h :: l :: r)
      end
  end.

(** [tohex to_s from_s n]: everything stored through [to_s], the final NUL
    included; the returned pointer is the address of that NUL. *)
Definition tohex (from_s : list ascii) (n : nat) : option (list ascii) :=
  d <- tohex_digits from_s n ;; Some (d ++ [NUL]).

Definition hex_pair (c1 c2 : ascii) : ascii :=
  char_of_int (Z.lor (Z.shiftl (hex2int c1) 4) (hex2int c2)).

(** The loop of [fromhex] runs while [f < fend] and reads two characters a
    turn: [(n + 1) / 2] turns for [n] characters. *)
Fixpoint fromhex_bytes (from_s : list ascii) (turns : nat) {struct turns}
  : option (list ascii) :=
  match turns with
  | O => Some []
  | S k =>
      match from_s with
      | c1 :: c2 :: f =>
          r <- fromhex_bytes f k ;; Some (hex_pair c1 c2 :: r)
      | _ => None
      end
  end.

(** [fromhex to_s from_s n] with a destination that does not overlap the
    source: everything stored through [to_s], the final NUL included. *)
Definition fromhex (from_s : list ascii) (n : nat) : option (list ascii) :=
  d <- fromhex_bytes from_s (Nat.div2 (S n)) ;; Some (d ++ [NUL]).

(** [fromhex] as the session driver calls it, decoding inside the receive
    arena itself: [t] and [f] are the offsets of [to_s] and [from_s]. *)
Fixpoint fromhex_at (mem : list ascii) (t f : nat) (turns : nat) : list ascii :=
  match turns with
  | O => store mem t NUL
  | S k =>
      let c := hex_pair (load mem f) (load mem (S f)) in
      fromhex_at (store mem t c) (S t) (S (S f)) k
  end.

Definition fromhex_inplace (mem : list ascii) (to_s from_s n : nat) : list ascii :=
  fromhex_at mem to_s from_s (Nat.div2 (S n)).

(** ** Launch and environment packets *)

Definition strlen (s : list ascii) : nat := List.length s.

(** [numlen(v)] is [(int)(log10(v+1)+1)] for a non-zero [v]: the number of
    decimal digits of [v+1], taking [log10] as exact. *)
Definition numlen (v : Z) : Z :=
  if v =? 0 then 1 else Z.of_nat (List.length (fmt_d (v + 1))).

(** [create_env_packet]. *)
Definition create_env_packet (env : list ascii) : option (list ascii) :=
  h <- tohex_digits env (strlen env) ;;
  Some (chars "$QEnvironmentHexEncoded:" ++ h ++ chars "#00").

(** The strings the two loops of [create_args_packet] visit: [app_path],
    then [args[0]], [args[1]], ... up to the first null pointer.  A null
    [app_path] ends the loop at once; a null [args] ends it after the path. *)
Definition launch_strings (app_path : option (list ascii))
    (args : option (list (list ascii))) : list (list ascii) :=
  match app_path with
  | None => []
  | Some p => p :: match args with None => [] | Some a => a end
  end.

(** First loop: the size of the allocation. *)
Fixpoint args_packet_len (i : nat) (ss : list (list ascii)) (len : Z) : Z :=
  match ss with
  | [] => len
  | s :: rest =>
      let n := Z.of_nat (strlen s) in
      args_packet_len (S i) rest
        (len + (if Nat.eqb i 0 then 2 else 3) + numlen (2 * n)
             + numlen (Z.of_nat i) + 2 * n)
  end.

(** Second loop: one token [<2n>,<i>,<hex>] a string, comma-joined. *)
Fixpoint args_packet_body (i : nat) (ss : list (list ascii)) : option (list ascii) :=
  match ss with
  | [] => Some []
  | s :: rest =>
      let n := strlen s in
      h <- tohex_digits s n ;;
      r <- args_packet_body (S i) rest ;;
      Some ((if Nat.eqb i 0 then [] else chars ",")
              ++ fmt_d (wrap_int (2 * wrap_int (Z.of_nat n))) ++ chars ","
              ++ fmt_d (wrap_int (Z.of_nat i)) ++ chars ","
              ++ h ++ r)
  end.

Definition create_args_packet (app_path : option (list ascii))
    (args : option (list (list ascii))) : option (list ascii) :=
  b <- args_packet_body 0 (launch_strings app_path args) ;;
  Some (chars "$A" ++ b ++ chars "#00").

(** ** The session's world

    Everything outside the two structs: the flags the code shares through
    pointers and file-scope variables, the clock, what the device connection
    will deliver and accept, and the effects performed so far.  Diagnostics
    written to [stderr] are not part of the model. *)

Definition IDEVICE_E_SUCCESS : Z := 0.
Definition IDEVICE_E_UNKNOWN_ERROR : Z := -256.

(** One outcome of [idevice_connection_receive_timeout]: the error code and,
    on success, the bytes that are ready (none: the wait timed out). *)
Record recv_event := { rv_err : Z; rv_data : list ascii }.

(** One outcome of [idevice_connection_send]: error code and bytes sent. *)
Record send_event := { sv_err : Z; sv_bytes : Z }.

Inductive effect :=
| E_send (s : list ascii)
| E_recv (avail : nat)
| E_sleep (secs : Z)
| E_stdout (s : list ascii)
| E_disconnect.

Record world := mkWorld {
  error_flag : bool;          (* [BOOL error_flag] of [main], shared by [in] and [out] *)
  app_quit : bool;            (* [static BOOL app_quit] *)
  user_quit : bool;           (* [static BOOL user_quit] *)
  signals : list bool;        (* whether [on_signal] ran before each test of [user_quit] *)
  clock : Z;                  (* milliseconds *)
  rx : list recv_event;
  tx : list send_event;
  trace : list effect         (* newest first *)
}.

Definition set_error_flag (w : world) : world :=
  mkWorld true (app_quit w) (user_quit w) (signals w) (clock w) (rx w) (tx w) (trace w).

Definition set_app_quit (w : world) : world :=
  mkWorld (error_flag w) true (user_quit w) (signals w) (clock w) (rx w) (tx w) (trace w).

Definition set_rx (r : list recv_event) (w : world) : world :=
  mkWorld (error_flag w) (app_quit w) (user_quit w) (signals w) (clock w) r (tx w) (trace w).

Definition set_tx (t : list send_event) (w : world) : world :=
  mkWorld (error_flag w) (app_quit w) (user_quit w) (signals w) (clock w) (rx w) t (trace w).

Definition tick (ms : Z) (w : world) : world :=
  mkWorld (error_flag w) (app_quit w) (user_quit w) (signals w) (clock w + ms) (rx w) (tx w) (trace w).

Definition log (e : effect) (w : world) : world :=
  mkWorld (error_flag w) (app_quit w) (user_quit w) (signals w) (clock w) (rx w) (tx w) (e :: trace w).

(** The test [!user_quit] at the head of the main loop, any signal that
    arrived since the previous test delivered first. *)
Definition poll_user_quit (w : world) : world :=
  match signals w with
  | [] => w
  | b :: rest =>
      mkWorld (error_flag w) (app_quit w) (user_quit w || b) rest (clock w) (rx w) (tx w) (trace w)
  end.

(** [time(NULL)], in seconds. *)
Definition time (w : world) : Z := clock w / 1000.

Definition sleep (secs : Z) (w : world) : world :=
  log (E_sleep secs) (tick (1000 * secs) w).

(** [idevice_connection_receive_timeout(connection, buf_tail, avail, &bytes,
    timeout)]: at most [avail] of the bytes that are ready are handed over,
    the rest stay queued; a call that hands over nothing has waited for the
    whole timeout.  An exhausted script is a connection the peer has closed. *)
Definition idevice_connection_receive_timeout (w : world) (avail : nat) (timeout : Z)
  : Z * list ascii * world :=
  let w := log (E_recv avail) w in
  match rx w with
  | [] => (IDEVICE_E_UNKNOWN_ERROR, [], w)
  | ev :: rest =>
      if rv_err ev =? IDEVICE_E_SUCCESS then
        let got := firstn avail (rv_data ev) in
        let rest' := match skipn avail (rv_data ev) with
                     | [] => rest
                     | more => {| rv_err := IDEVICE_E_SUCCESS; rv_data := more |} :: rest
                     end in
        (IDEVICE_E_SUCCESS, got,
         set_rx rest' (match got with [] => tick timeout w | _ => w end))
      else (rv_err ev, [], set_rx rest w)
  end.

(** [idevice_connection_send(connection, s, n, &bytes)]; with nothing
    scripted the whole string goes out. *)
Definition idevice_connection_send (w : world) (s : list ascii) (n : Z) : Z * Z * world :=
  let w := log (E_send s) w in
  match tx w with
  | [] => (IDEVICE_E_SUCCESS, n, w)
  | ev :: rest => (sv_err ev, sv_bytes ev, set_tx rest w)
  end.

(** ** Receive buffer *)

(** [struct in_struct]: the arena [buf] stands for the block [malloc]
    returned, and the five pointers are offsets into it.  [connection] and
    [error_flag] live in the [world]. *)
Record in_struct := mkIn {
  in_debug_flag : bool;
  buf : list ascii;
  buf_begin : nat;
  buf_head : nat;
  buf_next : nat;
  buf_tail : nat;
  buf_end : nat
}.

(** [in_new].  The block comes from [malloc] with its contents
    undetermined; the model fills it with NUL, and no byte of it is read
    before a receive has written it. *)
Definition in_new (debug_flag : bool) (buf_len : nat) : in_struct :=
  mkIn debug_flag (repeat NUL buf_len) 0 0 0 0 buf_len.

Definition memwrite (mem : list ascii) (dst : nat) (data : list ascii) : list ascii :=
  firstn dst mem ++ data ++ skipn (dst + List.length data) mem.

Definition memmove (mem : list ascii) (dst src n : nat) : list ascii :=
  memwrite mem dst (slice mem src n).

(** The "make room" block of [read_char]. *)
Inductive room := Room_full | Room_ok (i : in_struct).

Definition make_room (i : in_struct) : room :=
  let avail := (buf_end i - buf_tail i)%nat in
  let len := (buf_end i - buf_begin i)%nat in
  if (avail <? Nat.shiftr len 2)%nat then
    let offset := (buf_head i - buf_begin i)%nat in
    if (avail =? 0)%nat && (offset =? 0)%nat then Room_full
    else
      let used := (buf_tail i - buf_head i)%nat in
      Room_ok
        (mkIn (in_debug_flag i)
              (if negb (offset =? 0)%nat && negb (used =? 0)%nat
               then memmove (buf i) (buf_begin i) (buf_head i) used
               else buf i)
              (buf_begin i) (buf_begin i)
              (buf_begin i + used)%nat (buf_begin i + used)%nat (buf_end i))
  else Room_ok i.

Inductive rc_result := RC_fail | RC_empty | RC_char (ch : ascii).

(** The polling loop of [read_char].  A turn that receives nothing and goes
    round again sleeps one second, so the ten-second deadline bounds the
    number of turns; [turns] counts them down, and with [recv_turns] of
    them the count is never what ends the loop ([recv_loop_turns]). *)
Fixpoint recv_loop (turns : nat) (start : Z) (allow_empty : bool) (avail : nat)
    (i : in_struct) (w : world) : rc_result * in_struct * world :=
  match turns with
  | O => (RC_fail, i, set_error_flag w)
  | S k =>
      let '(err_code, got, w) := idevice_connection_receive_timeout w avail 500 in
      if negb (err_code =? IDEVICE_E_SUCCESS) then (RC_fail, i, set_error_flag w)
      else
        match got with
        | [] =>
            if allow_empty then (RC_empty, i, w)
            else if time w - start >? 10 then (RC_fail, i, set_error_flag w)
            else recv_loop k start allow_empty avail i (sleep 1 w)
        | _ =>
            let i := mkIn (in_debug_flag i) (memwrite (buf i) (buf_tail i) got)
                          (buf_begin i) (buf_head i) (buf_next i)
                          (buf_tail i + List.length got)%nat (buf_end i) in
            (RC_char (load (buf i) (buf_next i)),
             mkIn (in_debug_flag i) (buf i) (buf_begin i) (buf_head i)
                  (S (buf_next i)) (buf_tail i) (buf_end i), w)
        end
  end.

Definition recv_turns : nat := 12.

(** [read_char(in, &ch, to_allow_empty)]; [allow_empty] tells whether
    [to_allow_empty] is non-null. *)
Definition read_char (i : in_struct) (w : world) (allow_empty : bool)
  : rc_result * in_struct * world :=
  if error_flag w then (RC_fail, i, w)
  else if (buf_next i =? buf_tail i)%nat then
    match make_room i with
    | Room_full => (RC_fail, i, set_error_flag w)
    | Room_ok i =>
        recv_loop recv_turns (time w) allow_empty (buf_end i - buf_tail i)%nat i w
    end
  else
    (RC_char (load (buf i) (buf_next i)),
     mkIn (in_debug_flag i) (buf i) (buf_begin i) (buf_head i)
          (S (buf_next i)) (buf_tail i) (buf_end i), w).

(** ** Packet reader *)

(** Bytes that can still reach the reader: unread in the arena or queued on
    the connection. *)
Definition rx_bytes (r : list recv_event) : nat :=
  fold_right (fun ev n => (List.length (rv_data ev) + n)%nat) 0%nat r.

Definition pending (i : in_struct) (w : world) : nat :=
  ((buf_tail i - buf_next i) + rx_bytes (rx w))%nat.

(** [while (1) { if (read_char(in, &ch, NULL)) return -1; if (ch == '#')
    break; }].  Every turn that goes round again has consumed one pending
    byte; [turns] counts them down, and with more turns than pending bytes
    the count is never what ends the loop ([scan_hash_turns]). *)
Fixpoint scan_hash (turns : nat) (i : in_struct) (w : world)
  : bool * in_struct * world :=
  match turns with
  | O => (false, i, set_error_flag w)
  | S k =>
      match read_char i w false with
      | (RC_char ch, i, w) =>
          if Ascii.eqb ch "#" then (true, i, w) else scan_hash k i w
      | (_, i, w) => (false, i, w)
      end
  end.

(** What [read_pkt] hands back: [-1] before [*to_s] and [*to_n] are stored,
    [-1] after they are (an invalid packet), or [0] with the packet
    [to_s .. to_s + to_n). *)
Inductive rp_result := RP_fail | RP_invalid (s n : nat) | RP_ok (s n : nat).

(** The tail of [read_pkt], from [size_t n = ...] on. *)
Definition finish_pkt (is_success : bool) (i : in_struct) (w : world)
  : rp_result * in_struct * world :=
  let n := (buf_next i - buf_head i)%nat in
  let w := if is_success then w else set_error_flag w in
  let s := buf_head i in
  let i := mkIn (in_debug_flag i) (buf i) (buf_begin i) (buf_next i)
                (buf_next i) (buf_tail i) (buf_end i) in
  (if is_success then RP_ok s n else RP_invalid s n, i, w).

Definition read_pkt (i : in_struct) (w : world) (allow_empty : bool)
  : rp_result * in_struct * world :=
  if error_flag w then (RP_fail, i, w)
  else
    match read_char i w allow_empty with
    | (RC_fail, i, w) => (RP_fail, i, w)
    | (RC_empty, i, w) => finish_pkt true i w
    | (RC_char ch, i, w) =>
        if Ascii.eqb ch "+" then finish_pkt true i w
        else if Ascii.eqb ch "$" then
          match scan_hash (S (pending i w)) i w with
          | (false, i, w) => (RP_fail, i, w)
          | (true, i, w) =>
              match read_char i w false with
              | (RC_char ch, i, w) =>
                  if hex2int ch >=? 0 then
                    match read_char i w false with
                    | (RC_char ch, i, w) => finish_pkt (hex2int ch >=? 0) i w
                    | (_, i, w) => (RP_fail, i, w)
                    end
                  else finish_pkt false i w
              | (_, i, w) => (RP_fail, i, w)
              end
          end
        else finish_pkt false i w
    end.

(** [strncmp] on two views of memory; the end of a list reads as the
    terminating NUL.  Bytes compare as [unsigned char]. *)
Fixpoint strncmp (s1 s2 : list ascii) (n : nat) : Z :=
  match n with
  | O => 0
  | S k =>
      let c1 := hd NUL s1 in
      let c2 := hd NUL s2 in
      if negb (Ascii.eqb c1 c2) then byte_val c1 - byte_val c2
      else if Ascii.eqb c1 NUL then 0
      else strncmp (tl s1) (tl s2) k
  end.

(** [read_pkt_assert(in, expected)]; [None] is a null [expected]. *)
Definition read_pkt_assert (i : in_struct) (w : world) (expected : option (list ascii))
  : Z * in_struct * world :=
  match read_pkt i w false with
  | (RP_ok s n, i, w) =>
      match expected with
      | Some e =>
          if strncmp (skipn s (buf i)) e n =? 0 then (0, i, w)
          else (-1, i, set_error_flag w)
      | None => (-1, i, set_error_flag w)
      end
  | (_, i, w) => (-1, i, w)
  end.

(** ** Packet writer *)

(** [write_pkt(out, s)]: [struct out_struct] holds only the connection and
    the two flags, all in the [world]. *)
Definition write_pkt (w : world) (s : list ascii) : world :=
  if error_flag w then w
  else
    let n := wrap_int (Z.of_nat (strlen s)) in
    let '(err_code, bytes, w) := idevice_connection_send w s n in
    if negb (err_code =? IDEVICE_E_SUCCESS) || negb (bytes =? n)
    then set_error_flag w else w.

(** ** Session driver *)

(** The C string that starts at a view of memory. *)
Fixpoint c_string (m : list ascii) : list ascii :=
  match m with
  | [] => []
  | c :: r => if Ascii.eqb c NUL then [] else c :: c_string r
  end.

Definition isspace (c : ascii) : bool :=
  let v := byte_val c in ((9 <=? v) && (v <=? 13)) || (v =? 32).

Definition isdigit (c : ascii) : bool :=
  let v := byte_val c in (48 <=? v) && (v <=? 57).

Fixpoint skip_spaces (s : list ascii) : list ascii :=
  match s with
  | c :: r => if isspace c then skip_spaces r else s
  | [] => []
  end.

Fixpoint atoi_digits (acc : Z) (s : list ascii) : Z :=
  match s with
  | c :: r => if isdigit c then atoi_digits (10 * acc + (byte_val c - 48)) r else acc
  | [] => acc
  end.

(** The number a string spells out: white space, an optional sign, then
    decimal digits up to the first other character. *)
Definition decimal (s : list ascii) : Z :=
  match skip_spaces s with
  | c :: r =>
      if Ascii.eqb c "-" then - atoi_digits 0 r
      else if Ascii.eqb c "+" then atoi_digits 0 r
      else atoi_digits 0 (c :: r)
  | [] => 0
  end.

(** [strtol(s, NULL, 10)] with a [long] of 64 bits: a number out of range
    comes back as [LONG_MIN] or [LONG_MAX]. *)
Definition LONG_MAX : Z := 2 ^ 63 - 1.
Definition LONG_MIN : Z := - 2 ^ 63.

Definition strtol (s : list ascii) : Z :=
  Z.max LONG_MIN (Z.min LONG_MAX (decimal s)).

(** [atoi(s)] is [(int) strtol(s, NULL, 10)], as the C library defines it
    on the systems the program is built for: of a number that does not fit
    an [int] the low 32 bits are kept. *)
Definition atoi (s : list ascii) : Z := wrap_int (strtol s).

Definition set_buf (i : in_struct) (m : list ascii) : in_struct :=
  mkIn (in_debug_flag i) m (buf_begin i) (buf_head i) (buf_next i)
       (buf_tail i) (buf_end i).

Inductive step :=
| Continue (spin_counter : Z) (i : in_struct) (w : world)
| Break (ret : Z) (i : in_struct) (w : world).

(** One turn of the [while (!user_quit)] loop of [main], past the test. *)
Definition running_step (ret spin_counter : Z) (i : in_struct) (w : world) : step :=
  match read_pkt i w true with
  | (RP_ok s n, i, w) =>
      if (n =? 0)%nat then
        let spin_counter := wrap_int (spin_counter + 1) in
        if spin_counter >? 5 then Continue 0 i (sleep 1 w)
        else Continue spin_counter i w
      else
        let pkt := skipn s (buf i) in
        let trailer := skipn (s + n - 3) (buf i) in
        if (n =? 4)%nat && (strncmp pkt (chars "$#00") 4 =? 0) then
          Continue 0 i w
        else if (5 <? n)%nat && (strncmp pkt (chars "$O") 2 =? 0)
                && (strncmp trailer (chars "#00") 3 =? 0) then
          let i := set_buf i (fromhex_inplace (buf i) s (s + 2) (n - 5)) in
          let w := log (E_stdout (c_string (skipn s (buf i)))) w in
          Continue 0 i (write_pkt w (chars "$OK#00"))
        else if (2 <? n)%nat && (strncmp pkt (chars "$T") 2 =? 0) then
          Break ret i w
        else if (5 <? n)%nat
                && ((strncmp pkt (chars "$W") 2 =? 0) || (strncmp pkt (chars "$X") 2 =? 0))
                && (strncmp trailer (chars "#00") 3 =? 0) then
          let w := set_app_quit w in
          let i := set_buf i (fromhex_inplace (buf i) s (s + 2) (n - 3)) in
          let ret := atoi (c_string (skipn s (buf i))) in
          Break ret i (write_pkt w (chars "$OK#00"))
        else Break ret i w
  | (_, i, w) => Break ret i w
  end.

(** The loop itself.  It need not end, so it runs on fuel: [None] is a
    loop still going when the fuel is spent. *)
Fixpoint running (fuel : nat) (ret spin_counter : Z) (i : in_struct) (w : world)
  : option (Z * in_struct * world) :=
  match fuel with
  | O => None
  | S k =>
      let w := poll_user_quit w in
      if user_quit w then Some (ret, i, w)
      else
        match running_step ret spin_counter i w with
        | Continue spin_counter i w => running k ret spin_counter i w
        | Break ret i w => Some (ret, i, w)
        end
  end.

(** [for (s = env; *s; s++)] of [main]. *)
Fixpoint send_env (env : list (list ascii)) (i : in_struct) (w : world)
  : option (in_struct * world) :=
  match env with
  | [] => Some (i, w)
  | s :: rest =>
      encoded_env <- create_env_packet s ;;
      let w := write_pkt w encoded_env in
      let '(_, i, w) := read_pkt_assert i w (Some (chars "$OK#00")) in
      send_env rest i w
  end.

(** [main] from [in_new] up to the loop: handshake, environment, launch,
    verification, continue. *)
Definition launch (env : option (list (list ascii))) (app_path : option (list ascii))
    (args : option (list (list ascii))) (debug_flag : bool) (w : world)
  : option (in_struct * world) :=
  let buf_len := (16 * 1024)%nat in
  let i := in_new debug_flag buf_len in
  let w := write_pkt w (chars "$QStartNoAckMode#b0") in
  let '(_, i, w) := read_pkt_assert i w (Some (chars "+")) in
  let '(_, i, w) := read_pkt_assert i w (Some (chars "$OK#9a")) in
  let w := write_pkt w (chars "+") in
  '(i, w) <- send_env (match env with Some e => e | None => [] end) i w ;;
  encoded_app_path <- create_args_packet app_path args ;;
  let w := write_pkt w encoded_app_path in
  let '(_, i, w) := read_pkt_assert i w (Some (chars "$OK#00")) in
  let w := write_pkt w (chars "$qLaunchSuccess#00") in
  let '(_, i, w) := read_pkt_assert i w (Some (chars "$OK#00")) in
  let w := write_pkt w (chars "$Hc-1#00") in
  let '(_, i, w) := read_pkt_assert i w (Some (chars "$OK#00")) in
  Some (i, write_pkt w (chars "$c#00")).

(** The world [main] starts in: all three flags clear, nothing sent or
    received. *)
Definition initial_world (signals : list bool) (rx : list recv_event)
    (tx : list send_event) : world :=
  mkWorld false false false signals 0 rx tx [].

(** [main] after [connect_to_debugserver]: the value it returns and the
    final world.  [None]: undefined encoding, or fuel spent. *)
Definition main (fuel : nat) (env : option (list (list ascii)))
    (app_path : option (list ascii)) (args : option (list (list ascii)))
    (debug_flag : bool) (w : world) : option (Z * world) :=
  '(i, w) <- launch env app_path args debug_flag w ;;
  '(ret, i, w) <- running fuel 1 0 i w ;;
  let w := write_pkt w (chars "$k#00") in
  Some (ret, log E_disconnect w).

(** ** [main] from its first line *)

(** What [connect_to_debugserver] gets from the device libraries: whether
    [idevice_new], [lockdownd_client_new_with_handshake],
    [lockdownd_start_service] (with a port that is not 0) and
    [idevice_connect] succeed, and what [get_app_path(app_id, get_apps(...))]
    finds. *)
Record device_answers := mkAnswers {
  idevice_new_ok : bool;
  lockdownd_ok : bool;
  debugserver_ok : bool;
  idevice_connect_ok : bool;
  installed_path : option (list ascii)
}.

(** [connect_to_debugserver(uuid, app_id, &app_path, &connection)]: its
    result, the application path, and the world.  On the way out through
    [leave_cleanup] with [ret] not 0 it disconnects; that is an effect
    only where [idevice_connect] has made the connection. *)
Definition connect_to_debugserver (a : device_answers) (app_id : option (list ascii))
    (app_path : option (list ascii)) (w : world)
  : Z * option (list ascii) * world :=
  if negb (idevice_new_ok a) then (-1, app_path, w)
  else if negb (lockdownd_ok a) then (-1, app_path, w)
  else if negb (debugserver_ok a) then (-1, app_path, w)
  else if negb (idevice_connect_ok a) then (-1, app_path, w)
  else
    match app_id, app_path with
    | Some id, None =>
        match installed_path a with
        | Some p => (0, Some p, w)
        | None =>
            if strncmp id (chars "/") 1 =? 0 then (0, Some id, w)
            else (-1, None, log E_disconnect w)
        end
    | _, _ => (0, app_path, w)
    end.

(** ** The command line *)

(** [getopt_long] is libc's.  A call is given [argv] and [optind] and has
    a position of its own besides; it returns the option character (-1 at
    the end, 1 for an argument that is no option, [?] for what it does
    not know), and leaves [optarg] and [optind]. *)
Class Getopt := {
  getopt_state : Type;
  getopt_long :
    list (list ascii) -> getopt_state -> nat
    -> Z * option (list ascii) * nat * getopt_state
}.

(** What [parse_options] hands to [main] when it returns. *)
Record options := mkOptions {
  opt_uuid : option (list ascii);
  opt_app_id : option (list ascii);
  opt_env : option (list (list ascii));
  opt_args : option (list (list ascii));
  opt_debug_flag : bool
}.

Definition set_uuid (v : list ascii) (o : options) : options :=
  mkOptions (Some v) (opt_app_id o) (opt_env o) (opt_args o) (opt_debug_flag o).

Definition set_app_id (v : list ascii) (o : options) : options :=
  mkOptions (opt_uuid o) (Some v) (opt_env o) (opt_args o) (opt_debug_flag o).

(** [-D]: a copy of [optarg] goes behind what [env] holds, and the null
    pointer behind it. *)
Definition add_env (v : list ascii) (o : options) : options :=
  mkOptions (opt_uuid o) (opt_app_id o)
            (Some (match opt_env o with Some e => e | None => [] end ++ [v]))
            (opt_args o) (opt_debug_flag o).

Definition set_args (v : list (list ascii)) (o : options) : options :=
  mkOptions (opt_uuid o) (opt_app_id o) (opt_env o) (Some v) (opt_debug_flag o).

Definition set_debug_flag (o : options) : options :=
  mkOptions (opt_uuid o) (opt_app_id o) (opt_env o) (opt_args o) true.

(** [parse_options] ends the process with [exit(status)], or returns. *)
Inductive parse_result := PO_exit (status : Z) | PO_return (o : options).

Section CommandLine.
Context {G : Getopt}.

(** [parse_options]: [while (1)] on [getopt_long], then the last test.
    [argc] is the length of [argv].  [None]: fuel spent, or no defined
    behaviour (an [optarg] that is null where it is read, an [optind]
    beyond [argc] in [-a]). *)
Fixpoint parse_options (fuel : nat) (argv : list (list ascii)) (g : getopt_state)
    (optind : nat) (o : options) : option parse_result :=
  match fuel with
  | O => None
  | S k =>
      let '(c, optarg, optind, g) := getopt_long argv g optind in
      if (c =? -1) || (c =? 1) then
        Some (if (optind <? List.length argv)%nat
                 || match opt_app_id o with None => true | Some _ => false end
              then PO_exit 2 else PO_return o)
      else if c =? byte_val "h" then Some (PO_exit 0)
      else if (c =? byte_val "u") || (c =? byte_val "U") then
        a <- optarg ;;
        if negb (strlen a =? 40)%nat then Some (PO_exit 2)
        else parse_options k argv g optind (set_uuid a o)
      else if (c =? byte_val "s") || (c =? byte_val "r") then
        a <- optarg ;;
        parse_options k argv g optind (set_app_id a o)
      else if c =? byte_val "D" then
        a <- optarg ;;
        parse_options k argv g optind (add_env a o)
      else if c =? byte_val "d" then
        parse_options k argv g optind (set_debug_flag o)
      else if c =? byte_val "a" then
        if (List.length argv <? optind)%nat then None
        else parse_options k argv g (List.length argv)
               (set_args (skipn optind argv) o)
      else Some (PO_exit 2)
  end.

(** How the process ends: [exit(status)] inside [parse_options], or
    [main] returns. *)
Inductive ending := Exited (status : Z) | Returned (ret : Z).

(** [main] as a whole: [parse_options] from [optind] 1 with nothing set,
    then [connect_to_debugserver], and on its success the session of
    [main] above. *)
Definition main_whole (turns : nat) (argv : list (list ascii)) (g : getopt_state)
    (a : device_answers) (fuel : nat)
    (signals : list bool) (rx : list recv_event) (tx : list send_event)
  : option (ending * world) :=
  let w := initial_world signals rx tx in
  p <- parse_options turns argv g 1 (mkOptions None None None None false) ;;
  match p with
  | PO_exit status => Some (Exited status, w)
  | PO_return o =>
      let '(rc, app_path, w) := connect_to_debugserver a (opt_app_id o) None w in
      if negb (rc =? 0) then Some (Returned (-1), w)
      else
        '(ret, w) <- main fuel (opt_env o) app_path (opt_args o) (opt_debug_flag o) w ;;
        Some (Returned ret, w)
  end.

End CommandLine.

End AppRunner.

Module WebInspectorProxy.

(** ** The structured-document library

    [plist_from_bin], [plist_from_xml], [plist_to_bin] and [plist_to_xml]
    belong to libplist; the relay only moves their results about.  A
    parser is called as [plist_from_bin(buffer, length, &message)]: it is
    given the bytes and what [message] holds, and its result is what
    [message] holds after the call, [None] for null.  A serialisation
    that yields no buffer is the empty list. *)
Class PlistLib := {
  plist_t : Type;
  plist_from_bin : list ascii -> option plist_t -> option plist_t;
  plist_from_xml : list ascii -> option plist_t -> option plist_t;
  plist_to_bin : plist_t -> list ascii;
  plist_to_xml : plist_t -> list ascii
}.

(** ** The connection record *)

(** [socket_info_t]; of the two handles only whether they are null
    matters here. *)
Record socket_info_t := mkInfo {
  server_fd : Z;
  client_fd : Z;
  local_port : Z;
  device : bool;
  inspector : bool;
  timeout : Z;
  format_xml : Z;
  stop_ctod : Z;
  stop_dtoc : Z
}.

Definition set_client_fd (v : Z) (si : socket_info_t) : socket_info_t :=
  mkInfo (server_fd si) v (local_port si) (device si) (inspector si)
         (timeout si) (format_xml si) (stop_ctod si) (stop_dtoc si).

Definition set_inspector (h : bool) (si : socket_info_t) : socket_info_t :=
  mkInfo (server_fd si) (client_fd si) (local_port si) (device si) h
         (timeout si) (format_xml si) (stop_ctod si) (stop_dtoc si).

Definition set_stop_ctod (si : socket_info_t) : socket_info_t :=
  mkInfo (server_fd si) (client_fd si) (local_port si) (device si) (inspector si)
         (timeout si) (format_xml si) 1 (stop_dtoc si).

Definition set_stop_dtoc (si : socket_info_t) : socket_info_t :=
  mkInfo (server_fd si) (client_fd si) (local_port si) (device si) (inspector si)
         (timeout si) (format_xml si) (stop_ctod si) 1.

(** The record as [main] fills it in before it parses its arguments;
    [server_fd] and [client_fd] are not initialised there. *)
Definition main_init (server_fd0 client_fd0 : Z) : socket_info_t :=
  mkInfo server_fd0 client_fd0 0 false false 1000 0 0 0.

(** ** The world of one pump *)

(** What a call of [socket_receive_timeout] on the client socket finds:
    bytes, nothing within the timeout (it returns 0), or an error (it
    returns [-e]). *)
Inductive sock_event :=
| Sock_data (bs : list ascii)
| Sock_idle
| Sock_error (e : positive).

Section Pumps.
Context {L : PlistLib}.

(** What a pump does to the outside: the client socket, the threads, the
    inspector service.  A send to the inspector carries the document
    handed to [webinspector_send]. *)
Inductive io :=
| Io_recv (fd : Z) (len : nat)
| Io_send (fd : Z) (bs : list ascii)
| Io_shutdown (fd : Z)
| Io_close (fd : Z)
| Io_start_service
| Io_thread_new
| Io_thread_join
| Io_inspector_send (message : option plist_t)
| Io_inspector_receive.

Record net := mkNet {
  quit_flag : Z;                          (* [static int quit_flag] *)
  client_rx : list sock_event;
  client_tx : list Z;                     (* results of [socket_send]; none: all sent *)
  device_rx : list (Z * option plist_t);  (* results of [webinspector_receive_with_timeout] *)
  device_tx : list Z;                     (* results of [webinspector_send]; none: success *)
  service_rc : list Z;                    (* results of [webinspector_client_start_service] *)
  thread_rc : list Z;                     (* results of [thread_new] *)
  log : list io                           (* newest first *)
}.

Definition set_client_rx (r : list sock_event) (n : net) : net :=
  mkNet (quit_flag n) r (client_tx n) (device_rx n) (device_tx n)
        (service_rc n) (thread_rc n) (log n).


Definition set_device_rx (r : list (Z * option plist_t)) (n : net) : net :=
  mkNet (quit_flag n) (client_rx n) (client_tx n) r (device_tx n)
        (service_rc n) (thread_rc n) (log n).

Definition set_device_tx (t : list Z) (n : net) : net :=
  mkNet (quit_flag n) (client_rx n) (client_tx n) (device_rx n) t
        (service_rc n) (thread_rc n) (log n).

Definition set_service_rc (t : list Z) (n : net) : net :=
  mkNet (quit_flag n) (client_rx n) (client_tx n) (device_rx n) (device_tx n)
        t (thread_rc n) (log n).

Definition set_thread_rc (t : list Z) (n : net) : net :=
  mkNet (quit_flag n) (client_rx n) (client_tx n) (device_rx n) (device_tx n)
        (service_rc n) t (log n).

Definition emit (e : io) (n : net) : net :=
  mkNet (quit_flag n) (client_rx n) (client_tx n) (device_rx n) (device_tx n)
        (service_rc n) (thread_rc n) (e :: log n).

(** A scripted return code, 0 (success) when nothing is scripted. *)
Definition next_rc (rcs : list Z) : Z * list Z :=
  match rcs with [] => (0, []) | r :: rest => (r, rest) end.

(** ** Framing *)

(** [receive_message_timeout]: a do-while.  A call asks for the bytes
    still missing; what a chunk holds beyond them stays queued.  On 0 and
    on -11 the loop [continue]s, which in a do-while goes to the test
    [current_length < message_length]; any other negative result is
    returned; the loop ends once the test fails.  A script that runs out
    is a descriptor that has been closed (-9). *)
Fixpoint receive_loop (script : list sock_event) (fd : Z) (message_length : nat)
    (data : list ascii) (tr : list io)
  : Z * list ascii * list sock_event * list io :=
  let want := (message_length - List.length data)%nat in
  match script with
  | [] => (-9, data, [], Io_recv fd want :: tr)
  | ev :: rest =>
      let tr := Io_recv fd want :: tr in
      match ev with
      | Sock_idle =>
          if (List.length data <? message_length)%nat
          then receive_loop rest fd message_length data tr
          else (Z.of_nat message_length, data, rest, tr)
      | Sock_error e =>
          if (e =? 11)%positive then
            if (List.length data <? message_length)%nat
            then receive_loop rest fd message_length data tr
            else (Z.of_nat message_length, data, rest, tr)
          else (Z.neg e, data, rest, tr)
      | Sock_data bs =>
          let data := data ++ firstn want bs in
          if (List.length data <? message_length)%nat
          then receive_loop rest fd message_length data tr
          else (Z.of_nat message_length, data,
                match skipn want bs with
                | [] => rest
                | more => Sock_data more :: rest
                end, tr)
      end
  end.

Definition receive_message_timeout (n : net) (fd : Z) (message_length : nat)
  : Z * list ascii * net :=
  let '(r, data, rest, tr) :=
    receive_loop (client_rx n) fd message_length [] (log n) in
  (r, data,
   mkNet (quit_flag n) rest (client_tx n) (device_rx n) (device_tx n)
         (service_rc n) (thread_rc n) tr).

(** [send_message]: a do-while of [socket_send] on what is still to go,
    [data] being [data + current_length] and its length
    [message_length - current_length].  A result of 0 or less is returned
    as it is; once [current_length] has reached [message_length] the
    result is [message_length].  With nothing scripted [socket_send] takes
    all it is given. *)
Fixpoint send_loop (script : list Z) (fd : Z) (message_length : Z)
    (data : list ascii) (tr : list io) : Z * list Z * list io :=
  match script with
  | [] => (message_length, [], Io_send fd data :: tr)
  | r :: rest =>
      let tr := Io_send fd data :: tr in
      if r <=? 0 then (r, rest, tr)
      else
        match skipn (Z.to_nat r) data with
        | [] => (message_length, rest, tr)
        | more => send_loop rest fd message_length more tr
        end
  end.

Definition send_message (n : net) (fd : Z) (data : list ascii) : Z * net :=
  let '(r, rest, tr) :=
    send_loop (client_tx n) fd (Z.of_nat (List.length data)) data (log n) in
  (r, mkNet (quit_flag n) (client_rx n) rest (device_rx n) (device_tx n)
            (service_rc n) (thread_rc n) tr).

(** [be32toh] of the four bytes read into [network_mlen], and [htobe32]. *)
Definition be32toh (bs : list ascii) : Z :=
  fold_left (fun acc b => acc * 256 + byte_val b) bs 0.

Definition htobe32 (v : Z) : list ascii :=
  [char_of_int (v / 16777216); char_of_int (v / 65536);
   char_of_int (v / 256); char_of_int v].

(** [sizeof(buffer)] for [char buffer[131072]]. *)
Definition sizeof_buffer : Z := 131072.

Definition memcmp_prefix (buffer : list ascii) (s : string) : bool :=
  if list_eq_dec ascii_dec (firstn (String.length s) buffer) (chars s)
  then true else false.

(** ** The pumps *)

(** The way out of either pump: the client socket is shut down and closed,
    [client_fd] becomes -1 and the other pump's stop flag 1. *)
Definition close_client (si : socket_info_t) (n : net) : socket_info_t * net :=
  (set_client_fd (-1) si,
   emit (Io_close (client_fd si)) (emit (Io_shutdown (client_fd si)) n)).

Definition ctod_guard (n : net) (si : socket_info_t) : bool :=
  (quit_flag n =? 0) && (stop_ctod si =? 0)
  && (0 <? client_fd si) && (0 <? server_fd si).

Definition dtoc_guard (n : net) (si : socket_info_t) : bool :=
  (quit_flag n =? 0) && (stop_dtoc si =? 0)
  && (0 <? client_fd si) && (0 <? server_fd si).

(** The locals of [thread_client_to_device] that live across turns of
    its loop: whether [dtoc], the other pump, has been started, and
    [message]. *)
Definition ctod_locals : Type := (bool * option plist_t)%type.

(** The body of the loop of [thread_client_to_device]; [dtoc] tells
    whether the other pump has been started, [message] is what the local
    of that name holds from the turns before.  [inl]: the loop goes
    round; [inr]: [break]. *)
Definition ctod_body (si : socket_info_t) (dtoc : bool) (message : option plist_t)
    (n : net)
  : (socket_info_t * ctod_locals * net) + (socket_info_t * ctod_locals * net) :=
  let '(recv_len, network_mlen, n) := receive_message_timeout n (client_fd si) 4 in
  if recv_len <? 0 then inr (si, (dtoc, message), n)
  else
    let message_length := be32toh network_mlen in
    if (message_length =? 0) || (message_length >=? sizeof_buffer)
    then inr (si, (dtoc, message), n)
    else
      let '(recv_len, buffer, n) :=
        receive_message_timeout n (client_fd si) (Z.to_nat message_length) in
      if recv_len <? 0 then inr (si, (dtoc, message), n)
      else
        let parsed :=
          if (message_length >? 8) && memcmp_prefix buffer "bplist00"
          then Some (plist_from_bin buffer message)
          else if (message_length >? 5) && memcmp_prefix buffer "<?xml"
          then Some (plist_from_xml buffer message)
          else None in
        match parsed with
        | None => inr (si, (dtoc, message), n)
        | Some message =>
            let started :=
              if inspector si then (0, si, n)
              else
                let '(rc, rest) := next_rc (service_rc n) in
                (rc, (if rc =? 0 then set_inspector true si else si),
                 set_service_rc rest (emit Io_start_service n)) in
            let '(rc, si, n) := started in
            if negb (rc =? 0) then inr (si, (dtoc, message), n)
            else
              let spawned :=
                if dtoc then (0, n)
                else
                  let '(rc, rest) := next_rc (thread_rc n) in
                  (rc, set_thread_rc rest (emit Io_thread_new n)) in
              let '(rc, n) := spawned in
              if negb (rc =? 0) then inr (si, (dtoc, message), n)
              else
                let dtoc := true in
                let '(res, rest) := next_rc (device_tx n) in
                let n := set_device_tx rest (emit (Io_inspector_send message) n) in
                if negb (res =? 0) then inr (si, (dtoc, message), n)
                else inl (si, (dtoc, message), n)
        end.

Fixpoint ctod_loop (fuel : nat) (si : socket_info_t) (dtoc : bool)
    (message : option plist_t) (n : net)
  : option (socket_info_t * ctod_locals * net) :=
  match fuel with
  | O => None
  | S k =>
      if ctod_guard n si then
        match ctod_body si dtoc message n with
        | inl (si, (dtoc, message), n) => ctod_loop k si dtoc message n
        | inr r => Some r
        end
      else Some (si, (dtoc, message), n)
  end.

(** [thread_join(dtoc)] returns once the other pump has returned, and the
    last thing that pump does is to store -1 into [client_fd] and 1 into
    [stop_ctod].  What the other pump sent and received is in its own run
    and not in this log. *)
Definition join_dtoc (si : socket_info_t) (n : net) : socket_info_t * net :=
  (set_stop_ctod (set_client_fd (-1) si), emit Io_thread_join n).

(** [thread_client_to_device]: [dtoc] starts as 0 and [message] as null.
    [None]: the loop is still going when the fuel is spent. *)
Definition thread_client_to_device (fuel : nat) (si : socket_info_t) (n : net)
  : option (socket_info_t * net) :=
  '(si, (dtoc, _), n) <- ctod_loop fuel si false None n ;;
  let '(si, n) := close_client si n in
  let si := set_stop_dtoc si in
  Some (if dtoc then join_dtoc si n else (si, n)).

(** The body of the loop of [thread_device_to_client]. *)
Definition dtoc_body (si : socket_info_t) (n : net)
  : (socket_info_t * net) + (socket_info_t * net) :=
  let n := emit Io_inspector_receive n in
  match device_rx n with
  | [] => inl (si, n)
  | (res, message) :: rest =>
      let n := set_device_rx rest n in
      if negb (res =? 0) then inl (si, n)
      else
        let buf :=
          match message with
          | None => []
          | Some m => if format_xml si =? 0 then plist_to_bin m else plist_to_xml m
          end in
        match buf with
        | [] => inr (si, n)
        | _ =>
            let message_length := Z.of_nat (List.length buf) in
            let '(sent, n) := send_message n (client_fd si) (htobe32 message_length) in
            if sent <=? 0 then inr (si, n)
            else
              let '(sent, n) := send_message n (client_fd si) buf in
              if sent <=? 0 then inr (si, n) else inl (si, n)
        end
  end.

Fixpoint dtoc_loop (fuel : nat) (si : socket_info_t) (n : net)
  : option (socket_info_t * net) :=
  match fuel with
  | O => None
  | S k =>
      if dtoc_guard n si then
        match dtoc_body si n with
        | inl (si, n) => dtoc_loop k si n
        | inr r => Some r
        end
      else Some (si, n)
  end.

(** The first [k] turns of that loop: the state they lead to, and whether
    the loop is still going. *)
Fixpoint dtoc_turns (k : nat) (si : socket_info_t) (n : net)
  : socket_info_t * net * bool :=
  match k with
  | O => (si, n, true)
  | S k =>
      if dtoc_guard n si then
        match dtoc_body si n with
        | inl (si, n) => dtoc_turns k si n
        | inr (si, n) => (si, n, false)
        end
      else (si, n, false)
  end.

Definition thread_device_to_client (fuel : nat) (si : socket_info_t) (n : net)
  : option (socket_info_t * net) :=
  '(si, n) <- dtoc_loop fuel si n ;;
  let '(si, n) := close_client si n in
  Some (set_stop_ctod si, n).

End Pumps.

(** ** The command line of [main] *)

Definition set_local_port (v : Z) (si : socket_info_t) : socket_info_t :=
  mkInfo (server_fd si) (client_fd si) v (device si) (inspector si)
         (timeout si) (format_xml si) (stop_ctod si) (stop_dtoc si).

Definition set_timeout (v : Z) (si : socket_info_t) : socket_info_t :=
  mkInfo (server_fd si) (client_fd si) (local_port si) (device si) (inspector si)
         v (format_xml si) (stop_ctod si) (stop_dtoc si).

Definition set_format_xml (v : Z) (si : socket_info_t) : socket_info_t :=
  mkInfo (server_fd si) (client_fd si) (local_port si) (device si) (inspector si)
         (timeout si) v (stop_ctod si) (stop_dtoc si).

Definition set_device (h : bool) (si : socket_info_t) : socket_info_t :=
  mkInfo (server_fd si) (client_fd si) (local_port si) h (inspector si)
         (timeout si) (format_xml si) (stop_ctod si) (stop_dtoc si).

Definition set_server_fd (v : Z) (si : socket_info_t) : socket_info_t :=
  mkInfo v (client_fd si) (local_port si) (device si) (inspector si)
         (timeout si) (format_xml si) (stop_ctod si) (stop_dtoc si).

(** [!strcmp(a, s)]. *)
Definition streq (a : list ascii) (s : string) : bool :=
  if list_eq_dec ascii_dec a (chars s) then true else false.

(** What the argument loop leaves: [print_usage] and [return 0], or the
    loop ran to [argc] with [debug_mode], [udid] and the record filled. *)
Inductive parsed :=
| Usage
| Parsed (debug_mode : Z) (udid : option (list ascii)) (si : socket_info_t).

(** [for (i = 1; i < argc; i++)] of [main], on [argv[1 .. argc)].  The
    entry after the last is the null pointer of [argv[argc]].  A port is
    stored into the [uint16_t local_port], the timeout into the
    [uint32_t timeout]. *)
Fixpoint parse_args (argv : list (list ascii)) (debug_mode : Z)
    (udid : option (list ascii)) (si : socket_info_t) : parsed :=
  match argv with
  | [] => Parsed debug_mode udid si
  | a :: rest =>
      if streq a "-d" || streq a "--debug" then parse_args rest 1 udid si
      else if streq a "-u" || streq a "--udid" then
        match rest with
        | [] => Usage
        | v :: rest =>
            if negb (AppRunner.strlen v =? 40)%nat then Usage
            else parse_args rest debug_mode (Some v) si
        end
      else if streq a "-t" || streq a "--timeout" then
        match rest with
        | [] => Usage
        | v :: rest =>
            if AppRunner.atoi v <=? 0 then Usage
            else parse_args rest debug_mode udid
                   (set_timeout (AppRunner.atoi v mod 2 ^ 32) si)
        end
      else if streq a "-x" || streq a "--xml" then
        parse_args rest debug_mode udid (set_format_xml 1 si)
      else if streq a "-h" || streq a "--help" then Usage
      else if AppRunner.atoi a >? 0 then
        parse_args rest debug_mode udid
          (set_local_port (AppRunner.atoi a mod 2 ^ 16) si)
      else Usage
  end.

Definition EXIT_SUCCESS : Z := 0.
Definition EXIT_FAILURE : Z := 1.

(** [main] up to its accept loop: it has returned [result], or it is
    listening with the record as the loop will share it. *)
Inductive startup :=
| Exit (result : Z)
| Listening (debug_mode : Z) (si : socket_info_t).

(** [idevice_new_rc] is what [idevice_new] returns and [created] what
    [socket_create] returns. *)
Definition main_startup (argv : list (list ascii)) (server_fd0 client_fd0 : Z)
    (idevice_new_rc created : Z) : startup :=
  match parse_args argv 0 None (main_init server_fd0 client_fd0) with
  | Usage => Exit 0
  | Parsed debug_mode udid si =>
      if local_port si =? 0 then Exit EXIT_SUCCESS
      else if negb (idevice_new_rc =? 0) then Exit EXIT_FAILURE
      else
        let si := set_device true si in
        let si := set_server_fd created si in
        if server_fd si <? 0 then Exit EXIT_FAILURE
        else Listening debug_mode si
  end.

(** ** The relay as a whole

    [main] in its accept loop, the connection handlers it starts and the
    pumps they start, as the threads of one process.  A thread works on
    the object its [data] pointer names; a step of a thread is a turn of
    its loop or a statement outside of it; a schedule says which thread
    steps next and when a signal comes in. *)

Section System.
Context {L : PlistLib}.

(** Objects of type [socket_info_t] are named by their place in
    [memory].  The program has one, the local [socket_info] of [main]. *)
Definition addr := nat.
Definition socket_info : addr := 0%nat.

(** [main], from [while (!quit_flag)] on. *)
Inductive main_pc :=
| M_while                     (* the test of the loop *)
| M_accept                    (* [socket_info.client_fd = socket_accept(...)] *)
| M_thread_new                (* [thread_new(&th, connection_handler, &socket_info)] *)
| M_leave                     (* [leave_cleanup] *)
| M_returned (result : Z).

(** [connection_handler(data)]; [ctod] is the thread [thread_new] stored,
    if it stored one. *)
Inductive handler_pc :=
| H_thread_new                (* [thread_new(&ctod, thread_client_to_device, data)] *)
| H_join (ctod : option nat)  (* [thread_join(ctod)] *)
| H_shutdown                  (* the two sockets *)
| H_returned.

(** [thread_client_to_device(data)]; [dtoc] is its local [thread_t dtoc],
    [message] its local [plist_t message]. *)
Inductive ctod_pc :=
| C_while (dtoc : option nat) (message : option plist_t)  (* the loop *)
| C_shutdown (dtoc : option nat)  (* from [socket_shutdown] to [stop_dtoc = 1] *)
| C_join (dtoc : nat)             (* [thread_join(dtoc)] *)
| C_returned.

(** [thread_device_to_client(data)]. *)
Inductive dtoc_pc :=
| D_while
| D_shutdown                  (* from [socket_shutdown] to [stop_ctod = 1] *)
| D_returned.

Inductive thread :=
| Main (pc : main_pc)
| Connection_handler (data : addr) (pc : handler_pc)
| Client_to_device (data : addr) (pc : ctod_pc)
| Device_to_client (data : addr) (pc : dtoc_pc).

(** The object a thread works on: [&socket_info] in [main], [data] in the
    others. *)
Definition working_on (t : thread) : addr :=
  match t with
  | Main _ => socket_info
  | Connection_handler data _ | Client_to_device data _ | Device_to_client data _ => data
  end.

Record relay := mkRelay {
  memory : list socket_info_t;
  outside : net;
  accepts : list Z;              (* results of [socket_accept]; none: -1 *)
  threads : list thread          (* a thread's id is its place; [main] is 0 *)
}.

Definition set_quit_flag (v : Z) (n : net) : net :=
  mkNet v (client_rx n) (client_tx n) (device_rx n) (device_tx n)
        (service_rc n) (thread_rc n) (log n).

(** [clean_exit(sig)]: [quit_flag++]. *)
Definition clean_exit (n : net) : net :=
  set_quit_flag (wrap_int (quit_flag n + 1)) n.

(** [thread_new(...)]: its result, 0 when the thread runs. *)
Definition thread_new (n : net) : Z * net :=
  let '(rc, rest) := next_rc (thread_rc n) in
  (rc, set_thread_rc rest (emit Io_thread_new n)).

Definition returned_ctod (ths : list thread) (c : nat) : bool :=
  match nth_error ths c with
  | Some (Client_to_device _ C_returned) => true
  | _ => false
  end.

Definition returned_dtoc (ths : list thread) (d : nat) : bool :=
  match nth_error ths d with
  | Some (Device_to_client _ D_returned) => true
  | _ => false
  end.

(** What a step of a thread leaves: the object it works on, the outside,
    the accept results still to come, the thread itself, and the thread it
    has started, if any. *)
Record outcome := mkOutcome {
  o_record : socket_info_t;
  o_outside : net;
  o_accepts : list Z;
  o_thread : thread;
  o_spawned : option thread
}.

(** A turn of the loop of [thread_client_to_device]: [ctod_body] behind
    the guard.  The other pump is started on the same [data]. *)
Definition ctod_turn (next_tid : nat) (data : addr) (dtoc : option nat)
    (message : option plist_t) (si : socket_info_t) (n : net) (acc : list Z)
  : outcome :=
  if ctod_guard n si then
    let started := match dtoc with Some _ => true | None => false end in
    let after (again : bool) (si' : socket_info_t) (started' : bool)
        (message' : option plist_t) (n' : net) :=
      let spawned := negb started && started' in
      let dtoc' := if spawned then Some next_tid else dtoc in
      mkOutcome si' n' acc
        (Client_to_device data
           (if again then C_while dtoc' message' else C_shutdown dtoc'))
        (if spawned then Some (Device_to_client data D_while) else None) in
    match ctod_body si started message n with
    | inl (si', (started', message'), n') => after true si' started' message' n'
    | inr (si', (started', message'), n') => after false si' started' message' n'
    end
  else mkOutcome si n acc (Client_to_device data (C_shutdown dtoc)) None.

(** A turn of the loop of [thread_device_to_client]. *)
Definition dtoc_turn (data : addr) (si : socket_info_t) (n : net) (acc : list Z)
  : outcome :=
  if dtoc_guard n si then
    match dtoc_body si n with
    | inl (si', n') => mkOutcome si' n' acc (Device_to_client data D_while) None
    | inr (si', n') => mkOutcome si' n' acc (Device_to_client data D_shutdown) None
    end
  else mkOutcome si n acc (Device_to_client data D_shutdown) None.

(** One step of the thread [t] on the object [si] it works on; [next_tid]
    is the id a thread started now gets.  [None]: the thread has returned,
    or waits in [thread_join] for a thread that has not returned, or joins
    a thread that [thread_new] never stored (no defined behaviour). *)
Definition thread_step (next_tid : nat) (ths : list thread) (si : socket_info_t)
    (n : net) (acc : list Z) (t : thread) : option outcome :=
  match t with
  | Main M_while =>
      Some (mkOutcome si n acc
              (Main (if quit_flag n =? 0 then M_accept else M_leave)) None)
  | Main M_accept =>
      let '(v, acc) := match acc with [] => (-1, []) | v :: rest => (v, rest) end in
      let si := set_client_fd v si in
      Some (mkOutcome si n acc
              (Main (if client_fd si <? 0 then M_while else M_thread_new)) None)
  | Main M_thread_new =>
      let '(rc, n) := thread_new n in
      if negb (rc =? 0) then
        Some (mkOutcome si
                (emit (Io_close (server_fd si)) (emit (Io_shutdown (server_fd si)) n))
                acc (Main M_while) None)
      else
        Some (mkOutcome si n acc (Main M_while)
                (Some (Connection_handler socket_info H_thread_new)))
  | Main M_leave => Some (mkOutcome si n acc (Main (M_returned EXIT_SUCCESS)) None)
  | Main (M_returned _) => None
  | Connection_handler data H_thread_new =>
      let '(rc, n) := thread_new n in
      if negb (rc =? 0) then
        Some (mkOutcome si n acc (Connection_handler data (H_join None)) None)
      else
        Some (mkOutcome si n acc (Connection_handler data (H_join (Some next_tid)))
                (Some (Client_to_device data (C_while None None))))
  | Connection_handler data (H_join (Some c)) =>
      if returned_ctod ths c
      then Some (mkOutcome si n acc (Connection_handler data H_shutdown) None)
      else None
  | Connection_handler data (H_join None) => None
  | Connection_handler data H_shutdown =>
      let n := emit (Io_close (client_fd si)) (emit (Io_shutdown (client_fd si)) n) in
      let n := if quit_flag n =? 0 then n
               else emit (Io_close (server_fd si)) (emit (Io_shutdown (server_fd si)) n) in
      Some (mkOutcome si n acc (Connection_handler data H_returned) None)
  | Connection_handler data H_returned => None
  | Client_to_device data (C_while dtoc message) =>
      Some (ctod_turn next_tid data dtoc message si n acc)
  | Client_to_device data (C_shutdown dtoc) =>
      let '(si, n) := close_client si n in
      let si := set_stop_dtoc si in
      Some (mkOutcome si n acc
              (Client_to_device data
                 (match dtoc with Some d => C_join d | None => C_returned end))
              None)
  | Client_to_device data (C_join d) =>
      if returned_dtoc ths d
      then Some (mkOutcome si (emit Io_thread_join n) acc
                   (Client_to_device data C_returned) None)
      else None
  | Client_to_device data C_returned => None
  | Device_to_client data D_while => Some (dtoc_turn data si n acc)
  | Device_to_client data D_shutdown =>
      let '(si, n) := close_client si n in
      let si := set_stop_ctod si in
      Some (mkOutcome si n acc (Device_to_client data D_returned) None)
  | Device_to_client data D_returned => None
  end.

(** Storing an object back at its address. *)
Fixpoint poke (m : list socket_info_t) (a : addr) (si : socket_info_t)
  : list socket_info_t :=
  match m, a with
  | [], _ => []
  | _ :: m', O => si :: m'
  | x :: m', S a' => x :: poke m' a' si
  end.

Fixpoint set_thread (tid : nat) (t : thread) (ths : list thread) : list thread :=
  match ths, tid with
  | [], _ => []
  | _ :: ths', O => t :: ths'
  | x :: ths', S k => x :: set_thread k t ths'
  end.

(** Once [main] has returned the process is over. *)
Definition process_over (r : relay) : bool :=
  match threads r with
  | Main (M_returned _) :: _ => true
  | _ => false
  end.

(** A step of the thread [tid]. *)
Definition step (tid : nat) (r : relay) : option relay :=
  if process_over r then None
  else
    t <- nth_error (threads r) tid ;;
    si <- nth_error (memory r) (working_on t) ;;
    o <- thread_step (List.length (threads r)) (threads r) si
           (outside r) (accepts r) t ;;
    Some (mkRelay (poke (memory r) (working_on t) (o_record o))
                  (o_outside o) (o_accepts o)
                  (set_thread tid (o_thread o) (threads r)
                     ++ match o_spawned o with Some t' => [t'] | None => [] end)).

Inductive action :=
| Run (tid : nat)
| Signal.                     (* SIGINT, SIGTERM or SIGQUIT: [clean_exit] *)

Definition act (a : action) (r : relay) : option relay :=
  match a with
  | Run tid => step tid r
  | Signal =>
      if process_over r then None
      else Some (mkRelay (memory r) (clean_exit (outside r)) (accepts r) (threads r))
  end.

(** A schedule, carried out from [r]; [None] if it asks for a step that
    cannot be made. *)
Fixpoint run (sched : list action) (r : relay) : option relay :=
  match sched with
  | [] => Some r
  | a :: rest => r' <- act a r ;; run rest r'
  end.

(** The process as [main] enters its accept loop. *)
Definition boot (argv : list (list ascii)) (server_fd0 client_fd0 : Z)
    (idevice_new_rc created : Z) (acc : list Z) (n : net) : option relay :=
  match main_startup argv server_fd0 client_fd0 idevice_new_rc created with
  | Listening _ si => Some (mkRelay [si] n acc [Main M_while])
  | Exit _ => None
  end.

End System.

End WebInspectorProxy.

(** * Specification vocabulary *)

Module AppRunnerSpec.
Import AppRunner.

(** The sixteen digits [tohex] can emit. *)
Definition is_upper_hex (c : ascii) : bool :=
  existsb (Ascii.eqb c) (firstn 16 hexchars).

(** The loop of [tohex] as it runs where plain [char] is unsigned: the
    byte promotes to [byte_val], 0..255. *)
Fixpoint tohex_digits_unsigned (from_s : list ascii) (n : nat) {struct n}
  : option (list ascii) :=
  match n with
  | O => Some []
  | S n' =>
      match from_s with
      | [] => None
      | c :: f =>
          h <- int2hex (Z.shiftr (byte_val c) 4) ;;
          l <- int2hex (Z.land (byte_val c) 15) ;;
          r <- tohex_digits_unsigned f n' ;;
          Some (h :: l :: r)
      end
  end.

(** The cursor invariant of the receive buffer, the arena bound included. *)
Definition cursors_ok (i : in_struct) : Prop :=
  (buf_begin i <= buf_head i)%nat /\ (buf_head i <= buf_next i)%nat /\
  (buf_next i <= buf_tail i)%nat /\ (buf_tail i <= buf_end i)%nat /\
  (buf_end i <= List.length (buf i))%nat.

(** The arena of [i'] is the arena of [i]: same bounds, same size. *)
Definition same_arena (i i' : in_struct) : Prop :=
  buf_begin i' = buf_begin i /\ buf_end i' = buf_end i /\
  List.length (buf i') = List.length (buf i).

(** The bytes received and not yet consumed: [head .. tail). *)
Definition unconsumed (i : in_struct) : list ascii :=
  slice (buf i) (buf_head i) (buf_tail i - buf_head i).

(** The bytes of the packet being assembled: [head .. next). *)
Definition assembled (i : in_struct) : list ascii :=
  slice (buf i) (buf_head i) (buf_next i - buf_head i).

(** The characters a call of [read_char] delivered. *)
Definition chars_read (r : rc_result) : list ascii :=
  match r with RC_char ch => [ch] | _ => [] end.

(** The packet [read_pkt] hands back lies inside the arena and ends where
    the cursors [head] and [next] now stand. *)
Definition pkt_in_buffer (r : rp_result) (i' : in_struct) : Prop :=
  match r with
  | RP_fail => True
  | RP_invalid s n | RP_ok s n =>
      (buf_begin i' <= s)%nat /\ (s + n)%nat = buf_next i' /\
      buf_head i' = buf_next i'
  end.

(** The bytes of the packet [read_pkt] handed back. *)
Definition packet_of (r : rp_result) (i' : in_struct) : list ascii :=
  match r with
  | RP_fail => []
  | RP_invalid s n | RP_ok s n => slice (buf i') s n
  end.

(** "The packet's bytes match [expected], trailing bytes of the packet
    beyond [expected]'s own length not checked": [expected] is a prefix of
    the packet. *)
Definition matches_within_expected (pkt expected : list ascii) : Prop :=
  firstn (List.length expected) pkt = expected.

(** What [strncmp(s, expected, n)] with the packet's length [n] decides:
    the packet is a prefix of [expected], or it starts with [expected]
    followed by a NUL byte. *)
Definition matches_within_packet (pkt expected : list ascii) : Prop :=
  firstn (List.length pkt) (expected ++ [NUL])
  = firstn (S (List.length expected)) pkt.

(** A receive that times out with nothing. *)
Definition idle : recv_event := {| rv_err := IDEVICE_E_SUCCESS; rv_data := [] |}.

(** A receive that delivers the bytes of [s]. *)
Definition delivers (s : string) : recv_event :=
  {| rv_err := IDEVICE_E_SUCCESS; rv_data := chars s |}.

(** The replies of a device that accepts the launch: the acknowledgement,
    [OK] to the no-ack request, and [OK] to the launch packet, the
    launch-success query and the thread selection. *)
Definition launch_replies : list recv_event :=
  [delivers "+"; delivers "$OK#9a"; delivers "$OK#00"; delivers "$OK#00";
   delivers "$OK#00"].

(** The buffer as the "make room" block leaves it. *)
Definition settle (i : in_struct) : in_struct :=
  match make_room i with Room_ok i' => i' | Room_full => i end.

(** The world after [k] receives of [avail] bytes that all timed out. *)
Definition after_idle (k : nat) (avail : nat) (rest : list recv_event) (w : world)
  : world :=
  mkWorld (error_flag w) (app_quit w) (user_quit w) (signals w)
          (clock w + 500 * Z.of_nat k) rest (tx w)
          (repeat (E_recv avail) k ++ trace w).

(** [main] against a device that accepts the launch of "/a" and then sends
    the one packet [pkt]: the value [main] returns. *)
Definition result_after (pkt : string) : option Z :=
  option_map fst
    (main 1 None (Some (chars "/a")) None false
          (initial_world [] (launch_replies ++ [delivers pkt]) [])).

(** A sixteen-byte buffer right after the acknowledgement [+] has been read
    from a chunk that also brought a [-]. *)
Definition after_plus : rp_result * in_struct * world :=
  read_pkt (in_new false 16) (initial_world [] [delivers "+-"] []) false.

(** An eight-byte arena, full, of which the first six bytes are consumed. *)
Definition full_tail : in_struct := mkIn false (chars "abcdefgh") 0 6 8 8 8.

(** An eight-byte arena, full, of which nothing is consumed. *)
Definition full_arena : in_struct := mkIn false (chars "abcdefgh") 0 0 8 8 8.

(** A sixty-four-byte buffer and a device about to send [pkt]. *)
Definition fresh_in : in_struct := in_new false 64.
Definition device_sends (pkt : string) : world :=
  initial_world [] [delivers pkt] [].

(** ** Vocabulary of the further properties *)

(** Strings all of whose bytes are below 0x80, the bytes [tohex] is defined
    for. *)
Definition seven_bit (s : list ascii) : Prop :=
  Forall (fun c => byte_val c < 128) s.

(** The characters [hex2int] takes for digits. *)
Definition hex_alphabet : list ascii := chars "0123456789abcdefABCDEF".

(** The token [create_args_packet] writes for the string [s] at index [i],
    the separating comma not included. *)
Definition launch_token (i : nat) (s hex : list ascii) : list ascii :=
  fmt_d (2 * Z.of_nat (strlen s)) ++ chars "," ++ fmt_d (Z.of_nat i)
        ++ chars "," ++ hex.

(** The bytes the reader has still to see, in order: the unread ones in
    the arena, then what the connection will deliver. *)
Definition stream (i : in_struct) (w : world) : list ascii :=
  slice (buf i) (buf_next i) (buf_tail i - buf_next i)
  ++ List.concat (map rv_data (rx w)).

(** A connection on which every receive succeeds and brings something. *)
Definition delivering (w : world) : Prop :=
  Forall (fun ev => rv_err ev = IDEVICE_E_SUCCESS /\ rv_data ev <> []) (rx w).

(** Capacity of the arena. *)
Definition capacity (i : in_struct) : nat := (buf_end i - buf_begin i)%nat.

(** The effects of [m + 1] receives that bring nothing, a sleep of one
    second between two of them, the latest first. *)
Fixpoint idle_polls (avail : nat) (m : nat) : list effect :=
  match m with
  | O => [E_recv avail]
  | S k => E_recv avail :: E_sleep 1 :: idle_polls avail k
  end.

(** A device that sends the given chunks, one a receive. *)
Definition chunked (chunks : list string) : world :=
  initial_world [] (map delivers chunks) [].

(** A [getopt_long] for worked examples: it returns what it is told to,
    an entry a call (the character, [optarg], [optind]), and -1 with
    [optind] as it is after that. *)
Definition scripted_getopt : Getopt := {|
  getopt_state := list (Z * option (list ascii) * nat);
  getopt_long := fun _ g optind =>
    match g with
    | [] => (-1, None, optind, [])
    | (c, optarg, optind') :: g' => (c, optarg, optind', g')
    end
|}.

(** The command line [idevice-app-runner -s /a] and what [getopt_long]
    makes of it. *)
Definition start_a : list (list ascii) :=
  [chars "idevice-app-runner"; chars "-s"; chars "/a"].

Definition start_a_options : list (Z * option (list ascii) * nat) :=
  [(byte_val "s", Some (chars "/a"), 3%nat)].

End AppRunnerSpec.

Module RelaySpec.
Import WebInspectorProxy.

(** A stand-in for libplist in worked examples: a document is the bytes it
    was read from. *)
Definition raw_plist : PlistLib := {|
  plist_t := list ascii;
  plist_from_bin := fun b _ => Some b;
  plist_from_xml := fun b _ => Some b;
  plist_to_bin := fun m => m;
  plist_to_xml := fun m => m
|}.

(** A pump's world with nothing scripted but what the client sends. *)
Definition client_sends {L : PlistLib} (rx : list sock_event) : net :=
  mkNet 0 rx [] [] [] [] [] [].

(** The number of receive calls in a log. *)
Definition receive_calls {L : PlistLib} (tr : list io) : nat :=
  List.length (filter (fun e => match e with Io_recv _ _ => true | _ => false end) tr).

(** A connection record in service: listening on descriptor 3, a client
    accepted on descriptor 4, both stop flags clear. *)
Definition serving : socket_info_t := mkInfo 3 4 9222 true false 1000 0 0 0.

(** A client that sends the length prefix 0, then more. *)
Definition sends_zero_length {L : PlistLib} : net :=
  client_sends [Sock_data [NUL; NUL; NUL; NUL; "x"%char]].

(** A client that sends the length prefix 0x00020000 (131072), then more. *)
Definition sends_oversize_length {L : PlistLib} : net :=
  client_sends [Sock_data [NUL; "002"%char; NUL; NUL; "x"%char]].

(** A device that delivers one message that cannot be serialised. *)
Definition device_delivers_null {L : PlistLib} : net :=
  mkNet 0 [] [] [(0, None)] [] [] [] [].

(** ** Vocabulary of the further properties *)

(** The bytes a client script delivers, in order. *)
Definition client_bytes (script : list sock_event) : list ascii :=
  List.concat (map (fun ev => match ev with Sock_data bs => bs | _ => [] end) script).

(** A receive that is no hard error: data, nothing within the timeout, or
    the error 11 the loop retries on. *)
Definition benign (ev : sock_event) : Prop :=
  match ev with Sock_error e => e = 11%positive | _ => True end.




(** Calls of [webinspector_client_start_service], of [thread_new] and of
    [webinspector_send] in a log. *)
Definition service_starts {L : PlistLib} (tr : list io) : nat :=
  List.length (filter (fun e => match e with Io_start_service => true | _ => false end) tr).

Definition thread_spawns {L : PlistLib} (tr : list io) : nat :=
  List.length (filter (fun e => match e with Io_thread_new => true | _ => false end) tr).

Definition inspector_sends {L : PlistLib} (tr : list io) : nat :=
  List.length (filter (fun e => match e with Io_inspector_send _ => true | _ => false end) tr).

(** The payloads [thread_client_to_device] takes for a document. *)
Definition recognised (payload : list ascii) : bool :=
  ((8 <? List.length payload)%nat && memcmp_prefix payload "bplist00")
  || ((5 <? List.length payload)%nat && memcmp_prefix payload "<?xml").

(** What [thread_client_to_device] has in [message] after parsing a
    payload it takes for a document, [message] being what it had before:
    the binary parser is tried first. *)
Definition document {L : PlistLib} (payload : list ascii) (message : option plist_t)
  : option plist_t :=
  if (8 <? List.length payload)%nat && memcmp_prefix payload "bplist00"
  then plist_from_bin payload message
  else plist_from_xml payload message.

(** A local-to-remote pump past its last stores, and a remote-to-local
    pump past its own. *)
Definition ctod_stored {L : PlistLib} (t : thread) : Prop :=
  match t with
  | Client_to_device _ (C_join _) | Client_to_device _ C_returned => True
  | _ => False
  end.

Definition dtoc_stored {L : PlistLib} (t : thread) : Prop :=
  match t with
  | Device_to_client _ D_returned => True
  | _ => False
  end.

(** The state of a relay in which there is one connection record, every
    thread works on it, and every pump that is past its last stores has
    left the other direction's stop flag at 1. *)
Definition one_record {L : PlistLib} (r : relay) (si : socket_info_t) : Prop :=
  memory r = [si] /\
  Forall (fun t => working_on t = socket_info) (threads r) /\
  Forall (fun t => (ctod_stored t -> stop_dtoc si = 1) /\
                   (dtoc_stored t -> stop_ctod si = 1)) (threads r).

(** The connection record as the argument loop of [main] can leave it,
    [server_fd] and [client_fd] still what they were. *)
Definition parsed_record (server_fd0 client_fd0 : Z) (si : socket_info_t) : Prop :=
  0 <= local_port si < 2 ^ 16 /\ 0 <= timeout si < 2 ^ 32 /\
  (format_xml si = 0 \/ format_xml si = 1) /\
  stop_ctod si = 0 /\ stop_dtoc si = 0 /\
  inspector si = false /\ device si = false /\
  server_fd si = server_fd0 /\ client_fd si = client_fd0.

(** A client that sends the given chunks, one a receive. *)
Definition client_chunks {L : PlistLib} (chunks : list (list ascii)) : net :=
  client_sends (map Sock_data chunks).

(** ** A run of two connections

    A client that sends one XML frame and closes; the relay is started on
    port 9222 and accepts that client on descriptor 4 and a second one on
    descriptor 5. *)
#[local] Existing Instance raw_plist.

Definition one_frame_then_close : @net raw_plist :=
  @client_chunks raw_plist [[NUL; NUL; NUL; "007"%char]; chars "<?xml?>"].

Definition listening : @relay raw_plist :=
  mkRelay [mkInfo 3 0 9222 true false 1000 0 0 0] one_frame_then_close [4; 5]
          [Main M_while].

(** [main] accepts and starts the handler (thread 1), which starts the
    local-to-remote pump (2); that forwards the frame, having started the
    service and the other pump (3), finds the client gone and leaves; the
    other pump leaves in its turn; both are joined. *)
Definition first_connection : list action :=
  [Run 0; Run 0; Run 0; Run 1; Run 2; Run 2; Run 2; Run 3; Run 3; Run 2;
   Run 1; Run 1]%nat.

Definition first_connection_done : @relay raw_plist :=
  mkRelay [mkInfo 3 (-1) 9222 true true 1000 0 1 1]
          (@mkNet raw_plist 0 [] [] [] [] [] []
             [Io_close (-1); Io_shutdown (-1); Io_thread_join;
              Io_close (-1); Io_shutdown (-1); Io_close 4; Io_shutdown 4;
              Io_recv 4 4; Io_inspector_send (Some (chars "<?xml?>"));
              Io_thread_new; Io_start_service; Io_recv 4 7; Io_recv 4 4;
              Io_thread_new; Io_thread_new])
          [5]
          [Main M_while; Connection_handler socket_info H_returned;
           Client_to_device socket_info C_returned;
           Device_to_client socket_info D_returned].

(** [main] accepts the second client and starts its handler (4), which
    starts its local-to-remote pump (5). *)
Definition second_connection : list action := [Run 0; Run 0; Run 0; Run 4]%nat.

Definition second_connection_started : @relay raw_plist :=
  mkRelay [mkInfo 3 5 9222 true true 1000 0 1 1]
          (@mkNet raw_plist 0 [] [] [] [] [] []
             (Io_thread_new :: Io_thread_new
                :: log (outside first_connection_done)))
          []
          [Main M_while; Connection_handler socket_info H_returned;
           Client_to_device socket_info C_returned;
           Device_to_client socket_info D_returned;
           Connection_handler socket_info (H_join (Some 5%nat));
           Client_to_device socket_info (C_while None None)].

End RelaySpec.

(** * Properties of the debugserver client *)

Module AppRunnerFacts.
Import AppRunner AppRunnerSpec.

(** ** Hex codec *)

Lemma hex_digits_of_char (c : ascii) :
  byte_val c < 128 ->
  exists h l,
    int2hex (Z.shiftr (int_of_char c) 4) = Some h /\
    int2hex (Z.land (int_of_char c) 15) = Some l /\
    hex_pair h l = c /\ is_upper_hex h = true /\ is_upper_hex l = true.
Proof.
  destruct c as [b0 b1 b2 b3 b4 b5 b6 b7].
  destruct b7.
  - intros H; exfalso; revert H.
    destruct b0, b1, b2, b3, b4, b5, b6; vm_compute; intros H; discriminate H.
  - intros _.
    destruct b0, b1, b2, b3, b4, b5, b6;
      do 2 eexists; repeat split; vm_compute; reflexivity.
Qed.

Lemma tohex_digits_fromhex_bytes (b : list ascii) :
  Forall (fun c => byte_val c < 128) b ->
  exists d,
    tohex_digits b (List.length b) = Some d /\
    List.length d = (2 * List.length b)%nat /\
    forallb is_upper_hex d = true /\
    fromhex_bytes d (List.length b) = Some b.
Proof.
  induction 1 as [|c b Hc _ IH].
  - exists []. repeat split.
  - destruct IH as (d & Ht & Hl & Hu & Hf).
    destruct (hex_digits_of_char c Hc) as (h & l & Hh & Hlo & Hp & Uh & Ul).
    exists (h :: l :: d). cbn [tohex_digits List.length fromhex_bytes].
    rewrite Hh, Hlo, Ht. cbn [bind]. rewrite Hf. cbn [bind].
    rewrite Hp. repeat split.
    + cbn [List.length]. lia.
    + cbn [forallb]. rewrite Uh, Ul, Hu. reflexivity.
Qed.

(** Round trip on the bytes the encoder is defined for: two upper-case
    digits a byte, a NUL after them, and [fromhex] gives the bytes back. *)
Lemma tohex_fromhex_roundtrip (b : list ascii) :
  Forall (fun c => byte_val c < 128) b ->
  exists d,
    tohex b (List.length b) = Some (d ++ [NUL]) /\
    List.length d = (2 * List.length b)%nat /\
    forallb is_upper_hex d = true /\
    fromhex d (List.length d) = Some (b ++ [NUL]).
Proof.
  intros H. destruct (tohex_digits_fromhex_bytes b H) as (d & Ht & Hl & Hu & Hf).
  exists d. unfold tohex, fromhex. rewrite Ht, Hl, Nat.div2_succ_double, Hf.
  repeat split; assumption.
Qed.

(** Where plain [char] is unsigned the table index stays within 0..15 and
    the round trip holds for every byte string. *)
Lemma hex_digits_of_char_unsigned (c : ascii) :
  exists h l,
    int2hex (Z.shiftr (byte_val c) 4) = Some h /\
    int2hex (Z.land (byte_val c) 15) = Some l /\
    hex_pair h l = c /\ is_upper_hex h = true /\ is_upper_hex l = true.
Proof.
  destruct c as [b0 b1 b2 b3 b4 b5 b6 b7].
  destruct b0, b1, b2, b3, b4, b5, b6, b7;
    do 2 eexists; repeat split; vm_compute; reflexivity.
Qed.

Lemma tohex_unsigned_roundtrip (b : list ascii) :
  exists d,
    tohex_digits_unsigned b (List.length b) = Some d /\
    List.length d = (2 * List.length b)%nat /\
    forallb is_upper_hex d = true /\
    fromhex d (List.length d) = Some (b ++ [NUL]).
Proof.
  assert (H : exists d,
             tohex_digits_unsigned b (List.length b) = Some d /\
             List.length d = (2 * List.length b)%nat /\
             forallb is_upper_hex d = true /\
             fromhex_bytes d (List.length b) = Some b).
  { induction b as [|c b IH].
    - exists []. repeat split.
    - destruct IH as (d & Ht & Hl & Hu & Hf).
      destruct (hex_digits_of_char_unsigned c) as (h & l & Hh & Hlo & Hp & Uh & Ul).
      exists (h :: l :: d). cbn [tohex_digits_unsigned List.length fromhex_bytes].
      rewrite Hh, Hlo, Ht. cbn [bind]. rewrite Hf. cbn [bind].
      rewrite Hp. repeat split.
      + cbn [List.length]. lia.
      + cbn [forallb]. rewrite Uh, Ul, Hu. reflexivity. }
  destruct H as (d & Ht & Hl & Hu & Hf).
  exists d. unfold fromhex. rewrite Hl, Nat.div2_succ_double, Hf.
  repeat split; assumption.
Qed.

(** C6.  The byte 0x80 promotes to -128, so [tohex] asks [int2hex] for
    entry -8 of the sixteen-digit table: the encoding of a string that
    holds such a byte is not defined, and with it the round trip. *)
Theorem tohex_byte_0x80_outside_table :
  int_of_char (ascii_of_nat 128) = -128 /\
  Z.shiftr (int_of_char (ascii_of_nat 128)) 4 = -8 /\
  int2hex (-8) = None /\
  tohex [ascii_of_nat 128] 1 = None.
Proof. repeat split. Qed.

(** ** Launch packet *)

(** C7.  The launch packet for the path "/a" without arguments (a null
    [args] or an empty one) is [$A4,0,2F61#00]; with the one argument "x"
    the token [,2,1,78] comes in before [#00]. *)
Theorem create_args_packet_shape :
  create_args_packet (Some (chars "/a")) None = Some (chars "$A4,0,2F61#00") /\
  create_args_packet (Some (chars "/a")) (Some []) = Some (chars "$A4,0,2F61#00") /\
  create_args_packet (Some (chars "/a")) (Some [chars "x"])
    = Some (chars "$A4,0,2F61" ++ chars ",2,1,78" ++ chars "#00").
Proof. repeat split. Qed.

(** In both cases the first loop of [create_args_packet] sizes the
    allocation to the packet exactly (one more byte is allocated for the
    terminator). *)
Lemma create_args_packet_fits :
  args_packet_len 0 (launch_strings (Some (chars "/a")) None) 5
  = Z.of_nat (List.length (chars "$A4,0,2F61#00")) /\
  args_packet_len 0 (launch_strings (Some (chars "/a")) (Some [chars "x"])) 5
  = Z.of_nat (List.length (chars "$A4,0,2F61,2,1,78#00")).
Proof. split; reflexivity. Qed.

(** ** The error flag *)

(** C4.  With the error flag set every protocol operation returns at once:
    the world (flag, connection scripts, trace of transport calls) and the
    buffer come back as they were. *)
Theorem error_flag_sticky (i : in_struct) (w : world) :
  error_flag w = true ->
  (forall s, write_pkt w s = w) /\
  (forall allow_empty, read_char i w allow_empty = (RC_fail, i, w)) /\
  (forall allow_empty, read_pkt i w allow_empty = (RP_fail, i, w)) /\
  (forall expected, read_pkt_assert i w expected = (-1, i, w)).
Proof.
  intros H. repeat split; intros.
  - unfold write_pkt. now rewrite H.
  - unfold read_char. now rewrite H.
  - unfold read_pkt. now rewrite H.
  - unfold read_pkt_assert, read_pkt. now rewrite H.
Qed.

Lemma error_flag_sticky_witness :
  let w := set_error_flag (initial_world [] [] []) in
  let i := in_new false 8 in
  (forall s, write_pkt w s = w) /\
  (forall allow_empty, read_char i w allow_empty = (RC_fail, i, w)) /\
  (forall allow_empty, read_pkt i w allow_empty = (RP_fail, i, w)) /\
  (forall expected, read_pkt_assert i w expected = (-1, i, w)).
Proof.
  exact (error_flag_sticky (in_new false 8)
           (set_error_flag (initial_world [] [] [])) eq_refl).
Defined.

(** ** Arena arithmetic *)

Lemma memwrite_length (mem : list ascii) (dst : nat) (data : list ascii) :
  (dst + List.length data <= List.length mem)%nat ->
  List.length (memwrite mem dst data) = List.length mem.
Proof.
  intros H. unfold memwrite.
  rewrite !length_app, length_firstn, length_skipn. lia.
Qed.

Lemma slice_length (mem : list ascii) (p n : nat) :
  (p + n <= List.length mem)%nat -> List.length (slice mem p n) = n.
Proof.
  intros H. unfold slice. rewrite length_firstn, length_skipn. lia.
Qed.

Lemma slice_memwrite_at (mem : list ascii) (dst : nat) (data : list ascii) :
  (dst <= List.length mem)%nat ->
  slice (memwrite mem dst data) dst (List.length data) = data.
Proof.
  intros H. unfold slice, memwrite.
  rewrite skipn_app, length_firstn.
  replace (dst - Nat.min dst (List.length mem))%nat with 0%nat by lia.
  rewrite (skipn_all2 (firstn dst mem)) by (rewrite length_firstn; lia).
  cbn [skipn app].
  rewrite firstn_app, firstn_all, Nat.sub_diag. cbn [firstn].
  now rewrite app_nil_r.
Qed.

Lemma slice_memwrite_span (mem : list ascii) (dst : nat) (data : list ascii) (p : nat) :
  (p <= dst)%nat -> (dst <= List.length mem)%nat ->
  slice (memwrite mem dst data) p (dst + List.length data - p)
  = slice mem p (dst - p) ++ data.
Proof.
  intros Hp Hd. unfold slice, memwrite.
  rewrite skipn_app, length_firstn.
  replace (p - Nat.min dst (List.length mem))%nat with 0%nat by lia.
  cbn [skipn].
  rewrite skipn_firstn_comm.
  rewrite firstn_app, length_firstn, length_skipn.
  rewrite firstn_firstn.
  replace (Nat.min (dst + List.length data - p) (dst - p)) with (dst - p)%nat by lia.
  f_equal.
  replace (dst + List.length data - p
           - Nat.min (dst - p) (List.length mem - p))%nat
    with (List.length data) by lia.
  rewrite firstn_app, firstn_all, Nat.sub_diag. cbn [firstn].
  now rewrite app_nil_r.
Qed.

Lemma same_arena_refl (i : in_struct) : same_arena i i.
Proof. now repeat split. Qed.

Lemma same_arena_trans (i j k : in_struct) :
  same_arena i j -> same_arena j k -> same_arena i k.
Proof.
  unfold same_arena. intros (A & B & C) (D & E & F). repeat split; congruence.
Qed.

(** ** [make_room] *)

Lemma make_room_full_iff (i : in_struct) :
  make_room i = Room_full <->
  ((buf_end i - buf_tail i < Nat.shiftr (buf_end i - buf_begin i) 2)%nat /\
   (buf_end i - buf_tail i = 0)%nat /\ (buf_head i - buf_begin i = 0)%nat).
Proof.
  unfold make_room.
  destruct (Nat.ltb_spec (buf_end i - buf_tail i)
                         (Nat.shiftr (buf_end i - buf_begin i) 2)) as [L|L].
  - destruct (Nat.eqb_spec (buf_end i - buf_tail i) 0) as [A|A];
      destruct (Nat.eqb_spec (buf_head i - buf_begin i) 0) as [O|O];
      cbn [andb]; split; try discriminate; try tauto; intros (_ & X & Y); lia.
  - split; [discriminate|]. intros (X & _). lia.
Qed.

(** What the block leaves behind when it does not give up: the cursors are
    in order again, the arena is the same block, nothing of the packet
    being assembled or of the unconsumed bytes is lost, and whenever the
    free space was below a quarter the unconsumed bytes now start at
    [buf_begin]. *)
Lemma make_room_ok (i i' : in_struct) :
  cursors_ok i -> buf_next i = buf_tail i ->
  make_room i = Room_ok i' ->
  cursors_ok i' /\ same_arena i i' /\ buf_next i' = buf_tail i' /\
  unconsumed i' = unconsumed i /\
  (buf_tail i' - buf_head i' = buf_tail i - buf_head i)%nat /\
  ((buf_end i - buf_tail i < Nat.shiftr (buf_end i - buf_begin i) 2)%nat ->
   buf_head i' = buf_begin i) /\
  ((buf_end i - buf_tail i >= Nat.shiftr (buf_end i - buf_begin i) 2)%nat ->
   i' = i).
Proof.
  intros (Hb & Hh & Hn & Ht & He) Hnt. unfold make_room.
  destruct (Nat.ltb_spec (buf_end i - buf_tail i)
                         (Nat.shiftr (buf_end i - buf_begin i) 2)) as [L|L].
  2:{ intros E; injection E as <-. unfold cursors_ok.
      repeat split; auto; lia. }
  destruct ((buf_end i - buf_tail i =? 0)%nat && (buf_head i - buf_begin i =? 0)%nat);
    [discriminate|].
  intros E; injection E as <-.
  assert (Hlen : List.length
            (if negb (buf_head i - buf_begin i =? 0)%nat
                && negb (buf_tail i - buf_head i =? 0)%nat
             then memmove (buf i) (buf_begin i) (buf_head i) (buf_tail i - buf_head i)
             else buf i) = List.length (buf i)).
  { destruct (negb _ && negb _); [|reflexivity].
    unfold memmove. apply memwrite_length.
    rewrite slice_length by lia. lia. }
  unfold cursors_ok, same_arena, unconsumed, slice.
  cbn [buf buf_begin buf_head buf_next buf_tail buf_end].
  rewrite Hlen.
  repeat split; try lia.
  replace (buf_begin i + (buf_tail i - buf_head i) - buf_begin i)%nat
    with (buf_tail i - buf_head i)%nat by lia.
  destruct (Nat.eqb_spec (buf_head i - buf_begin i) 0) as [O|O]; cbn [negb andb].
  { replace (buf_begin i) with (buf_head i) by lia. reflexivity. }
  destruct (Nat.eqb_spec (buf_tail i - buf_head i) 0) as [U|U]; cbn [negb andb].
  { rewrite U. reflexivity. }
  unfold memmove.
  pose proof (slice_length (buf i) (buf_head i) (buf_tail i - buf_head i)
                ltac:(lia)) as Hs.
  set (d := slice (buf i) (buf_head i) (buf_tail i - buf_head i)) in *.
  rewrite <- Hs at 1.
  exact (slice_memwrite_at (buf i) (buf_begin i) d ltac:(lia)).
Qed.

Lemma slice_memwrite_below (mem : list ascii) (dst : nat) (data : list ascii) (p n : nat) :
  (p + n <= dst)%nat -> (dst <= List.length mem)%nat ->
  slice (memwrite mem dst data) p n = slice mem p n.
Proof.
  intros Hp Hd. unfold slice, memwrite.
  rewrite skipn_app, length_firstn.
  replace (p - Nat.min dst (List.length mem))%nat with 0%nat by lia.
  cbn [skipn].
  rewrite firstn_app, length_skipn, length_firstn.
  replace (n - (Nat.min dst (List.length mem) - p))%nat with 0%nat by lia.
  cbn [firstn]. rewrite app_nil_r, skipn_firstn_comm, firstn_firstn.
  now replace (Nat.min n (dst - p)) with n by lia.
Qed.

Lemma firstn_snoc (l : list ascii) (n : nat) :
  (n < List.length l)%nat -> firstn (S n) l = firstn n l ++ [nth n l NUL].
Proof.
  revert l; induction n as [|n IH]; intros [|x l] H; cbn [List.length] in H; try lia.
  - reflexivity.
  - cbn [firstn nth app]. f_equal. apply IH. lia.
Qed.

Lemma slice_snoc (mem : list ascii) (p n : nat) :
  (p + n < List.length mem)%nat ->
  slice mem p (S n) = slice mem p n ++ [load mem (p + n)].
Proof.
  intros H. unfold slice, load.
  rewrite firstn_snoc by (rewrite length_skipn; lia).
  now rewrite nth_skipn.
Qed.

(** ** The transport hands over no more than was asked for *)

Lemma receive_timeout_facts (w : world) (avail : nat) (timeout : Z)
    (err_code : Z) (got : list ascii) (w' : world) :
  idevice_connection_receive_timeout w avail timeout = (err_code, got, w') ->
  (List.length got <= avail)%nat /\ error_flag w' = error_flag w /\
  (List.length got + rx_bytes (rx w') <= rx_bytes (rx w))%nat.
Proof.
  unfold idevice_connection_receive_timeout.
  cbn [rx log error_flag].
  destruct (rx w) as [|ev rest] eqn:Erx.
  - intros E; injection E as <- <- <-. cbn. rewrite ?Erx.
    repeat split; try reflexivity; cbn; lia.
  - destruct (rv_err ev =? IDEVICE_E_SUCCESS).
    + intros E; injection E as <- <- <-.
      assert (Hsplit : (List.length (firstn avail (rv_data ev))
                        + List.length (skipn avail (rv_data ev))
                        = List.length (rv_data ev))%nat).
      { rewrite <- length_app, firstn_skipn. reflexivity. }
      repeat split.
      * apply firstn_le_length.
      * now destruct (firstn avail (rv_data ev)).
      * destruct (firstn avail (rv_data ev)); destruct (skipn avail (rv_data ev));
          cbn [rx set_rx tick log rx_bytes fold_right rv_data List.length] in *;
          rewrite ?Erx; cbn [rx_bytes fold_right]; lia.
    + intros E; injection E as <- <- <-. cbn. rewrite ?Erx.
      repeat split; try reflexivity; cbn; lia.
Qed.

(** ** [read_char] *)

Ltac split5 := split; [|split; [|split; [|split]]].

Lemma buffer_unmoved (i : in_struct) (w w' : world) :
  cursors_ok i -> (rx_bytes (rx w') <= rx_bytes (rx w))%nat ->
  cursors_ok i /\ same_arena i i /\
  (exists more, unconsumed i = unconsumed i ++ more) /\
  assembled i = assembled i ++ [] /\
  (pending i w' + 0 <= pending i w)%nat.
Proof.
  intros Hok Hrx. split5; auto using same_arena_refl.
  - exists []. now rewrite app_nil_r.
  - now rewrite app_nil_r.
  - unfold pending. lia.
Qed.

(** The polling loop keeps the cursors in order and the arena in place,
    only ever appends to the unconsumed bytes, and extends the packet
    being assembled by exactly the character it returns. *)
Lemma recv_loop_buffer (turns : nat) (start : Z) (allow_empty : bool) (avail : nat) :
  forall (i : in_struct) (w : world) r i' w',
  cursors_ok i -> buf_next i = buf_tail i ->
  (avail <= buf_end i - buf_tail i)%nat ->
  recv_loop turns start allow_empty avail i w = (r, i', w') ->
  cursors_ok i' /\ same_arena i i' /\
  (exists more, unconsumed i' = unconsumed i ++ more) /\
  assembled i' = assembled i ++ chars_read r /\
  (pending i' w' + List.length (chars_read r) <= pending i w)%nat.
Proof.
  induction turns as [|k IH]; intros i w r i' w' Hok Hnt Hav; cbn [recv_loop].
  { intros E; injection E as <- <- <-. apply buffer_unmoved; auto. }
  destruct (idevice_connection_receive_timeout w avail 500) as [[err got] w1] eqn:Er.
  destruct (receive_timeout_facts _ _ _ _ _ _ Er) as (Hg & Hf & Hb).
  destruct (negb (err =? IDEVICE_E_SUCCESS)).
  { intros E; injection E as <- <- <-. apply buffer_unmoved; auto; cbn [rx set_error_flag]; cbn [List.length] in Hb; lia. }
  destruct got as [|c got].
  - destruct allow_empty.
    { intros E; injection E as <- <- <-. apply buffer_unmoved; auto. }
    destruct (time w1 - start >? 10).
    { intros E; injection E as <- <- <-. apply buffer_unmoved; auto; cbn [rx set_error_flag]; cbn [List.length] in Hb; lia. }
    intros E. apply IH in E; auto.
    destruct E as (A & B & C & D & F). split5; auto.
    etransitivity; [exact F|]. unfold pending. cbn [rx sleep log tick]. lia.
  - intros E; injection E as <- <- <-.
    destruct Hok as (Hb0 & Hh & Hn & Ht & He).
    cbn [List.length] in Hg.
    assert (Hlen : List.length (memwrite (buf i) (buf_tail i) (c :: got))
                   = List.length (buf i)).
    { apply memwrite_length. cbn [List.length]. lia. }
    unfold cursors_ok, same_arena, unconsumed, assembled, pending.
    cbn [buf buf_begin buf_head buf_next buf_tail buf_end chars_read List.length].
    rewrite Hlen. split5.
    + lia.
    + repeat split; lia.
    + exists (c :: got).
      replace (buf_tail i + S (List.length got))%nat
        with (buf_tail i + List.length (c :: got))%nat by reflexivity.
      apply slice_memwrite_span; lia.
    + replace (S (buf_next i) - buf_head i)%nat
        with (S (buf_next i - buf_head i)) by lia.
      rewrite slice_snoc by lia.
      rewrite slice_memwrite_below by lia.
      do 2 f_equal. f_equal. lia.
    + cbn [List.length] in Hb. lia.
Qed.

Lemma read_char_buffer (i : in_struct) (w : world) (allow_empty : bool) r i' w' :
  cursors_ok i ->
  read_char i w allow_empty = (r, i', w') ->
  cursors_ok i' /\ same_arena i i' /\
  (exists more, unconsumed i' = unconsumed i ++ more) /\
  assembled i' = assembled i ++ chars_read r /\
  (pending i' w' + List.length (chars_read r) <= pending i w)%nat.
Proof.
  intros Hok. unfold read_char.
  destruct (error_flag w).
  { intros E; injection E as <- <- <-. apply buffer_unmoved; auto. }
  destruct (Nat.eqb_spec (buf_next i) (buf_tail i)) as [Hnt|Hnt].
  - destruct (make_room i) as [|i1] eqn:Em.
    { intros E; injection E as <- <- <-. apply buffer_unmoved; auto. }
    destruct (make_room_ok i i1 Hok Hnt Em) as (Hok1 & Har & Hnt1 & Hun & Hused & _ & _).
    intros E. apply recv_loop_buffer in E; auto.
    destruct E as (A & B & (more & C) & D & F).
    assert (Has : assembled i1 = assembled i).
    { unfold assembled. rewrite Hnt1, Hnt. exact Hun. }
    split5.
    + exact A.
    + eapply same_arena_trans; eassumption.
    + exists more. now rewrite C, Hun.
    + now rewrite D, Has.
    + etransitivity; [exact F|]. unfold pending. rewrite Hnt1, Hnt. lia.
  - intros E; injection E as <- <- <-.
    destruct Hok as (Hb & Hh & Hn & Ht & He).
    unfold cursors_ok, same_arena, unconsumed, assembled, pending.
    cbn [buf buf_begin buf_head buf_next buf_tail buf_end chars_read List.length].
    split5.
    + lia.
    + repeat split.
    + exists []. now rewrite app_nil_r.
    + replace (S (buf_next i) - buf_head i)%nat
        with (S (buf_next i - buf_head i)) by lia.
      rewrite slice_snoc by lia. do 2 f_equal. f_equal. lia.
    + lia.
Qed.

(** ** [read_pkt] *)

Lemma scan_hash_buffer (turns : nat) :
  forall (i : in_struct) (w : world) found i' w',
  cursors_ok i ->
  scan_hash turns i w = (found, i', w') ->
  cursors_ok i' /\ same_arena i i' /\
  (exists txt, assembled i' = assembled i ++ txt) /\
  (pending i' w' <= pending i w)%nat.
Proof.
  induction turns as [|k IH]; intros i w found i' w' Hok; cbn [scan_hash].
  { intros E; injection E as <- <- <-.
    split; [assumption|]. split; [apply same_arena_refl|].
    split; [exists []; now rewrite app_nil_r|].
    unfold pending. cbn [rx set_error_flag]. lia. }
  destruct (read_char i w false) as [[r i1] w1] eqn:Er.
  destruct (read_char_buffer _ _ _ _ _ _ Hok Er) as (A & B & _ & D & F).
  assert (Hstop : forall b, (b, i1, w1) = (found, i', w') ->
            cursors_ok i' /\ same_arena i i' /\
            (exists txt, assembled i' = assembled i ++ txt) /\
            (pending i' w' <= pending i w)%nat).
  { intros b E; injection E as <- <- <-.
    split; [assumption|]. split; [assumption|].
    split; [now exists (chars_read r)|]. lia. }
  destruct r as [| |ch]; try now apply Hstop.
  destruct (Ascii.eqb ch "#"); [now apply Hstop|].
  intros E. apply IH in E; auto.
  destruct E as (A' & B' & (txt & D') & F').
  split; [assumption|]. split; [eapply same_arena_trans; eassumption|].
  split; [|lia].
  exists (chars_read (RC_char ch) ++ txt). now rewrite D', D, app_assoc.
Qed.

Lemma finish_pkt_buffer (ok : bool) (i : in_struct) (w : world) r i' w' :
  cursors_ok i ->
  finish_pkt ok i w = (r, i', w') ->
  cursors_ok i' /\ same_arena i i' /\
  buf i' = buf i /\ buf_head i' = buf_next i /\ buf_next i' = buf_next i /\
  r = (if ok then RP_ok (buf_head i) (buf_next i - buf_head i)
       else RP_invalid (buf_head i) (buf_next i - buf_head i)).
Proof.
  intros (Hb & Hh & Hn & Ht & He). unfold finish_pkt.
  intros E; injection E as <- <- <-.
  unfold cursors_ok, same_arena. cbn. repeat split; lia.
Qed.

Lemma read_pkt_buffer (i : in_struct) (w : world) (allow_empty : bool) r i' w' :
  cursors_ok i ->
  read_pkt i w allow_empty = (r, i', w') ->
  cursors_ok i' /\ same_arena i i' /\ pkt_in_buffer r i'.
Proof.
  intros Hok. unfold read_pkt.
  assert (Hfin : forall ok i1 w1, cursors_ok i1 -> same_arena i i1 ->
            finish_pkt ok i1 w1 = (r, i', w') ->
            cursors_ok i' /\ same_arena i i' /\ pkt_in_buffer r i').
  { intros ok i1 w1 H1 S1 E.
    pose proof H1 as (Hb & Hh & Hn & Ht & He).
    destruct (finish_pkt_buffer _ _ _ _ _ _ H1 E) as (A & B & C & D & F & G).
    split; [assumption|]. split; [eapply same_arena_trans; eassumption|].
    destruct B as (B1 & _).
    subst r. destruct ok; cbn [pkt_in_buffer]; rewrite ?D, ?F, ?B1; repeat split; lia. }
  assert (Hfail : forall i1 w1, cursors_ok i1 -> same_arena i i1 ->
            (RP_fail, i1, w1) = (r, i', w') ->
            cursors_ok i' /\ same_arena i i' /\ pkt_in_buffer r i').
  { intros i1 w1 H1 S1 E; injection E as <- <- <-. cbn. auto. }
  destruct (error_flag w).
  { apply Hfail; auto using same_arena_refl. }
  destruct (read_char i w allow_empty) as [[r1 i1] w1] eqn:E1.
  destruct (read_char_buffer _ _ _ _ _ _ Hok E1) as (A1 & B1 & _).
  destruct r1 as [| |ch]; [now apply Hfail|now apply Hfin|].
  destruct (Ascii.eqb ch "+"); [now apply Hfin|].
  destruct (Ascii.eqb ch "$"); [|now apply Hfin].
  destruct (scan_hash (S (pending i1 w1)) i1 w1) as [[found i2] w2] eqn:E2.
  destruct (scan_hash_buffer _ _ _ _ _ _ A1 E2) as (A2 & B2 & _).
  pose proof (same_arena_trans _ _ _ B1 B2) as S2.
  destruct found; [|now apply Hfail].
  destruct (read_char i2 w2 false) as [[r3 i3] w3] eqn:E3.
  destruct (read_char_buffer _ _ _ _ _ _ A2 E3) as (A3 & B3 & _).
  pose proof (same_arena_trans _ _ _ S2 B3) as S3.
  destruct r3 as [| |ch3]; try now apply Hfail.
  destruct (hex2int ch3 >=? 0); [|now apply Hfin].
  destruct (read_char i3 w3 false) as [[r4 i4] w4] eqn:E4.
  destruct (read_char_buffer _ _ _ _ _ _ A3 E4) as (A4 & B4 & _).
  pose proof (same_arena_trans _ _ _ S3 B4) as S4.
  destruct r4 as [| |ch4]; try now apply Hfail.
  now apply Hfin.
Qed.

Lemma read_pkt_assert_buffer (i : in_struct) (w : world) expected ret i' w' :
  cursors_ok i ->
  read_pkt_assert i w expected = (ret, i', w') ->
  cursors_ok i' /\ same_arena i i'.
Proof.
  intros Hok. unfold read_pkt_assert.
  destruct (read_pkt i w false) as [[r i1] w1] eqn:E1.
  destruct (read_pkt_buffer _ _ _ _ _ _ Hok E1) as (A & B & _).
  destruct r as [|s n|s n]; try (intros E; injection E as <- <- <-; now split).
  destruct expected as [e|]; [destruct (strncmp _ e n =? 0)|];
    intros E; injection E as <- <- <-; now split.
Qed.

Lemma in_new_cursors_ok (debug_flag : bool) (buf_len : nat) :
  cursors_ok (in_new debug_flag buf_len).
Proof.
  unfold cursors_ok, in_new. cbn. rewrite repeat_length. lia.
Qed.

(** ** The loop bounds are never what stops a loop *)

Lemma receive_timeout_clock (w : world) (avail : nat) (err_code : Z)
    (got : list ascii) (w' : world) :
  idevice_connection_receive_timeout w avail 500 = (err_code, got, w') ->
  clock w <= clock w'.
Proof.
  unfold idevice_connection_receive_timeout. cbn [rx log].
  destruct (rx w) as [|ev rest].
  - intros E; injection E as <- <- <-. cbn. lia.
  - destruct (rv_err ev =? IDEVICE_E_SUCCESS).
    + intros E; injection E as <- <- <-.
      destruct (firstn avail (rv_data ev)); cbn; lia.
    + intros E; injection E as <- <- <-. cbn. lia.
Qed.

(** A turn that goes round again has slept a second, so the deadline is one
    second nearer: more turns than seconds left change nothing. *)
Lemma recv_loop_turns (start : Z) (allow_empty : bool) (avail : nat) (i : in_struct) :
  forall (t1 t2 : nat) (w : world),
  0 <= start + 11 - time w < Z.of_nat t1 ->
  start + 11 - time w < Z.of_nat t2 ->
  recv_loop t1 start allow_empty avail i w = recv_loop t2 start allow_empty avail i w.
Proof.
  induction t1 as [|k1 IH]; intros [|k2] w H1 H2; try lia.
  cbn [recv_loop].
  destruct (idevice_connection_receive_timeout w avail 500) as [[err got] w1] eqn:Er.
  pose proof (receive_timeout_clock _ _ _ _ _ Er) as Hc.
  assert (Hm : time w <= time w1) by (apply Z.div_le_mono; lia).
  destruct (negb (err =? IDEVICE_E_SUCCESS)); [reflexivity|].
  destruct got; [|reflexivity].
  destruct allow_empty; [reflexivity|].
  destruct (Z.gtb_spec (time w1 - start) 10); [reflexivity|].
  assert (Hs : time (sleep 1 w1) = time w1 + 1).
  { unfold time, sleep. cbn [clock log tick].
    replace (clock w1 + 1000 * 1) with (clock w1 + 1 * 1000) by lia.
    apply Z.div_add. lia. }
  apply IH; rewrite Hs; lia.
Qed.

(** [read_char] polls as the unbounded loop of the source would: any number
    of turns from [recv_turns] up gives the same result. *)
Lemma read_char_turns_enough (turns : nat) (allow_empty : bool) (avail : nat)
    (i : in_struct) (w : world) :
  (recv_turns <= turns)%nat ->
  recv_loop turns (time w) allow_empty avail i w
  = recv_loop recv_turns (time w) allow_empty avail i w.
Proof.
  intros H. apply recv_loop_turns; unfold recv_turns in *; lia.
Qed.

(** Every turn of the scan that goes round again has consumed a pending
    byte: more turns than pending bytes change nothing. *)
Lemma scan_hash_turns :
  forall (t1 t2 : nat) (i : in_struct) (w : world),
  cursors_ok i ->
  (pending i w < t1)%nat -> (pending i w < t2)%nat ->
  scan_hash t1 i w = scan_hash t2 i w.
Proof.
  induction t1 as [|k1 IH]; intros [|k2] i w Hok H1 H2; try lia.
  cbn [scan_hash].
  destruct (read_char i w false) as [[r i1] w1] eqn:Er.
  destruct (read_char_buffer _ _ _ _ _ _ Hok Er) as (A & _ & _ & _ & F).
  destruct r as [| |ch]; try reflexivity.
  destruct (Ascii.eqb ch "#"); [reflexivity|].
  cbn [chars_read List.length] in F. apply IH; auto; lia.
Qed.

(** ** The cursor invariant (C5) *)

Lemma shiftr_2_quarter (n : nat) : Nat.shiftr n 2 = (n / 4)%nat.
Proof. rewrite Nat.shiftr_div_pow2. reflexivity. Qed.

(** C5.  Every read operation keeps [begin <= head <= next <= tail <= end]
    inside one arena whose bounds and size never change, and only appends
    to the unconsumed bytes.  A read that must refill with less than a
    quarter of the capacity free first moves the unconsumed bytes, intact,
    to [buf_begin]; with the arena full from [buf_begin] on there is
    nothing to move, and the read sets the error flag and fails. *)
Theorem receive_buffer_invariant (i : in_struct) (w : world) :
  cursors_ok i ->
  (forall allow_empty r i' w',
      read_char i w allow_empty = (r, i', w') ->
      cursors_ok i' /\ same_arena i i' /\
      exists more, unconsumed i' = unconsumed i ++ more) /\
  (forall allow_empty r i' w',
      read_pkt i w allow_empty = (r, i', w') ->
      cursors_ok i' /\ same_arena i i') /\
  (forall expected ret i' w',
      read_pkt_assert i w expected = (ret, i', w') ->
      cursors_ok i' /\ same_arena i i') /\
  (error_flag w = false -> buf_next i = buf_tail i ->
   (buf_end i - buf_tail i < (buf_end i - buf_begin i) / 4)%nat ->
   ~ (buf_tail i = buf_end i /\ buf_head i = buf_begin i) ->
   exists i1,
     make_room i = Room_ok i1 /\ same_arena i i1 /\
     buf_head i1 = buf_begin i /\ buf_next i1 = buf_tail i1 /\
     unconsumed i1 = unconsumed i /\
     forall allow_empty,
       read_char i w allow_empty
       = recv_loop recv_turns (time w) allow_empty
                   (buf_end i1 - buf_tail i1) i1 w) /\
  (error_flag w = false -> buf_next i = buf_tail i ->
   buf_tail i = buf_end i -> buf_head i = buf_begin i ->
   (4 <= buf_end i - buf_begin i)%nat ->
   forall allow_empty,
     read_char i w allow_empty = (RC_fail, i, set_error_flag w)).
Proof.
  intros Hok. split5.
  - intros a r i' w' E.
    destruct (read_char_buffer _ _ _ _ _ _ Hok E) as (A & B & C & _). auto.
  - intros a r i' w' E.
    destruct (read_pkt_buffer _ _ _ _ _ _ Hok E) as (A & B & _). auto.
  - intros e r i' w' E. eapply read_pkt_assert_buffer; eassumption.
  - intros Hf Hnt Hq Hnf.
    destruct (make_room i) as [|i1] eqn:Em.
    { apply make_room_full_iff in Em. destruct Em as (_ & X & Y).
      destruct Hok as (Hb & Hh & Hn & Ht & He). exfalso. apply Hnf. lia. }
    destruct (make_room_ok i i1 Hok Hnt Em) as (_ & Har & Hnt1 & Hun & _ & Hmv & _).
    exists i1. split; [reflexivity|]. split; [assumption|].
    split; [apply Hmv; now rewrite shiftr_2_quarter|].
    split; [assumption|]. split; [assumption|].
    intros a. unfold read_char. rewrite Hf, Em.
    now destruct (Nat.eqb_spec (buf_next i) (buf_tail i)).
  - intros Hf Hnt Hte Hhb Hcap a.
    assert (Em : make_room i = Room_full).
    { apply make_room_full_iff. rewrite shiftr_2_quarter, Hte, Hhb.
      rewrite !Nat.sub_diag. repeat split.
      apply Nat.div_str_pos. lia. }
    unfold read_char. rewrite Hf, Em.
    now destruct (Nat.eqb_spec (buf_next i) (buf_tail i)).
Qed.

(** ** Acknowledgement bytes (C2) *)

Lemma load_in_range (mem : list ascii) (p : nat) :
  load mem p <> NUL -> (p < List.length mem)%nat.
Proof.
  intros H. destruct (Nat.lt_ge_cases p (List.length mem)) as [L|L]; [exact L|].
  exfalso. apply H. unfold load. now apply nth_overflow.
Qed.

Lemma slice_one (mem : list ascii) (p : nat) :
  (p < List.length mem)%nat -> slice mem p 1 = [load mem p].
Proof.
  intros H. rewrite (slice_snoc mem p 0) by lia.
  unfold slice at 1. cbn [firstn app]. now rewrite Nat.add_0_r.
Qed.

Lemma load_memwrite_at (mem : list ascii) (dst : nat) (c : ascii) (g : list ascii) :
  (dst <= List.length mem)%nat -> load (memwrite mem dst (c :: g)) dst = c.
Proof.
  intros H. unfold load, memwrite.
  rewrite app_nth2 by (rewrite length_firstn; lia).
  rewrite length_firstn.
  now replace (dst - Nat.min dst (List.length mem))%nat with 0%nat by lia.
Qed.

(** A drained buffer of at least four bytes has room for a byte once
    [make_room] has run. *)
Lemma make_room_leaves_room (i i1 : in_struct) :
  cursors_ok i -> buf_head i = buf_next i -> buf_next i = buf_tail i ->
  (4 <= buf_end i - buf_begin i)%nat ->
  make_room i = Room_ok i1 ->
  cursors_ok i1 /\ buf_head i1 = buf_next i1 /\ buf_next i1 = buf_tail i1 /\
  (1 <= buf_end i1 - buf_tail i1)%nat.
Proof.
  intros Hok Hhn Hnt Hcap Em.
  destruct (make_room_ok i i1 Hok Hnt Em)
    as (Hok1 & (Hb1 & He1 & _) & Hnt1 & _ & Hused & Hmv & Hst).
  pose proof Hok1 as (Hb & Hh & Hn & Ht & He).
  assert (Hq : (1 <= Nat.shiftr (buf_end i - buf_begin i) 2)%nat).
  { rewrite shiftr_2_quarter. apply Nat.div_le_lower_bound; lia. }
  split; [assumption|]. split; [lia|]. split; [assumption|].
  destruct (Nat.lt_ge_cases (buf_end i - buf_tail i)
                            (Nat.shiftr (buf_end i - buf_begin i) 2)) as [L|L].
  - specialize (Hmv L). lia.
  - specialize (Hst L). subst i1. lia.
Qed.

(** The first byte of a chunk that arrives while the buffer is drained is
    the character [read_char] returns; the flag stays clear and the packet
    being assembled is that one byte. *)
Lemma read_char_from_transport (i : in_struct) (w : world) (allow_empty : bool)
    (c : ascii) (more : list ascii) (rest : list recv_event) :
  cursors_ok i -> buf_head i = buf_next i -> buf_next i = buf_tail i ->
  (4 <= buf_end i - buf_begin i)%nat ->
  error_flag w = false ->
  rx w = {| rv_err := IDEVICE_E_SUCCESS; rv_data := c :: more |} :: rest ->
  exists i' w',
    read_char i w allow_empty = (RC_char c, i', w') /\
    error_flag w' = false /\ cursors_ok i' /\
    buf_next i' = S (buf_head i') /\ load (buf i') (buf_head i') = c.
Proof.
  intros Hok Hhn Hnt Hcap Hf Hrx.
  destruct (make_room i) as [|i1] eqn:Em.
  { exfalso. apply make_room_full_iff in Em. destruct Em as (L & A & O).
    destruct Hok as (Hb & Hh & Hn & Ht & He). lia. }
  destruct (make_room_leaves_room i i1 Hok Hhn Hnt Hcap Em)
    as (Hok1 & Hhn1 & Hnt1 & Hroom).
  destruct (read_char i w allow_empty) as [[r i'] w'] eqn:Erc.
  destruct (read_char_buffer _ _ _ _ _ _ Hok Erc) as (Hok' & _).
  revert Erc. unfold read_char. rewrite Hf, Hnt, Nat.eqb_refl, Em.
  unfold recv_turns. cbn [recv_loop].
  unfold idevice_connection_receive_timeout. cbn [rx log]. rewrite Hrx.
  cbn [rv_err rv_data]. change (IDEVICE_E_SUCCESS =? IDEVICE_E_SUCCESS) with true.
  cbn [negb].
  destruct (buf_end i1 - buf_tail i1)%nat as [|a] eqn:Ea; [lia|].
  cbn [firstn].
  intros E; injection E as <- <- <-.
  exists (mkIn (in_debug_flag i1)
               (memwrite (buf i1) (buf_tail i1) (c :: firstn a more))
               (buf_begin i1) (buf_head i1) (S (buf_next i1))
               (buf_tail i1 + List.length (c :: firstn a more))%nat (buf_end i1)).
  eexists. split; [|split; [|split; [exact Hok'|split]]].
  - cbn [buf buf_next buf_head buf_begin buf_tail buf_end in_debug_flag].
    rewrite Hnt1. rewrite load_memwrite_at; [reflexivity|].
    destruct Hok1 as (_ & _ & _ & Ht & He). lia.
  - cbn. exact Hf.
  - cbn [buf_next buf_head]. now rewrite Hhn1.
  - cbn [buf buf_head]. rewrite Hhn1, Hnt1. apply load_memwrite_at.
    destruct Hok1 as (_ & _ & _ & Ht & He). lia.
Qed.

(** C2.  With the error flag clear and the reader at a packet boundary, a
    next unread byte [+] (already in the buffer, or the first byte of the
    chunk the connection delivers next) is a complete one-byte packet:
    [read_pkt] returns it, steps over it and leaves the flag clear.  A
    next unread byte [-] is not accepted: [read_pkt] steps over it, sets
    the error flag and fails. *)
Theorem read_pkt_ack_byte (i : in_struct) (w : world) (allow_empty : bool) :
  error_flag w = false -> buf_head i = buf_next i ->
  ((buf_next i < buf_tail i)%nat ->
   let i' := mkIn (in_debug_flag i) (buf i) (buf_begin i) (S (buf_next i))
                  (S (buf_next i)) (buf_tail i) (buf_end i) in
   (load (buf i) (buf_next i) = "+"%char ->
    read_pkt i w allow_empty = (RP_ok (buf_next i) 1, i', w) /\
    packet_of (RP_ok (buf_next i) 1) i' = ["+"%char]) /\
   (load (buf i) (buf_next i) = "-"%char ->
    read_pkt i w allow_empty = (RP_invalid (buf_next i) 1, i', set_error_flag w) /\
    error_flag (set_error_flag w) = true)) /\
  (cursors_ok i -> buf_next i = buf_tail i ->
   (4 <= buf_end i - buf_begin i)%nat ->
   forall more rest,
   (rx w = {| rv_err := IDEVICE_E_SUCCESS; rv_data := "+"%char :: more |} :: rest ->
    exists s i' w',
      read_pkt i w allow_empty = (RP_ok s 1, i', w') /\
      packet_of (RP_ok s 1) i' = ["+"%char] /\ error_flag w' = false) /\
   (rx w = {| rv_err := IDEVICE_E_SUCCESS; rv_data := "-"%char :: more |} :: rest ->
    exists s i' w',
      read_pkt i w allow_empty = (RP_invalid s 1, i', w') /\
      error_flag w' = true)).
Proof.
  intros Hf Hhn. split.
  - intros Hlt i'.
    assert (Hne : (buf_next i =? buf_tail i)%nat = false) by (apply Nat.eqb_neq; lia).
    split; intros Hc.
    + split.
      * unfold read_pkt, read_char. rewrite Hf, Hne, Hc. cbn [Ascii.eqb Bool.eqb].
        unfold finish_pkt.
        cbn [buf_head buf_next buf buf_begin buf_tail buf_end in_debug_flag].
        rewrite Hhn. replace (S (buf_next i) - buf_next i)%nat with 1%nat by lia.
        reflexivity.
      * cbn [packet_of]. subst i'. cbn [buf].
        rewrite slice_one, Hc; [reflexivity|].
        apply load_in_range. rewrite Hc. discriminate.
    + split; [|reflexivity].
      unfold read_pkt, read_char. rewrite Hf, Hne, Hc. cbn [Ascii.eqb Bool.eqb].
      unfold finish_pkt.
      cbn [buf_head buf_next buf buf_begin buf_tail buf_end in_debug_flag].
      rewrite Hhn. replace (S (buf_next i) - buf_next i)%nat with 1%nat by lia.
      reflexivity.
  - intros Hok Hnt Hcap more rest. split; intros Hrx.
    + destruct (read_char_from_transport i w allow_empty _ more rest
                  Hok Hhn Hnt Hcap Hf Hrx) as (i1 & w1 & Erc & Hf1 & Hok1 & Hn1 & Hl1).
      exists (buf_head i1). eexists. exists w1.
      unfold read_pkt. rewrite Hf, Erc. cbn [Ascii.eqb Bool.eqb].
      unfold finish_pkt. rewrite Hn1.
      replace (S (buf_head i1) - buf_head i1)%nat with 1%nat by lia.
      split; [reflexivity|]. split; [|exact Hf1].
      cbn [packet_of buf]. rewrite slice_one, Hl1; [reflexivity|].
      apply load_in_range. rewrite Hl1. discriminate.
    + destruct (read_char_from_transport i w allow_empty _ more rest
                  Hok Hhn Hnt Hcap Hf Hrx) as (i1 & w1 & Erc & Hf1 & Hok1 & Hn1 & Hl1).
      exists (buf_head i1). eexists. eexists.
      unfold read_pkt. rewrite Hf, Erc. cbn [Ascii.eqb Bool.eqb].
      unfold finish_pkt. rewrite Hn1.
      replace (S (buf_head i1) - buf_head i1)%nat with 1%nat by lia.
      split; reflexivity.
Qed.

(** ** [read_pkt_assert] (C3) *)

Lemma byte_val_inj (c1 c2 : ascii) : byte_val c1 = byte_val c2 -> c1 = c2.
Proof.
  unfold byte_val. intros H. apply N2Z.inj in H.
  rewrite <- (ascii_N_embedding c1), <- (ascii_N_embedding c2). now rewrite H.
Qed.

(** [strncmp] over the packet's own length finds no difference exactly
    when the packet is a prefix of [expected] or starts with [expected]
    and a NUL. *)
Lemma strncmp_zero_iff (pkt : list ascii) :
  forall (rest expected : list ascii),
  ~ In NUL expected ->
  strncmp (pkt ++ rest) expected (List.length pkt) = 0
  <-> matches_within_packet pkt expected.
Proof.
  unfold matches_within_packet.
  induction pkt as [|c p IH]; intros rest e Hnul.
  - cbn. destruct e; cbn; tauto.
  - cbn [List.length app strncmp hd tl].
    destruct e as [|x e]; cbn [hd tl List.length app firstn]; rewrite ?firstn_nil.
    + destruct (Ascii.eqb_spec c NUL) as [->|Hc]; cbn [negb].
      * split; [reflexivity|reflexivity].
      * split.
        -- intros H. exfalso. apply Hc, byte_val_inj. cbn in *. lia.
        -- intros H. exfalso. apply Hc. now injection H.
    + assert (Hx : x <> NUL) by (intros ->; apply Hnul; now left).
      assert (Hn' : ~ In NUL e) by (intros H; apply Hnul; now right).
      destruct (Ascii.eqb_spec c x) as [->|Hcx]; cbn [negb].
      * destruct (Ascii.eqb_spec x NUL) as [|_]; [contradiction|].
        rewrite (IH rest e Hn'). split.
        -- intros H. f_equal. exact H.
        -- intros H. now injection H.
      * split.
        -- intros H. exfalso. apply Hcx, byte_val_inj. lia.
        -- intros H. exfalso. apply Hcx. now injection H.
Qed.

Lemma skipn_slice (mem : list ascii) (s n : nat) :
  skipn s mem = slice mem s n ++ skipn (s + n) mem.
Proof.
  unfold slice. rewrite <- (firstn_skipn n (skipn s mem)) at 1.
  now rewrite skipn_skipn, Nat.add_comm.
Qed.

(** C3.  On a packet that [read_pkt] returned, [read_pkt_assert] succeeds
    exactly when [strncmp] over the packet's length finds no difference
    (the packet is a prefix of [expected], or [expected] followed by a NUL
    starts the packet; what [expected] holds beyond the packet's length
    is not compared); otherwise, and for a null [expected], it sets the
    error flag and fails. *)
Theorem read_pkt_assert_compares_packet_length (i : in_struct) (w : world)
    (expected : list ascii) (s n : nat) (i' : in_struct) (w' : world) :
  cursors_ok i -> ~ In NUL expected ->
  read_pkt i w false = (RP_ok s n, i', w') ->
  let pkt := packet_of (RP_ok s n) i' in
  (matches_within_packet pkt expected ->
   read_pkt_assert i w (Some expected) = (0, i', w')) /\
  (~ matches_within_packet pkt expected ->
   read_pkt_assert i w (Some expected) = (-1, i', set_error_flag w')) /\
  read_pkt_assert i w None = (-1, i', set_error_flag w') /\
  error_flag (set_error_flag w') = true.
Proof.
  intros Hok Hnul E pkt.
  destruct (read_pkt_buffer _ _ _ _ _ _ Hok E) as (Hok' & _ & (Hs & Hsn & _)).
  destruct Hok' as (_ & _ & Hn & Ht & He).
  assert (Hlen : List.length pkt = n).
  { subst pkt. cbn [packet_of]. apply slice_length. lia. }
  assert (Hcmp : strncmp (skipn s (buf i')) expected n = 0
                 <-> matches_within_packet pkt expected).
  { rewrite (skipn_slice (buf i') s n).
    change (slice (buf i') s n) with pkt. rewrite <- Hlen at 2.
    apply strncmp_zero_iff. exact Hnul. }
  unfold read_pkt_assert. rewrite E.
  split; [|split; [|split; reflexivity]].
  - intros H. apply Hcmp in H. rewrite H. reflexivity.
  - intros H. destruct (Z.eqb_spec (strncmp (skipn s (buf i')) expected n) 0) as [Z0|Z0].
    + exfalso. apply H, Hcmp, Z0.
    + reflexivity.
Qed.

(** Whenever a read fails it leaves the error flag set. *)
Lemma recv_loop_fail_sets_flag (turns : nat) (start : Z) (allow_empty : bool)
    (avail : nat) (i : in_struct) :
  forall (w : world) i' w',
  recv_loop turns start allow_empty avail i w = (RC_fail, i', w') ->
  error_flag w' = true.
Proof.
  induction turns as [|k IH]; intros w i' w'; cbn [recv_loop].
  { intros E; injection E as <- <-. reflexivity. }
  destruct (idevice_connection_receive_timeout w avail 500) as [[err got] w1].
  destruct (negb (err =? IDEVICE_E_SUCCESS)).
  { intros E; injection E as <- <-. reflexivity. }
  destruct got; [|discriminate].
  destruct allow_empty; [discriminate|].
  destruct (time w1 - start >? 10).
  { intros E; injection E as <- <-. reflexivity. }
  apply IH.
Qed.

Lemma read_char_fail_sets_flag (i : in_struct) (w : world) (allow_empty : bool) i' w' :
  read_char i w allow_empty = (RC_fail, i', w') -> error_flag w' = true.
Proof.
  unfold read_char. destruct (error_flag w) eqn:Hf.
  { intros E; injection E as <- <-. exact Hf. }
  destruct (buf_next i =? buf_tail i)%nat; [|discriminate].
  destruct (make_room i) as [|i1].
  { intros E; injection E as <- <-. reflexivity. }
  apply recv_loop_fail_sets_flag.
Qed.

(** ** Decoding in place *)

Lemma store_length (mem : list ascii) (t : nat) (c : ascii) :
  List.length (store mem t c) = List.length mem.
Proof.
  revert t; induction mem as [|x m IH]; intros [|t]; cbn [store List.length];
    auto.
Qed.

Lemma skipn_store_above (mem : list ascii) (t p : nat) (c : ascii) :
  (t < p)%nat -> skipn p (store mem t c) = skipn p mem.
Proof.
  revert t p; induction mem as [|x m IH]; intros t p H.
  - destruct t; reflexivity.
  - destruct p as [|p]; [lia|]. destruct t as [|t]; cbn [store skipn].
    + reflexivity.
    + apply IH. lia.
Qed.

Lemma skipn_store_at (mem : list ascii) (t : nat) (c : ascii) :
  (t < List.length mem)%nat ->
  skipn t (store mem t c) = c :: skipn (S t) mem.
Proof.
  revert t; induction mem as [|x m IH]; intros t H; cbn [List.length] in H.
  - lia.
  - destruct t as [|t]; cbn [store skipn]; [reflexivity|].
    rewrite IH by lia. reflexivity.
Qed.

Lemma skipn_two (mem : list ascii) (f : nat) :
  (f + 2 <= List.length mem)%nat ->
  skipn f mem = load mem f :: load mem (S f) :: skipn (S (S f)) mem.
Proof.
  revert f; induction mem as [|x m IH]; intros f H; cbn [List.length] in H.
  - lia.
  - destruct f as [|f].
    + destruct m as [|y m]; cbn [List.length] in H; [lia|]. reflexivity.
    + cbn [skipn]. rewrite IH by lia. reflexivity.
Qed.

Lemma skipn_cons_load (mem : list ascii) (t : nat) :
  (t < List.length mem)%nat -> skipn t mem = load mem t :: skipn (S t) mem.
Proof.
  revert t; induction mem as [|x m IH]; intros t H; cbn [List.length] in H.
  - lia.
  - destruct t as [|t]; [reflexivity|]. cbn [skipn]. rewrite IH by lia. reflexivity.
Qed.

Lemma nth_firstn_same (mem : list ascii) (p : nat) :
  nth p (firstn (S p) mem) NUL = nth p mem NUL.
Proof.
  rewrite nth_firstn. now destruct (Nat.ltb_spec p (S p)); [|lia].
Qed.

Lemma load_store_same (mem : list ascii) (t : nat) (c : ascii) :
  (t < List.length mem)%nat -> nth t (store mem t c) NUL = c.
Proof.
  revert t; induction mem as [|x m IH]; intros t H; cbn [List.length] in H.
  - lia.
  - destruct t as [|t]; cbn [store nth]; [reflexivity|]. apply IH. lia.
Qed.

(** Below its destination [fromhex_at] changes nothing, and it never
    changes the size of the arena. *)
Lemma fromhex_at_below (turns : nat) :
  forall (mem : list ascii) (t f p : nat),
  (p <= t)%nat ->
  firstn p (fromhex_at mem t f turns) = firstn p mem /\
  List.length (fromhex_at mem t f turns) = List.length mem.
Proof.
  assert (Hst : forall mem t c p, (p <= t)%nat ->
            firstn p (store mem t c) = firstn p mem).
  { induction mem as [|x m IH]; intros t c p H.
    - destruct t; reflexivity.
    - destruct t as [|t].
      + replace p with 0%nat by lia. reflexivity.
      + destruct p as [|p]; [reflexivity|]. cbn [store firstn].
        rewrite IH by lia. reflexivity. }
  induction turns as [|k IH]; intros mem t f p H; cbn [fromhex_at].
  - split; [now apply Hst|apply store_length].
  - destruct (IH (store mem t (hex_pair (load mem f) (load mem (S f))))
                 (S t) (S (S f)) p ltac:(lia)) as (A & B).
    rewrite A, B. split; [now apply Hst|apply store_length].
Qed.

(** Decoding in place, with the destination behind the source, stores what
    [fromhex_bytes] computes from the bytes that were there, and a NUL. *)
Lemma fromhex_at_view (turns : nat) :
  forall (mem : list ascii) (t f : nat),
  (t < f)%nat -> (f + 2 * turns <= List.length mem)%nat ->
  exists d rest,
    fromhex_bytes (skipn f mem) turns = Some d /\
    skipn t (fromhex_at mem t f turns) = d ++ NUL :: rest.
Proof.
  induction turns as [|k IH]; intros mem t f Htf Hlen; cbn [fromhex_at fromhex_bytes].
  - exists [], (skipn (S t) mem). split; [reflexivity|].
    cbn [app]. apply skipn_store_at. lia.
  - set (c := hex_pair (load mem f) (load mem (S f))).
    set (mem' := store mem t c).
    assert (Hl' : List.length mem' = List.length mem) by apply store_length.
    destruct (IH mem' (S t) (S (S f)) ltac:(lia) ltac:(lia)) as (d & rest & Hd & Hv).
    exists (c :: d), rest.
    rewrite (skipn_two mem f) by lia.
    assert (Hsk : skipn (S (S f)) mem' = skipn (S (S f)) mem)
      by (apply skipn_store_above; lia).
    rewrite Hsk in Hd. rewrite Hd. cbn [bind]. split; [reflexivity|].
    destruct (fromhex_at_below k mem' (S t) (S (S f)) (S t) ltac:(lia)) as (Hfst & Hlen').
    rewrite (skipn_cons_load (fromhex_at mem' (S t) (S (S f)) k) t) by lia.
    rewrite Hv. cbn [app]. f_equal.
    unfold load.
    rewrite <- (nth_firstn_same (fromhex_at mem' (S t) (S (S f)) k)), Hfst,
      nth_firstn_same.
    unfold mem'. apply load_store_same. lia.
Qed.

Lemma double_div2 (n : nat) :
  (2 * Nat.div2 n = n \/ 2 * Nat.div2 n + 1 = n)%nat.
Proof.
  pose proof (Nat.div2_odd n) as H. destruct (Nat.odd n); cbn [Nat.b2n] in H; lia.
Qed.

Lemma fromhex_bytes_app (turns : nat) :
  forall (a b : list ascii),
  (2 * turns <= List.length a)%nat ->
  fromhex_bytes (a ++ b) turns = fromhex_bytes a turns.
Proof.
  induction turns as [|k IH]; intros a b H; [reflexivity|].
  destruct a as [|c1 [|c2 a]]; cbn [List.length] in H; try lia.
  cbn [app fromhex_bytes]. rewrite IH by lia. reflexivity.
Qed.

Lemma fromhex_bytes_total (turns : nat) :
  forall (a : list ascii),
  (2 * turns <= List.length a)%nat ->
  exists d, fromhex_bytes a turns = Some d /\ List.length d = turns.
Proof.
  induction turns as [|k IH]; intros a H; [now exists []|].
  destruct a as [|c1 [|c2 a]]; cbn [List.length] in H; try lia.
  destruct (IH a ltac:(lia)) as (d & Hd & Hl).
  exists (hex_pair c1 c2 :: d). cbn [fromhex_bytes]. rewrite Hd.
  cbn [bind List.length]. now rewrite Hl.
Qed.

Lemma fromhex_bytes_cons (c1 c2 : ascii) (f : list ascii) (k : nat) :
  fromhex_bytes (c1 :: c2 :: f) (S k)
  = (r <- fromhex_bytes f k ;; Some (hex_pair c1 c2 :: r)).
Proof. reflexivity. Qed.

Lemma fromhex_bytes_snoc (turns : nat) :
  forall (a : list ascii) (c1 c2 : ascii) (rest d : list ascii),
  List.length a = (2 * turns)%nat ->
  fromhex_bytes a turns = Some d ->
  fromhex_bytes (a ++ c1 :: c2 :: rest) (S turns) = Some (d ++ [hex_pair c1 c2]).
Proof.
  induction turns as [|k IH]; intros a c1 c2 rest d Hl Hd.
  - destruct a; [|discriminate]. injection Hd as <-. reflexivity.
  - destruct a as [|x [|y a]]; cbn [List.length] in Hl; try lia.
    cbn [fromhex_bytes] in Hd.
    destruct (fromhex_bytes a k) as [d'|] eqn:Hd'; [|discriminate].
    cbn [bind] in Hd. injection Hd as <-.
    change ((x :: y :: a) ++ c1 :: c2 :: rest) with (x :: y :: (a ++ c1 :: c2 :: rest)).
    rewrite fromhex_bytes_cons, (IH a c1 c2 rest d') by (auto; lia).
    reflexivity.
Qed.

(** ** C strings and [atoi] *)

Lemma c_string_app_nul (d rest : list ascii) :
  c_string (d ++ NUL :: rest) = c_string d.
Proof.
  induction d as [|c d IH]; cbn [app c_string].
  - reflexivity.
  - destruct (Ascii.eqb c NUL); [reflexivity|]. now rewrite IH.
Qed.

Lemma c_string_snoc (d : list ascii) (g : ascii) :
  g <> NUL ->
  c_string (d ++ [g]) = c_string d \/ c_string (d ++ [g]) = c_string d ++ [g].
Proof.
  intros Hg. induction d as [|c d IH]; cbn [app c_string].
  - destruct (Ascii.eqb_spec g NUL); [contradiction|]. now right.
  - destruct (Ascii.eqb c NUL); [now left|].
    destruct IH as [-> | ->]; [now left|now right].
Qed.

Lemma atoi_digits_snoc (x : list ascii) (g : ascii) :
  isdigit g = false -> forall acc, atoi_digits acc (x ++ [g]) = atoi_digits acc x.
Proof.
  intros Hg. induction x as [|c x IH]; intros acc; cbn [app atoi_digits].
  - now rewrite Hg.
  - destruct (isdigit c); [apply IH|reflexivity].
Qed.

(** A character that is no digit, no white space and no sign, put after a
    string, does not change what [atoi] reads. *)
Lemma decimal_snoc (x : list ascii) (g : ascii) :
  isdigit g = false -> isspace g = false ->
  Ascii.eqb g "-" = false -> Ascii.eqb g "+" = false ->
  decimal (x ++ [g]) = decimal x.
Proof.
  intros Hd Hs Hm Hp. unfold decimal.
  induction x as [|c x IH]; cbn [app skip_spaces].
  - rewrite Hs, Hm, Hp. cbn [atoi_digits]. now rewrite Hd.
  - destruct (isspace c); [exact IH|].
    destruct (Ascii.eqb c "-"); [now rewrite atoi_digits_snoc|].
    destruct (Ascii.eqb c "+"); [now rewrite atoi_digits_snoc|].
    change (c :: x ++ [g]) with ((c :: x) ++ [g]).
    now rewrite atoi_digits_snoc.
Qed.

Lemma atoi_snoc (x : list ascii) (g : ascii) :
  isdigit g = false -> isspace g = false ->
  Ascii.eqb g "-" = false -> Ascii.eqb g "+" = false ->
  atoi (x ++ [g]) = atoi x.
Proof.
  intros Hd Hs Hm Hp. unfold atoi, strtol. now rewrite decimal_snoc.
Qed.

(** ** Exit packets (C1) *)

Ltac eval_strncmp :=
  repeat match goal with
  | |- context [strncmp ?a ?b ?c =? 0] =>
      let v := eval vm_compute in (strncmp a b c =? 0) in
      change (strncmp a b c =? 0) with v
  end.

(** One turn of the loop on an exit packet [$W<payload>#00] or
    [$X<payload>#00]: [app_quit] is set, the [n - 3] characters after the
    two leading ones are hex-decoded, [atoi] of the decoded string becomes
    the result, [$OK#00] is sent, and the loop is left. *)
Lemma exit_packet_step (i : in_struct) (w : world) (ret spin_counter : Z)
    (s n : nat) (i' : in_struct) (w' : world) (k : ascii) (payload : list ascii) :
  cursors_ok i ->
  read_pkt i w true = (RP_ok s n, i', w') ->
  packet_of (RP_ok s n) i' = "$"%char :: k :: payload ++ chars "#00" ->
  k = "W"%char \/ k = "X"%char -> payload <> [] ->
  exists d,
    fromhex (payload ++ chars "#00") (n - 3) = Some d /\
    running_step ret spin_counter i w
    = Break (atoi (c_string d))
            (set_buf i' (fromhex_inplace (buf i') s (s + 2) (n - 3)))
            (write_pkt (set_app_quit w') (chars "$OK#00")).
Proof.
  intros Hok E Hpkt Hk Hpl.
  destruct (read_pkt_buffer _ _ _ _ _ _ Hok E) as (Hok' & _ & (Hs & Hsn & _)).
  destruct Hok' as (_ & _ & Hnx & Ht & He).
  cbn [packet_of] in Hpkt.
  assert (Hn : n = (List.length payload + 5)%nat).
  { rewrite <- (slice_length (buf i') s n) by lia. rewrite Hpkt.
    cbn [List.length]. rewrite length_app. cbn. lia. }
  assert (Hp1 : (1 <= List.length payload)%nat).
  { destruct payload; [contradiction|cbn; lia]. }
  pose proof (skipn_slice (buf i') s n) as HV. rewrite Hpkt in HV.
  set (rest := skipn (s + n) (buf i')) in *.
  assert (HT : skipn (s + n - 3) (buf i') = chars "#00" ++ rest).
  { replace (s + n - 3)%nat with ((n - 3) + s)%nat by lia.
    rewrite <- skipn_skipn, HV.
    replace (("$"%char :: k :: payload ++ chars "#00") ++ rest)
      with (("$"%char :: k :: payload) ++ chars "#00" ++ rest)
      by (cbn [app]; now rewrite <- app_assoc).
    rewrite skipn_app.
    replace (n - 3)%nat with (List.length ("$"%char :: k :: payload))
      by (cbn [List.length]; lia).
    now rewrite skipn_all, Nat.sub_diag. }
  assert (HF : skipn (s + 2) (buf i') = (payload ++ chars "#00") ++ rest).
  { replace (s + 2)%nat with (2 + s)%nat by lia.
    rewrite <- skipn_skipn, HV. reflexivity. }
  set (turns := Nat.div2 (S (n - 3))).
  assert (Hturns : (2 * turns <= List.length (payload ++ chars "#00"))%nat).
  { rewrite length_app. cbn [chars list_ascii_of_string List.length].
    subst turns. destruct (double_div2 (S (n - 3))); lia. }
  rewrite length_app in Hturns. cbn [chars list_ascii_of_string List.length] in Hturns.
  destruct (fromhex_at_view turns (buf i') s (s + 2) ltac:(lia) ltac:(lia))
    as (d0 & tail & Hd0 & Hview).
  exists (d0 ++ [NUL]). split.
  { unfold fromhex. fold turns.
    rewrite HF, fromhex_bytes_app in Hd0
      by (rewrite length_app; cbn [chars list_ascii_of_string List.length]; lia).
    now rewrite Hd0. }
  unfold running_step. rewrite E.
  replace (n =? 0)%nat with false by (symmetry; apply Nat.eqb_neq; lia).
  replace (n =? 4)%nat with false by (symmetry; apply Nat.eqb_neq; lia).
  replace (5 <? n)%nat with true by (symmetry; apply Nat.ltb_lt; lia).
  replace (2 <? n)%nat with true by (symmetry; apply Nat.ltb_lt; lia).
  rewrite HV, HT.
  unfold fromhex_inplace. fold turns.
  assert (Hres : atoi (c_string (skipn s (buf (set_buf i'
                    (fromhex_at (buf i') s (s + 2) turns)))))
                 = atoi (c_string (d0 ++ [NUL]))).
  { cbn [buf set_buf]. now rewrite Hview, !c_string_app_nul. }
  destruct Hk as [-> | ->]; eval_strncmp; cbn [andb orb]; now rewrite Hres.
Qed.

(** On a payload of even length the extra characters the decoder takes in
    ([#0], decoded to the byte 0xF0) end up behind the decoded payload and
    do not change what [atoi] reads. *)
Lemma exit_status_even_payload (payload : list ascii) (n : nat) (d : list ascii) :
  Nat.Even (List.length payload) ->
  n = (List.length payload + 5)%nat ->
  fromhex (payload ++ chars "#00") (n - 3) = Some d ->
  exists dp,
    fromhex payload (List.length payload) = Some dp /\
    atoi (c_string d) = atoi (c_string dp).
Proof.
  intros (m & Hm) -> Hd.
  destruct (fromhex_bytes_total m payload ltac:(lia)) as (dp0 & Hdp0 & _).
  exists (dp0 ++ [NUL]). split.
  { unfold fromhex. rewrite Hm, Nat.div2_succ_double, Hdp0. reflexivity. }
  unfold fromhex in Hd.
  replace (Nat.div2 (S (List.length payload + 5 - 3))) with (S m) in Hd.
  2:{ replace (S (List.length payload + 5 - 3)) with (S (S (S (2 * m)))) by lia.
      change (Nat.div2 (S (S (S (2 * m))))) with (S (Nat.div2 (S (2 * m)))).
      now rewrite Nat.div2_succ_double. }
  change (chars "#00") with ["#"%char; "0"%char; "0"%char] in Hd.
  rewrite (fromhex_bytes_snoc m payload "#" "0" ["0"%char] dp0 Hm Hdp0) in Hd.
  cbn [bind] in Hd. injection Hd as <-.
  rewrite !c_string_app_nul.
  destruct (c_string_snoc dp0 (hex_pair "#" "0") ltac:(discriminate)) as [-> | ->].
  - reflexivity.
  - now apply atoi_snoc.
Qed.

(** C1.  Against a device that accepts the launch, [$W00#00] ends [main]
    with 0, [$W01#00] ends it with 0 as well (the payload decodes to the
    byte 0x01, which is no decimal digit), and [$W31#00], whose payload is
    the hex of the digit "1", ends it with 1.  The number is an [int]:
    [$W32313437343833363438#00], the hex of "2147483648", ends [main] with
    -2147483648.  In general a turn of the loop on an exit packet with a
    payload of even length sets [app_quit], hex-decodes the payload, takes
    [atoi] of the decoded string, the decimal number it starts with as a
    32-bit [int], as the result, sends [$OK#00] and leaves the loop. *)
Theorem exit_status_decoding :
  (result_after "$W00#00" = Some 0 /\
   result_after "$W01#00" = Some 0 /\
   result_after "$W31#00" = Some 1 /\
   result_after "$W32313437343833363438#00" = Some (-2147483648)) /\
  (forall (i : in_struct) (w : world) (ret spin_counter : Z) (s n : nat)
          (i' : in_struct) (w' : world) (k : ascii) (payload : list ascii),
      cursors_ok i ->
      read_pkt i w true = (RP_ok s n, i', w') ->
      packet_of (RP_ok s n) i' = "$"%char :: k :: payload ++ chars "#00" ->
      k = "W"%char \/ k = "X"%char ->
      payload <> [] -> Nat.Even (List.length payload) ->
      exists dp i'',
        fromhex payload (List.length payload) = Some dp /\
        running_step ret spin_counter i w
        = Break (atoi (c_string dp)) i''
                (write_pkt (set_app_quit w') (chars "$OK#00"))).
Proof.
  split.
  - repeat split; vm_compute; reflexivity.
  - intros i w ret spin s n i' w' k payload Hok E Hpkt Hk Hne Hev.
    destruct (exit_packet_step i w ret spin s n i' w' k payload Hok E Hpkt Hk Hne)
      as (d & Hd & Hstep).
    assert (Hn : n = (List.length payload + 5)%nat).
    { destruct (read_pkt_buffer _ _ _ _ _ _ Hok E) as (Hok' & _ & (Hs & Hsn & _)).
      destruct Hok' as (_ & _ & Hnx & Ht & He).
      cbn [packet_of] in Hpkt.
      rewrite <- (slice_length (buf i') s n) by lia. rewrite Hpkt.
      cbn [List.length]. rewrite length_app. cbn. lia. }
    destruct (exit_status_even_payload payload n d Hev Hn Hd) as (dp & Hdp & Hat).
    exists dp. eexists. split; [exact Hdp|]. rewrite Hstep, Hat. reflexivity.
Qed.

(** The exit packet [$W01#00] does not end [main] with 1. *)
Lemma exit_packet_W01_gives_zero :
  result_after "$W01#00" = Some 0 /\ result_after "$W01#00" <> Some 1.
Proof. split; [vm_compute; reflexivity|vm_compute; discriminate]. Qed.

(** ** Idle polls (C8) *)

Lemma make_room_drained (i : in_struct) :
  cursors_ok i -> buf_head i = buf_next i -> buf_next i = buf_tail i ->
  exists i1,
    make_room i = Room_ok i1 /\ cursors_ok i1 /\
    buf_head i1 = buf_next i1 /\ buf_next i1 = buf_tail i1 /\
    make_room i1 = Room_ok i1.
Proof.
  intros Hok Hhn Hnt.
  destruct (make_room i) as [|i1] eqn:Em.
  { exfalso. apply make_room_full_iff in Em. destruct Em as (L & A & O).
    destruct Hok as (Hb & Hh & Hn & Ht & He).
    replace (buf_end i - buf_begin i)%nat with 0%nat in L by lia.
    cbn in L. lia. }
  destruct (make_room_ok i i1 Hok Hnt Em)
    as (Hok1 & (Hb1 & He1 & _) & Hnt1 & _ & Hused & Hmv & Hst).
  pose proof Hok1 as (Hb & Hh & Hn & Ht & He).
  exists i1. split; [reflexivity|]. split; [assumption|].
  split; [lia|]. split; [assumption|].
  unfold make_room.
  destruct (Nat.ltb_spec (buf_end i1 - buf_tail i1)
                         (Nat.shiftr (buf_end i1 - buf_begin i1) 2)) as [L1|L1];
    [|reflexivity].
  exfalso.
  destruct (Nat.lt_ge_cases (buf_end i - buf_tail i)
                            (Nat.shiftr (buf_end i - buf_begin i) 2)) as [L|L].
  - specialize (Hmv L).
    rewrite shiftr_2_quarter in L1.
    assert (Hq : ((buf_end i1 - buf_begin i1) / 4 <= buf_end i1 - buf_begin i1)%nat)
      by (apply Nat.Div0.div_le_upper_bound; lia).
    lia.
  - specialize (Hst L). subst i1. lia.
Qed.

Lemma settle_drained (i : in_struct) :
  cursors_ok i -> buf_head i = buf_next i -> buf_next i = buf_tail i ->
  make_room i = Room_ok (settle i) /\ cursors_ok (settle i) /\
  buf_head (settle i) = buf_next (settle i) /\
  buf_next (settle i) = buf_tail (settle i) /\
  settle (settle i) = settle i.
Proof.
  intros Hok Hhn Hnt.
  destruct (make_room_drained i Hok Hhn Hnt) as (i1 & Em & A & B & C & D).
  unfold settle. rewrite Em, D. auto.
Qed.

Lemma wrap_int_small (z : Z) : - 2 ^ 31 <= z < 2 ^ 31 -> wrap_int z = z.
Proof. intros H. unfold wrap_int. rewrite Z.mod_small; lia. Qed.

(** A read that times out, from a drained buffer: the empty result, the
    buffer as [make_room] leaves it, one receive call in the trace. *)
Lemma idle_read (i : in_struct) (w : world) (rest : list recv_event) :
  cursors_ok i -> buf_head i = buf_next i -> buf_next i = buf_tail i ->
  error_flag w = false -> rx w = idle :: rest ->
  read_pkt i w true
  = (RP_ok (buf_head (settle i)) 0, settle i,
     after_idle 1 (buf_end (settle i) - buf_tail (settle i)) rest w).
Proof.
  intros Hok Hhn Hnt Hf Hrx.
  destruct (settle_drained i Hok Hhn Hnt) as (Em & _ & Hhn1 & Hnt1 & _).
  unfold read_pkt, read_char. rewrite Hf, Em, Hnt, Nat.eqb_refl.
  unfold recv_turns. cbn [recv_loop].
  unfold idevice_connection_receive_timeout. cbn [rx log]. rewrite Hrx.
  cbn [idle rv_err rv_data IDEVICE_E_SUCCESS Z.eqb firstn skipn negb].
  rewrite firstn_nil, skipn_nil. cbn [negb].
  unfold finish_pkt. rewrite Hhn1, Nat.sub_diag.
  assert (Hi : mkIn (in_debug_flag (settle i)) (buf (settle i))
                    (buf_begin (settle i)) (buf_next (settle i))
                    (buf_next (settle i)) (buf_tail (settle i))
                    (buf_end (settle i)) = settle i).
  { destruct (settle i); cbn in *. now subst. }
  rewrite Hi. reflexivity.
Qed.

Lemma after_idle_zero (a : nat) (w : world) : after_idle 0 a (rx w) w = w.
Proof.
  destruct w. unfold after_idle. cbn. now rewrite Z.add_0_r.
Qed.

Lemma after_idle_compose (j k a : nat) (r rest : list recv_event) (w : world) :
  after_idle k a rest (after_idle j a r w) = after_idle (j + k) a rest w.
Proof.
  unfold after_idle.
  cbn [error_flag app_quit user_quit signals clock rx tx trace].
  rewrite app_assoc, <- repeat_app, (Nat.add_comm k j), Nat2Z.inj_add.
  f_equal. lia.
Qed.

(** One turn of the main loop on a read that times out. *)
Lemma running_idle_step (i : in_struct) (w : world) (rest : list recv_event)
    (fuel : nat) (ret spin_counter : Z) :
  cursors_ok i -> buf_head i = buf_next i -> buf_next i = buf_tail i ->
  error_flag w = false -> user_quit w = false -> signals w = [] ->
  rx w = idle :: rest -> 0 <= spin_counter <= 5 ->
  let w1 := after_idle 1 (buf_end (settle i) - buf_tail (settle i)) rest w in
  running (S fuel) ret spin_counter i w
  = if spin_counter + 1 >? 5
    then running fuel ret 0 (settle i) (sleep 1 w1)
    else running fuel ret (spin_counter + 1) (settle i) w1.
Proof.
  intros Hok Hhn Hnt Hf Hq Hs Hrx Hsp w1.
  cbn [running]. unfold poll_user_quit. rewrite Hs, Hq.
  unfold running_step. rewrite (idle_read i w rest) by assumption.
  cbn [Nat.eqb]. rewrite wrap_int_small by lia.
  fold w1. now destruct (spin_counter + 1 >? 5).
Qed.

(** [k] reads in a row that time out, the counter staying within five:
    no pause, the counter [k] higher. *)
Lemma running_idle (k : nat) :
  forall (i : in_struct) (w : world) (rest : list recv_event)
         (fuel : nat) (ret spin_counter : Z),
  cursors_ok i -> buf_head i = buf_next i -> buf_next i = buf_tail i ->
  settle i = i ->
  error_flag w = false -> user_quit w = false -> signals w = [] ->
  rx w = repeat idle k ++ rest ->
  0 <= spin_counter -> spin_counter + Z.of_nat k <= 5 ->
  running (k + fuel) ret spin_counter i w
  = running fuel ret (spin_counter + Z.of_nat k) i
            (after_idle k (buf_end i - buf_tail i) rest w).
Proof.
  induction k as [|k IH]; intros i w rest fuel ret spin Hok Hhn Hnt Hst Hf Hq Hs Hrx H0 H5.
  - cbn [repeat app] in Hrx. rewrite <- Hrx, after_idle_zero.
    cbn [Nat.add Z.of_nat]. now rewrite Z.add_0_r.
  - cbn [repeat app] in Hrx.
    change (S k + fuel)%nat with (S (k + fuel)).
    rewrite (running_idle_step i w (repeat idle k ++ rest)) by (auto; lia).
    rewrite Hst.
    destruct (Z.gtb_spec (spin + 1) 5) as [G|G]; [lia|].
    rewrite (IH i _ rest fuel ret (spin + 1)); auto; try lia.
    rewrite after_idle_compose. f_equal. lia.
Qed.

Lemma settle_stable (i : in_struct) :
  cursors_ok i -> buf_head i = buf_next i -> buf_next i = buf_tail i ->
  cursors_ok (settle i) /\ buf_head (settle i) = buf_next (settle i) /\
  buf_next (settle i) = buf_tail (settle i) /\ settle (settle i) = settle i.
Proof.
  intros Hok Hhn Hnt. destruct (settle_drained i Hok Hhn Hnt) as (_ & A & B & C & D).
  auto.
Qed.

(** C8.  In the main loop, with no signal pending and the buffer drained:
    five reads in a row that time out cause no pause, the next read
    follows at once with the idle counter at five; the sixth such read
    causes the one pause of a second and puts the counter back to zero;
    and a turn that read a packet and goes on leaves the counter at
    zero. *)
Theorem idle_pause_after_six_empty_reads (i : in_struct) (w : world)
    (rest : list recv_event) (fuel : nat) (ret : Z) :
  cursors_ok i -> buf_head i = buf_next i -> buf_next i = buf_tail i ->
  error_flag w = false -> user_quit w = false -> signals w = [] ->
  let avail := (buf_end (settle i) - buf_tail (settle i))%nat in
  (rx w = repeat idle 5 ++ rest ->
   running (5 + fuel) ret 0 i w
   = running fuel ret 5 (settle i) (after_idle 5 avail rest w)) /\
  (rx w = repeat idle 6 ++ rest ->
   running (6 + fuel) ret 0 i w
   = running fuel ret 0 (settle i) (sleep 1 (after_idle 6 avail rest w))) /\
  (forall spin_counter s n i' w' spin_counter' i'' w'',
      read_pkt i w true = (RP_ok s n, i', w') -> n <> 0%nat ->
      running_step ret spin_counter i w = Continue spin_counter' i'' w'' ->
      spin_counter' = 0).
Proof.
  intros Hok Hhn Hnt Hf Hq Hs avail.
  destruct (settle_stable i Hok Hhn Hnt) as (Hok1 & Hhn1 & Hnt1 & Hst1).
  assert (Hfive : forall r fuel0, rx w = repeat idle 5 ++ r ->
            running (5 + fuel0) ret 0 i w
            = running fuel0 ret 5 (settle i) (after_idle 5 avail r w)).
  { intros r fuel0 Hrx. cbn [repeat app] in Hrx.
    change (5 + fuel0)%nat with (S (4 + fuel0)).
    rewrite (running_idle_step i w (repeat idle 4 ++ r)) by (auto; lia).
    cbn [Z.add Z.gtb Z.compare Pos.compare Pos.compare_cont Pos.add].
    rewrite (running_idle 4 (settle i) _ r fuel0 ret 1); auto; try lia.
    rewrite after_idle_compose. reflexivity. }
  split; [apply Hfive|]. split.
  - intros Hrx.
    change (6 + fuel)%nat with (5 + S fuel)%nat.
    rewrite (Hfive (idle :: rest)) by exact Hrx.
    rewrite (running_idle_step (settle i) _ rest) by (auto; lia).
    cbn [Z.add Z.gtb Z.compare Pos.compare Pos.compare_cont Pos.add Pos.succ].
    rewrite Hst1, after_idle_compose. reflexivity.
  - intros spin s n i' w' spin' i'' w'' E Hn.
    unfold running_step. rewrite E.
    destruct (Nat.eqb_spec n 0) as [|_]; [contradiction|].
    repeat match goal with
           | |- context [if ?b then _ else _] => destruct b
           end; intros X; try discriminate X; now injection X.
Qed.

(** Five reads in a row that time out, then a packet: six receive calls
    and no pause between them. *)
Lemma five_idle_reads_no_pause :
  option_map (fun r => trace (snd r))
    (running 6 1 0 (in_new false (16 * 1024))
             (initial_world [] (repeat idle 5 ++ [delivers "$T05#00"]) []))
  = Some (repeat (E_recv (16 * 1024)) 6).
Proof. vm_compute. reflexivity. Qed.

(** ** Worked instances *)

Lemma no_nul_check (s : list ascii) :
  forallb (fun c => negb (Ascii.eqb c NUL)) s = true -> ~ In NUL s.
Proof.
  induction s as [|c s IH]; cbn [forallb In]; [tauto|].
  intros H. apply andb_true_iff in H. destruct H as (Hc & Hs).
  intros [->|Hin]; [discriminate Hc|now apply IH].
Qed.

(** A [-] left unread behind an acknowledgement: the reader is at a
    packet boundary with the error flag clear, and [read_pkt] rejects the
    byte and sets the flag. *)
Lemma read_pkt_rejects_minus :
  let i := snd (fst after_plus) in
  let w := snd after_plus in
  fst (fst after_plus) = RP_ok 0 1 /\
  error_flag w = false /\ buf_head i = buf_next i /\
  load (buf i) (buf_next i) = "-"%char /\
  fst (fst (read_pkt i w false)) = RP_invalid 1 1 /\
  error_flag (snd (read_pkt i w false)) = true.
Proof. vm_compute. repeat split. Qed.

Lemma read_pkt_ack_byte_witness :
  let i := mkIn false (chars "+-") 0 0 0 2 2 in
  let j := mkIn false (chars "+-") 0 1 1 2 2 in
  let w := initial_world [] [] [] in
  (read_pkt i w false = (RP_ok 0 1, j, w) /\
   packet_of (RP_ok 0 1) j = ["+"%char]) /\
  (read_pkt j w false
   = (RP_invalid 1 1, mkIn false (chars "+-") 0 2 2 2 2, set_error_flag w) /\
   error_flag (set_error_flag w) = true) /\
  (exists s i' w',
      read_pkt fresh_in (device_sends "+") false = (RP_ok s 1, i', w') /\
      packet_of (RP_ok s 1) i' = ["+"%char] /\ error_flag w' = false) /\
  (exists s i' w',
      read_pkt fresh_in (device_sends "-") false = (RP_invalid s 1, i', w') /\
      error_flag w' = true).
Proof.
  cbv zeta. split; [|split; [|split]].
  - apply (proj1 (read_pkt_ack_byte (mkIn false (chars "+-") 0 0 0 2 2)
                    (initial_world [] [] []) false eq_refl eq_refl));
      [cbn; lia|reflexivity].
  - apply (proj1 (read_pkt_ack_byte (mkIn false (chars "+-") 0 1 1 2 2)
                    (initial_world [] [] []) false eq_refl eq_refl));
      [cbn; lia|reflexivity].
  - apply (proj2 (read_pkt_ack_byte fresh_in (device_sends "+") false
                    eq_refl eq_refl)
             ltac:(vm_compute; repeat split; lia) eq_refl
             ltac:(vm_compute; lia) [] []).
    reflexivity.
  - apply (proj2 (read_pkt_ack_byte fresh_in (device_sends "-") false
                    eq_refl eq_refl)
             ltac:(vm_compute; repeat split; lia) eq_refl
             ltac:(vm_compute; lia) [] []).
    reflexivity.
Defined.

(** The packet [$OK#00] against the expected string [$]: the expected
    string is a prefix of the packet, yet [read_pkt_assert] fails and sets
    the error flag.  The packet [+] against the expected string [+x]: the
    expected string is no prefix of the packet, yet [read_pkt_assert]
    succeeds. *)
Lemma read_pkt_assert_not_bounded_by_expected :
  (fst (fst (read_pkt fresh_in (device_sends "$OK#00") false)) = RP_ok 0 6 /\
   matches_within_expected (chars "$OK#00") (chars "$") /\
   fst (fst (read_pkt_assert fresh_in (device_sends "$OK#00") (Some (chars "$")))) = -1 /\
   error_flag (snd (read_pkt_assert fresh_in (device_sends "$OK#00") (Some (chars "$"))))
   = true) /\
  (fst (fst (read_pkt fresh_in (device_sends "+") false)) = RP_ok 0 1 /\
   ~ matches_within_expected (chars "+") (chars "+x") /\
   fst (fst (read_pkt_assert fresh_in (device_sends "+") (Some (chars "+x")))) = 0 /\
   error_flag (snd (read_pkt_assert fresh_in (device_sends "+") (Some (chars "+x"))))
   = false).
Proof.
  split; (split; [vm_compute; reflexivity|]);
    (split; [vm_compute; try reflexivity; discriminate|]);
    split; vm_compute; reflexivity.
Qed.

Lemma read_pkt_assert_compares_packet_length_witness :
  let i := fresh_in in
  let w := device_sends "$OK#00" in
  let i' := snd (fst (read_pkt i w false)) in
  let w' := snd (read_pkt i w false) in
  read_pkt_assert i w (Some (chars "$OK#00")) = (0, i', w') /\
  read_pkt_assert i w (Some (chars "$OK#9a")) = (-1, i', set_error_flag w') /\
  read_pkt_assert i w None = (-1, i', set_error_flag w').
Proof.
  cbv zeta.
  assert (Hok : cursors_ok fresh_in) by (vm_compute; repeat split; lia).
  assert (Hrd : read_pkt fresh_in (device_sends "$OK#00") false
                = (RP_ok 0 6,
                   snd (fst (read_pkt fresh_in (device_sends "$OK#00") false)),
                   snd (read_pkt fresh_in (device_sends "$OK#00") false)))
    by (vm_compute; reflexivity).
  assert (N1 : ~ In NUL (chars "$OK#00")) by (now apply no_nul_check).
  assert (N2 : ~ In NUL (chars "$OK#9a")) by (now apply no_nul_check).
  split; [|split].
  - apply (proj1 (read_pkt_assert_compares_packet_length _ _ _ _ _ _ _ Hok N1 Hrd)).
    vm_compute. reflexivity.
  - apply (proj1 (proj2 (read_pkt_assert_compares_packet_length
                           _ _ _ _ _ _ _ Hok N2 Hrd))).
    vm_compute. discriminate.
  - apply (proj1 (proj2 (proj2 (read_pkt_assert_compares_packet_length
                                  _ _ _ _ _ _ _ Hok N1 Hrd)))).
Defined.

Lemma receive_buffer_invariant_witness :
  let w := initial_world [] [] [] in
  (exists i1,
      make_room full_tail = Room_ok i1 /\ same_arena full_tail i1 /\
      buf_head i1 = buf_begin full_tail /\ buf_next i1 = buf_tail i1 /\
      unconsumed i1 = unconsumed full_tail /\
      forall allow_empty,
        read_char full_tail w allow_empty
        = recv_loop recv_turns (time w) allow_empty
                    (buf_end i1 - buf_tail i1) i1 w) /\
  (forall allow_empty,
      read_char full_arena w allow_empty = (RC_fail, full_arena, set_error_flag w)).
Proof.
  cbv zeta. split.
  - apply (proj1 (proj2 (proj2 (proj2
             (receive_buffer_invariant full_tail (initial_world [] [] [])
                ltac:(vm_compute; repeat split; lia)))))).
    + reflexivity.
    + reflexivity.
    + vm_compute. lia.
    + vm_compute. intros [_ H]. discriminate H.
  - apply (proj2 (proj2 (proj2 (proj2
             (receive_buffer_invariant full_arena (initial_world [] [] [])
                ltac:(vm_compute; repeat split; lia)))))).
    + reflexivity.
    + reflexivity.
    + reflexivity.
    + reflexivity.
    + vm_compute. lia.
Defined.

Lemma exit_status_decoding_witness :
  let i := fresh_in in
  let w := device_sends "$X3432#00" in
  exists dp i'',
    fromhex (chars "3432") 4 = Some dp /\
    running_step 1 0 i w
    = Break (atoi (c_string dp)) i''
            (write_pkt (set_app_quit (snd (read_pkt i w true))) (chars "$OK#00")).
Proof.
  cbv zeta.
  apply (proj2 exit_status_decoding fresh_in (device_sends "$X3432#00") 1 0 0%nat 9%nat
           (snd (fst (read_pkt fresh_in (device_sends "$X3432#00") true)))
           (snd (read_pkt fresh_in (device_sends "$X3432#00") true))
           "X"%char (chars "3432")).
  - vm_compute; repeat split; lia.
  - vm_compute; reflexivity.
  - vm_compute; reflexivity.
  - right; reflexivity.
  - discriminate.
  - exists 2%nat. reflexivity.
Defined.

Lemma idle_pause_after_six_empty_reads_witness :
  let i := fresh_in in
  let w := initial_world [] (repeat idle 6 ++ [delivers "$T05#00"]) [] in
  running (6 + 1) 1 0 i w
  = running 1 1 0 (settle i)
      (sleep 1 (after_idle 6 (buf_end (settle i) - buf_tail (settle i))
                  [delivers "$T05#00"] w)).
Proof.
  cbv zeta.
  apply (proj1 (proj2 (idle_pause_after_six_empty_reads fresh_in
            (initial_world [] (repeat idle 6 ++ [delivers "$T05#00"]) [])
            [delivers "$T05#00"] 1 1
            ltac:(vm_compute; repeat split; lia)
            eq_refl eq_refl eq_refl eq_refl eq_refl))).
  reflexivity.
Defined.

(** * Further properties of the debugserver client *)

(** ** Hex digits *)

Lemma hex2int_digit_test (c : ascii) :
  (0 <=? hex2int c) = existsb (Ascii.eqb c) hex_alphabet /\
  (hex2int c = -1 \/ 0 <= hex2int c <= 15).
Proof.
  destruct c as [b0 b1 b2 b3 b4 b5 b6 b7].
  destruct b0, b1, b2, b3, b4, b5, b6, b7;
    (split; [vm_compute; reflexivity|]);
    first [left; vm_compute; reflexivity
          |right; vm_compute; split; discriminate].
Qed.

(** [hex2int] takes exactly the twenty-two characters 0-9, a-f and A-F for
    digits, gives each a value from 0 to 15 and every other byte -1; and it
    reads back every digit [int2hex] writes. *)
Theorem hex2int_alphabet :
  (forall c : ascii,
      (0 <=? hex2int c) = existsb (Ascii.eqb c) hex_alphabet /\
      (hex2int c = -1 \/ 0 <= hex2int c <= 15)) /\
  (forall x : Z, 0 <= x <= 15 ->
      exists h, int2hex x = Some h /\ is_upper_hex h = true /\ hex2int h = x).
Proof.
  split.
  - exact hex2int_digit_test.
  - intros x Hx.
    assert (H : x = 0 \/ x = 1 \/ x = 2 \/ x = 3 \/ x = 4 \/ x = 5 \/ x = 6 \/ x = 7
                \/ x = 8 \/ x = 9 \/ x = 10 \/ x = 11 \/ x = 12 \/ x = 13
                \/ x = 14 \/ x = 15) by lia.
    repeat (destruct H as [-> | H]); try subst x;
      eexists; repeat split; vm_compute; reflexivity.
Qed.

Lemma hex2int_alphabet_witness :
  exists h, int2hex 11 = Some h /\ is_upper_hex h = true /\ hex2int h = 11.
Proof. apply (proj2 hex2int_alphabet 11). lia. Defined.

(** ** Decoding in place *)

(** [fromhex(s, s + 2, n)] inside one arena, as [main] calls it: the arena
    keeps its size, the bytes before [s] are untouched, and what stands at
    [s] afterwards is what [fromhex] decodes from the bytes that stood at
    [s + 2], NUL included. *)
Theorem fromhex_inplace_agrees (mem : list ascii) (s n : nat) :
  (s + 2 + 2 * Nat.div2 (S n) <= List.length mem)%nat ->
  exists d rest,
    fromhex (skipn (s + 2) mem) n = Some d /\
    skipn s (fromhex_inplace mem s (s + 2) n) = d ++ rest /\
    firstn s (fromhex_inplace mem s (s + 2) n) = firstn s mem /\
    List.length (fromhex_inplace mem s (s + 2) n) = List.length mem.
Proof.
  intros H. unfold fromhex_inplace, fromhex.
  destruct (fromhex_at_view (Nat.div2 (S n)) mem s (s + 2) ltac:(lia) ltac:(lia))
    as (d & rest & Hd & Hv).
  destruct (fromhex_at_below (Nat.div2 (S n)) mem s (s + 2) s ltac:(lia)) as (Hb & Hl).
  exists (d ++ [NUL]), rest. rewrite Hd. cbn [bind].
  split; [reflexivity|]. split; [|split; assumption].
  rewrite Hv, <- app_assoc. reflexivity.
Qed.

Lemma fromhex_inplace_agrees_witness :
  exists d rest,
    fromhex (skipn 2 (chars "$O6869#00")) 4 = Some d /\
    skipn 0 (fromhex_inplace (chars "$O6869#00") 0 2 4) = d ++ rest /\
    firstn 0 (fromhex_inplace (chars "$O6869#00") 0 2 4)
    = firstn 0 (chars "$O6869#00") /\
    List.length (fromhex_inplace (chars "$O6869#00") 0 2 4)
    = List.length (chars "$O6869#00").
Proof.
  apply (fromhex_inplace_agrees (chars "$O6869#00") 0 4).
  vm_compute. lia.
Defined.

(** ** Environment and launch packets *)

Lemma tohex_digits_seven_bit (s : list ascii) :
  seven_bit s ->
  exists h,
    tohex_digits s (strlen s) = Some h /\
    List.length h = (2 * strlen s)%nat /\
    fromhex h (List.length h) = Some (s ++ [NUL]).
Proof.
  intros H. destruct (tohex_digits_fromhex_bytes s H) as (d & Ht & Hl & _ & Hf).
  exists d. unfold strlen, fromhex.
  rewrite Ht, Hl, Nat.div2_succ_double, Hf. auto.
Qed.

(** For an entry of bytes below 0x80, [create_env_packet] yields
    [$QEnvironmentHexEncoded:], two hex digits a byte, and [#00]; the
    digits decode back to the entry, and packet and terminator fill the
    [2 * strlen(env) + 28] bytes allocated exactly. *)
Theorem create_env_packet_shape (env : list ascii) :
  seven_bit env ->
  exists h,
    create_env_packet env
    = Some (chars "$QEnvironmentHexEncoded:" ++ h ++ chars "#00") /\
    fromhex h (List.length h) = Some (env ++ [NUL]) /\
    (List.length (chars "$QEnvironmentHexEncoded:" ++ h ++ chars "#00") + 1
     = 2 * strlen env + 28)%nat.
Proof.
  intros H. destruct (tohex_digits_seven_bit env H) as (h & Ht & Hl & Hf).
  exists h. unfold create_env_packet. rewrite Ht. cbn [bind].
  split; [reflexivity|]. split; [exact Hf|].
  rewrite !length_app, Hl. cbn. lia.
Qed.

Lemma create_env_packet_shape_witness :
  exists h,
    create_env_packet (chars "A=b")
    = Some (chars "$QEnvironmentHexEncoded:" ++ h ++ chars "#00") /\
    fromhex h (List.length h) = Some (chars "A=b" ++ [NUL]) /\
    (List.length (chars "$QEnvironmentHexEncoded:" ++ h ++ chars "#00") + 1
     = 2 * strlen (chars "A=b") + 28)%nat.
Proof.
  apply (create_env_packet_shape (chars "A=b")). repeat constructor.
Defined.

Lemma args_packet_body_snoc (ss : list (list ascii)) :
  forall (i : nat) (x : list ascii) (b hx : list ascii),
  args_packet_body i ss = Some b ->
  tohex_digits x (strlen x) = Some hx ->
  args_packet_body i (ss ++ [x])
  = Some (b ++ (if Nat.eqb (i + List.length ss) 0 then [] else chars ",")
            ++ fmt_d (wrap_int (2 * wrap_int (Z.of_nat (strlen x)))) ++ chars ","
            ++ fmt_d (wrap_int (Z.of_nat (i + List.length ss))) ++ chars ","
            ++ hx).
Proof.
  induction ss as [|s ss IH]; intros i x b hx Hb Hx.
  - cbn [args_packet_body] in Hb. injection Hb as <-.
    cbn [app args_packet_body List.length]. rewrite Hx. cbn [bind app].
    rewrite Nat.add_0_r, !app_nil_r. reflexivity.
  - cbn [app args_packet_body] in *.
    destruct (tohex_digits s (strlen s)) as [h|]; [|discriminate].
    cbn [bind] in *.
    destruct (args_packet_body (S i) ss) as [r|] eqn:Er; [|discriminate].
    cbn [bind] in Hb. injection Hb as <-.
    rewrite (IH (S i) x r hx Er Hx). cbn [bind List.length].
    replace (i + S (List.length ss))%nat with (S i + List.length ss)%nat by lia.
    f_equal. repeat (rewrite <- app_assoc || rewrite <- app_comm_cons).
    reflexivity.
Qed.

(** The launch packet grows by one token an argument: with the argument
    [x] put after [args], the packet for [args] gets
    [,<2*strlen(x)>,<index>,<hex(x)>] in before its [#00], the index being
    the number of arguments before [x] plus one.  With a null [app_path]
    the packet is [$A#00] whatever the arguments. *)
Theorem create_args_packet_appends (app_path : list ascii)
    (args : list (list ascii)) (x : list ascii) (b : list ascii) :
  seven_bit x ->
  Z.of_nat (strlen x) < 2 ^ 30 -> Z.of_nat (List.length args) < 2 ^ 31 - 1 ->
  create_args_packet (Some app_path) (Some args) = Some (chars "$A" ++ b ++ chars "#00") ->
  exists hx,
    tohex_digits x (strlen x) = Some hx /\
    create_args_packet (Some app_path) (Some (args ++ [x]))
    = Some (chars "$A" ++ b ++ chars ","
              ++ launch_token (S (List.length args)) x hx ++ chars "#00") /\
    forall any_args, create_args_packet None any_args = Some (chars "$A#00").
Proof.
  intros Hx Hlen Hcnt Hp.
  destruct (tohex_digits_seven_bit x Hx) as (hx & Ht & _).
  exists hx. split; [exact Ht|]. split; [|reflexivity].
  unfold create_args_packet in *. cbn [launch_strings] in *.
  destruct (args_packet_body 0 (app_path :: args)) as [b0|] eqn:Eb; [|discriminate].
  cbn [bind] in Hp. injection Hp as Hp. apply app_inv_tail in Hp. subst b0.
  change (app_path :: args ++ [x]) with ((app_path :: args) ++ [x]).
  rewrite (args_packet_body_snoc _ 0 x b hx Eb Ht). cbn [bind].
  cbn [Nat.add List.length Nat.eqb].
  change (2 ^ 30) with 1073741824 in Hlen. change (2 ^ 31) with 2147483648 in Hcnt.
  pose proof (Nat2Z.is_nonneg (strlen x)) as Hnn.
  rewrite (wrap_int_small (Z.of_nat (strlen x)))
    by (change (2 ^ 31) with 2147483648; lia).
  rewrite !wrap_int_small by (change (2 ^ 31) with 2147483648; lia).
  unfold launch_token. rewrite <- !app_assoc. reflexivity.
Qed.

Lemma create_args_packet_appends_witness :
  exists hx,
    tohex_digits (chars "-v") (strlen (chars "-v")) = Some hx /\
    create_args_packet (Some (chars "/a")) (Some ([chars "x"] ++ [chars "-v"]))
    = Some (chars "$A" ++ chars "4,0,2F61,2,1,78" ++ chars ","
              ++ launch_token 2 (chars "-v") hx ++ chars "#00") /\
    forall any_args, create_args_packet None any_args = Some (chars "$A#00").
Proof.
  apply (create_args_packet_appends (chars "/a") [chars "x"] (chars "-v")
           (chars "4,0,2F61,2,1,78")).
  - repeat constructor.
  - vm_compute. reflexivity.
  - vm_compute. reflexivity.
  - vm_compute. reflexivity.
Defined.

(** ** Reading a chunked stream *)

Lemma slice_cons (mem : list ascii) (p n : nat) :
  (p < List.length mem)%nat ->
  slice mem p (S n) = load mem p :: slice mem (S p) n.
Proof.
  intros H. unfold slice. rewrite (skipn_cons_load mem p H). reflexivity.
Qed.

Lemma slice_memwrite_tail (mem : list ascii) (dst : nat) (c : ascii) (g : list ascii) :
  (dst <= List.length mem)%nat ->
  slice (memwrite mem dst (c :: g)) (S dst) (List.length g) = g.
Proof.
  intros H. unfold slice, memwrite.
  rewrite skipn_app, length_firstn.
  rewrite (skipn_all2 (firstn dst mem)) by (rewrite length_firstn; lia).
  replace (S dst - Nat.min dst (List.length mem))%nat with 1%nat by lia.
  cbn [app skipn].
  rewrite firstn_app, firstn_all, Nat.sub_diag. cbn [firstn].
  now rewrite app_nil_r.
Qed.

Lemma rx_bytes_concat (r : list recv_event) :
  rx_bytes r = List.length (List.concat (map rv_data r)).
Proof.
  induction r as [|ev r IH]; [reflexivity|].
  cbn [rx_bytes fold_right map List.concat]. rewrite length_app.
  fold (rx_bytes r). now rewrite IH.
Qed.

Lemma assembled_length (i : in_struct) :
  cursors_ok i -> List.length (assembled i) = (buf_next i - buf_head i)%nat.
Proof.
  intros (Hb & Hh & Hn & Ht & He). unfold assembled. apply slice_length. lia.
Qed.

Lemma stream_length (i : in_struct) (w : world) :
  cursors_ok i -> List.length (stream i w) = pending i w.
Proof.
  intros (Hb & Hh & Hn & Ht & He). unfold stream, pending.
  rewrite length_app, slice_length, rx_bytes_concat by lia. reflexivity.
Qed.

(** A refill finds room whenever the packet being assembled does not fill
    the arena. *)
Lemma make_room_has_room (i : in_struct) :
  cursors_ok i -> buf_next i = buf_tail i ->
  (4 <= capacity i)%nat -> (buf_next i - buf_head i < capacity i)%nat ->
  exists i1,
    make_room i = Room_ok i1 /\ cursors_ok i1 /\ buf_next i1 = buf_tail i1 /\
    (1 <= buf_end i1 - buf_tail i1)%nat.
Proof.
  unfold capacity. intros Hok Hnt Hcap Hfit.
  destruct (make_room i) as [|i1] eqn:Em.
  { exfalso. apply make_room_full_iff in Em. destruct Em as (L & A & O).
    destruct Hok as (Hb & Hh & Hn & Ht & He). lia. }
  destruct (make_room_ok i i1 Hok Hnt Em)
    as (Hok1 & (Hb1 & He1 & _) & Hnt1 & _ & Hused & Hmv & Hst).
  pose proof Hok as (Hb & Hh & Hn & Ht & He).
  pose proof Hok1 as (Hb' & Hh' & Hn' & Ht' & He').
  exists i1. split; [reflexivity|]. split; [assumption|]. split; [assumption|].
  assert (Hq : (1 <= Nat.shiftr (buf_end i - buf_begin i) 2)%nat).
  { rewrite shiftr_2_quarter. apply Nat.div_le_lower_bound; lia. }
  destruct (Nat.lt_ge_cases (buf_end i - buf_tail i)
                            (Nat.shiftr (buf_end i - buf_begin i) 2)) as [L|L].
  - specialize (Hmv L). lia.
  - specialize (Hst L). subst i1. lia.
Qed.

(** One character off the stream: whether it is already in the arena or
    has to be received, [read_char] returns the first byte of the stream
    and leaves the rest of the stream to be read. *)
Lemma read_char_stream (i : in_struct) (w : world) (allow_empty : bool)
    (c : ascii) (st : list ascii) :
  cursors_ok i -> error_flag w = false -> delivering w ->
  (4 <= capacity i)%nat -> (buf_next i - buf_head i < capacity i)%nat ->
  stream i w = c :: st ->
  exists i' w',
    read_char i w allow_empty = (RC_char c, i', w') /\
    cursors_ok i' /\ same_arena i i' /\ error_flag w' = false /\
    delivering w' /\ stream i' w' = st /\
    assembled i' = assembled i ++ [c].
Proof.
  intros Hok Hf Hdel Hcap Hfit Hst.
  destruct (read_char i w allow_empty) as [[r i'] w'] eqn:Erc.
  destruct (read_char_buffer _ _ _ _ _ _ Hok Erc) as (Hok' & Har & _ & Has & _).
  pose proof Hok as (Hb & Hh & Hn & Ht & He).
  revert Erc. unfold read_char. rewrite Hf.
  destruct (Nat.eqb_spec (buf_next i) (buf_tail i)) as [Hnt|Hnt].
  - destruct (make_room_has_room i Hok Hnt Hcap Hfit) as (i1 & Em & Hok1 & Hnt1 & Hroom).
    rewrite Em.
    unfold stream in Hst. rewrite Hnt, Nat.sub_diag in Hst.
    unfold slice in Hst. cbn [firstn app] in Hst.
    unfold delivering in Hdel.
    destruct (rx w) as [|ev rest] eqn:Hrx; [discriminate Hst|].
    inversion Hdel as [|? ? (Herr & Hdata) Hrest]; subst.
    cbn [map List.concat] in Hst.
    destruct (rv_data ev) as [|c0 more] eqn:Hd; [contradiction|].
    cbn [app] in Hst. injection Hst as -> <-.
    unfold recv_turns. cbn [recv_loop].
    unfold idevice_connection_receive_timeout. cbn [rx log]. rewrite Hrx, Herr, Hd.
    change (IDEVICE_E_SUCCESS =? IDEVICE_E_SUCCESS) with true. cbn [negb].
    destruct (buf_end i1 - buf_tail i1)%nat as [|a] eqn:Ea; [lia|].
    cbn [firstn skipn].
    intros E; injection E as Hr Hi Hw.
    pose proof Hok1 as (Hb1 & Hh1 & Hn1 & Ht1 & He1).
    assert (Hc : r = RC_char c).
    { rewrite <- Hr.
      cbn [buf buf_next buf_head buf_begin buf_tail buf_end in_debug_flag].
      rewrite Hnt1, load_memwrite_at by lia. reflexivity. }
    exists i', w'. rewrite Hc in Has |- *.
    split; [reflexivity|]. split; [assumption|]. split; [assumption|].
    split; [|split; [|split; [|exact Has]]].
    + rewrite <- Hw. destruct (skipn a more); cbn; exact Hf.
    + rewrite <- Hw. unfold delivering.
      destruct (skipn a more) as [|m ms] eqn:Hs; cbn [rx set_rx log].
      * exact Hrest.
      * constructor; [split; [reflexivity|discriminate]|exact Hrest].
    + rewrite <- Hw, <- Hi. unfold stream.
      cbn [buf buf_next buf_tail].
      rewrite Hnt1.
      replace (buf_tail i1 + S (List.length (firstn a more)) - S (buf_tail i1))%nat
        with (List.length (firstn a more)) by lia.
      rewrite slice_memwrite_tail by lia.
      rewrite <- (firstn_skipn a more) at 3.
      destruct (skipn a more) as [|m ms] eqn:Hs; cbn [rx set_rx log map List.concat rv_data].
      * now rewrite app_nil_r.
      * now rewrite <- app_assoc.
  - intros E; injection E as Hr Hi Hw.
    unfold stream in Hst.
    replace (buf_tail i - buf_next i)%nat with (S (buf_tail i - S (buf_next i)))
      in Hst by lia.
    rewrite slice_cons in Hst by lia. cbn [app] in Hst. injection Hst as Hc Hst.
    exists i', w'. rewrite <- Hr in Has |- *. rewrite Hc in Has |- *.
    split; [reflexivity|]. split; [assumption|]. split; [assumption|].
    rewrite <- Hw. split; [exact Hf|]. split; [exact Hdel|]. split; [|exact Has].
    rewrite <- Hi. unfold stream. cbn [buf buf_next buf_tail]. exact Hst.
Qed.

Lemma scan_hash_stream (payload : list ascii) :
  forall (turns : nat) (i : in_struct) (w : world) (st : list ascii),
  cursors_ok i -> error_flag w = false -> delivering w ->
  (4 <= capacity i)%nat ->
  (buf_next i - buf_head i + List.length payload < capacity i)%nat ->
  ~ In "#"%char payload ->
  stream i w = payload ++ "#"%char :: st ->
  (List.length payload < turns)%nat ->
  exists i' w',
    scan_hash turns i w = (true, i', w') /\
    cursors_ok i' /\ same_arena i i' /\ error_flag w' = false /\
    delivering w' /\ stream i' w' = st /\
    assembled i' = assembled i ++ payload ++ ["#"%char].
Proof.
  induction payload as [|c p IH]; intros turns i w st Hok Hf Hdel Hcap Hfit Hno Hst Ht;
    (destruct turns as [|k]; [cbn [List.length] in Ht; lia|]);
    cbn [scan_hash]; cbn [app List.length] in *.
  - destruct (read_char_stream i w false _ st Hok Hf Hdel Hcap ltac:(lia) Hst)
      as (i1 & w1 & E & A & B & C & D & F & G).
    rewrite E. cbn [Ascii.eqb Bool.eqb]. exists i1, w1. auto 10.
  - destruct (read_char_stream i w false _ _ Hok Hf Hdel Hcap ltac:(lia) Hst)
      as (i1 & w1 & E & A & B & C & D & F & G).
    rewrite E.
    destruct (Ascii.eqb_spec c "#") as [->|Hc]; [exfalso; apply Hno; now left|].
    assert (Hcap1 : capacity i1 = capacity i).
    { unfold capacity. destruct B as (-> & -> & _). reflexivity. }
    assert (Hn1 : (buf_next i1 - buf_head i1 = S (buf_next i - buf_head i))%nat).
    { rewrite <- !assembled_length by assumption. rewrite G, length_app. cbn. lia. }
    destruct (IH k i1 w1 st A C D ltac:(lia) ltac:(lia)
                 ltac:(intros H; apply Hno; now right) F ltac:(lia))
      as (i2 & w2 & E2 & A2 & B2 & C2 & D2 & F2 & G2).
    exists i2, w2. rewrite E2.
    split; [reflexivity|]. split; [assumption|].
    split; [eapply same_arena_trans; eassumption|].
    split; [assumption|]. split; [assumption|]. split; [assumption|].
    rewrite G2, G, <- app_assoc. reflexivity.
Qed.

(** Reading a [$] packet off a stream, however the bytes are split into
    receives: what is consumed, what comes back and what is left. *)
Lemma read_pkt_stream (i : in_struct) (w : world) (allow_empty : bool)
    (payload : list ascii) (h1 h2 : ascii) (st : list ascii) :
  cursors_ok i -> buf_head i = buf_next i ->
  error_flag w = false -> delivering w ->
  (List.length payload + 4 <= capacity i)%nat ->
  ~ In "#"%char payload ->
  stream i w = "$"%char :: payload ++ "#"%char :: h1 :: h2 :: st ->
  let front := "$"%char :: payload ++ ["#"%char; h1] in
  exists s n i' w',
    read_pkt i w allow_empty
    = (if (hex2int h1 >=? 0) && (hex2int h2 >=? 0) then RP_ok s n
       else RP_invalid s n, i', w') /\
    cursors_ok i' /\ same_arena i i' /\ buf_head i' = buf_next i' /\
    delivering w' /\
    error_flag w' = negb ((hex2int h1 >=? 0) && (hex2int h2 >=? 0)) /\
    packet_of (RP_ok s n) i'
    = (if hex2int h1 >=? 0 then front ++ [h2] else front) /\
    stream i' w' = (if hex2int h1 >=? 0 then st else h2 :: st).
Proof.
  intros Hok Hhn Hf Hdel Hfit Hno Hst front.
  assert (Has0 : assembled i = []).
  { unfold assembled. rewrite Hhn, Nat.sub_diag. reflexivity. }
  unfold read_pkt. rewrite Hf.
  destruct (read_char_stream i w allow_empty _ _ Hok Hf Hdel ltac:(lia) ltac:(lia) Hst)
    as (i1 & w1 & E1 & A1 & B1 & C1 & D1 & F1 & G1).
  rewrite E1. cbn [Ascii.eqb Bool.eqb].
  assert (Hcap1 : capacity i1 = capacity i).
  { unfold capacity. destruct B1 as (-> & -> & _). reflexivity. }
  assert (Hn1 : (buf_next i1 - buf_head i1 = 1)%nat).
  { rewrite <- assembled_length, G1, Has0 by assumption. reflexivity. }
  assert (Hturns : (List.length payload < S (pending i1 w1))%nat).
  { rewrite <- stream_length, F1, length_app by assumption. cbn. lia. }
  destruct (scan_hash_stream payload _ i1 w1 _ A1 C1 D1 ltac:(lia) ltac:(lia)
              Hno F1 Hturns)
    as (i2 & w2 & E2 & A2 & B2 & C2 & D2 & F2 & G2).
  rewrite E2.
  assert (Hcap2 : capacity i2 = capacity i).
  { unfold capacity in *. destruct B2 as (-> & -> & _). exact Hcap1. }
  assert (Hn2 : (buf_next i2 - buf_head i2 = List.length payload + 2)%nat).
  { rewrite <- assembled_length, G2, G1, Has0 by assumption.
    cbn [app List.length]. rewrite length_app. cbn. lia. }
  destruct (read_char_stream i2 w2 false _ _ A2 C2 D2 ltac:(lia) ltac:(lia) F2)
    as (i3 & w3 & E3 & A3 & B3 & C3 & D3 & F3 & G3).
  rewrite E3.
  pose proof (same_arena_trans _ _ _ B1 B2) as S2.
  pose proof (same_arena_trans _ _ _ S2 B3) as S3.
  assert (Hfront : assembled i3 = front).
  { rewrite G3, G2, G1, Has0. subst front. cbn [app].
    rewrite <- app_assoc. reflexivity. }
  assert (Hfin : forall ok i4 w4, cursors_ok i4 ->
            exists s n i' w',
              finish_pkt ok i4 w4 = (if ok then RP_ok s n else RP_invalid s n, i', w')
              /\ cursors_ok i' /\ same_arena i4 i' /\ buf_head i' = buf_next i'
              /\ rx w' = rx w4 /\ error_flag w' = (if ok then error_flag w4 else true)
              /\ packet_of (RP_ok s n) i' = assembled i4
              /\ buf i' = buf i4 /\ buf_next i' = buf_next i4 /\ buf_tail i' = buf_tail i4).
  { intros ok i4 w4 H4. unfold finish_pkt. do 4 eexists.
    split; [reflexivity|].
    pose proof H4 as (Hb & Hh & Hn & Ht & He).
    split; [unfold cursors_ok; cbn; repeat split; lia|].
    split; [unfold same_arena; cbn; repeat split|].
    split; [reflexivity|]. split; [now destruct ok|]. split; [now destruct ok|].
    repeat split. }
  destruct (hex2int h1 >=? 0) eqn:H1; cbn [andb].
  - assert (Hcap3 : capacity i3 = capacity i).
    { unfold capacity in *. destruct B3 as (-> & -> & _). exact Hcap2. }
    assert (Hn3 : (buf_next i3 - buf_head i3 = List.length payload + 3)%nat).
    { rewrite <- assembled_length, G3, length_app, assembled_length by assumption.
      cbn. lia. }
    destruct (read_char_stream i3 w3 false _ _ A3 C3 D3 ltac:(lia) ltac:(lia) F3)
      as (i4 & w4 & E4 & A4 & B4 & C4 & D4 & F4 & G4).
    rewrite E4.
    destruct (Hfin (hex2int h2 >=? 0) i4 w4 A4)
      as (s & n & i' & w' & E & A & B & Hb & Hrx & Hflag & Hpkt & Hbuf & Hnx & Htl).
    exists s, n, i', w'. split; [exact E|]. split; [exact A|].
    split; [eapply same_arena_trans; [|exact B];
            eapply same_arena_trans; eassumption|].
    split; [exact Hb|]. split; [unfold delivering; now rewrite Hrx|].
    split; [rewrite Hflag, C4; now destruct (hex2int h2 >=? 0)|].
    split; [now rewrite Hpkt, G4, Hfront|].
    unfold stream in *. now rewrite Hbuf, Hnx, Htl, Hrx.
  - destruct (Hfin false i3 w3 A3)
      as (s & n & i' & w' & E & A & B & Hb & Hrx & Hflag & Hpkt & Hbuf & Hnx & Htl).
    exists s, n, i', w'. split; [exact E|]. split; [exact A|].
    split; [eapply same_arena_trans; eassumption|].
    split; [exact Hb|]. split; [unfold delivering; now rewrite Hrx|].
    split; [exact Hflag|]. split; [now rewrite Hpkt|].
    unfold stream in *. now rewrite Hbuf, Hnx, Htl, Hrx.
Qed.

(** A well-formed packet [$<payload>#<two hex digits>] that fits the arena
    is read whole off the stream, however the connection splits the bytes
    into receives and wherever the unread bytes stand in the arena: the
    packet comes back byte for byte, the error flag stays clear, the
    reader is at a packet boundary again and the bytes after the packet
    are still to be read.  The digits are not compared with any
    checksum. *)
Theorem read_pkt_frames_any_chunking (i : in_struct) (w : world) (allow_empty : bool)
    (payload : list ascii) (h1 h2 : ascii) (st : list ascii) :
  cursors_ok i -> buf_head i = buf_next i ->
  error_flag w = false -> delivering w ->
  (List.length payload + 4 <= capacity i)%nat ->
  ~ In "#"%char payload ->
  existsb (Ascii.eqb h1) hex_alphabet = true ->
  existsb (Ascii.eqb h2) hex_alphabet = true ->
  stream i w = "$"%char :: payload ++ "#"%char :: h1 :: h2 :: st ->
  exists s n i' w',
    read_pkt i w allow_empty = (RP_ok s n, i', w') /\
    packet_of (RP_ok s n) i' = "$"%char :: payload ++ ["#"%char; h1; h2] /\
    error_flag w' = false /\ cursors_ok i' /\ buf_head i' = buf_next i' /\
    delivering w' /\ stream i' w' = st.
Proof.
  intros Hok Hhn Hf Hdel Hfit Hno Hh1 Hh2 Hst.
  assert (G1 : (hex2int h1 >=? 0) = true).
  { rewrite Z.geb_leb, (proj1 (hex2int_digit_test h1)). exact Hh1. }
  assert (G2 : (hex2int h2 >=? 0) = true).
  { rewrite Z.geb_leb, (proj1 (hex2int_digit_test h2)). exact Hh2. }
  destruct (read_pkt_stream i w allow_empty payload h1 h2 st
              Hok Hhn Hf Hdel Hfit Hno Hst)
    as (s & n & i' & w' & E & A & B & Hb & D & Hflag & Hpkt & Hs).
  rewrite G1, G2 in *. cbn [andb negb] in *.
  exists s, n, i', w'. split; [exact E|].
  split; [rewrite Hpkt; cbn [app]; now rewrite <- app_assoc|]. auto.
Qed.

(** A packet whose two characters after [#] are not both hex digits is
    rejected: [read_pkt] fails and sets the error flag.  If it is the
    first of the two that is no digit, the second is not even read. *)
Theorem read_pkt_rejects_bad_checksum_digits (i : in_struct) (w : world)
    (allow_empty : bool) (payload : list ascii) (h1 h2 : ascii) (st : list ascii) :
  cursors_ok i -> buf_head i = buf_next i ->
  error_flag w = false -> delivering w ->
  (List.length payload + 4 <= capacity i)%nat ->
  ~ In "#"%char payload ->
  existsb (Ascii.eqb h1) hex_alphabet && existsb (Ascii.eqb h2) hex_alphabet = false ->
  stream i w = "$"%char :: payload ++ "#"%char :: h1 :: h2 :: st ->
  exists s n i' w',
    read_pkt i w allow_empty = (RP_invalid s n, i', w') /\
    error_flag w' = true /\
    (existsb (Ascii.eqb h1) hex_alphabet = false -> stream i' w' = h2 :: st).
Proof.
  intros Hok Hhn Hf Hdel Hfit Hno Hbad Hst.
  assert (G1 : (hex2int h1 >=? 0) = existsb (Ascii.eqb h1) hex_alphabet).
  { rewrite Z.geb_leb. apply (proj1 (hex2int_digit_test h1)). }
  assert (G2 : (hex2int h2 >=? 0) = existsb (Ascii.eqb h2) hex_alphabet).
  { rewrite Z.geb_leb. apply (proj1 (hex2int_digit_test h2)). }
  destruct (read_pkt_stream i w allow_empty payload h1 h2 st
              Hok Hhn Hf Hdel Hfit Hno Hst)
    as (s & n & i' & w' & E & A & B & Hb & D & Hflag & Hpkt & Hs).
  rewrite G1, G2, Hbad in *. cbn [negb] in *.
  exists s, n, i', w'. split; [exact E|]. split; [exact Hflag|].
  intros H1. now rewrite H1 in Hs.
Qed.

Lemma not_in_check (c : ascii) (s : list ascii) :
  existsb (Ascii.eqb c) s = false -> ~ In c s.
Proof.
  induction s as [|x s IH]; cbn [existsb In]; [tauto|].
  intros H. apply orb_false_iff in H. destruct H as (Hx & Hs).
  intros [->|Hin]; [now rewrite Ascii.eqb_refl in Hx|now apply IH].
Qed.

Lemma read_pkt_frames_any_chunking_witness :
  exists s n i' w',
    read_pkt fresh_in (chunked ["$O"; "K#"; "9"; "a+"]%string) false = (RP_ok s n, i', w') /\
    packet_of (RP_ok s n) i' = "$"%char :: chars "OK" ++ ["#"%char; "9"%char; "a"%char] /\
    error_flag w' = false /\ cursors_ok i' /\ buf_head i' = buf_next i' /\
    delivering w' /\ stream i' w' = chars "+".
Proof.
  apply (read_pkt_frames_any_chunking fresh_in (chunked ["$O"; "K#"; "9"; "a+"]%string)
           false (chars "OK") "9" "a" (chars "+")).
  - vm_compute. repeat split; lia.
  - reflexivity.
  - reflexivity.
  - repeat constructor; discriminate.
  - vm_compute. lia.
  - apply not_in_check. reflexivity.
  - reflexivity.
  - reflexivity.
  - reflexivity.
Defined.

Lemma read_pkt_rejects_bad_checksum_digits_witness :
  exists s n i' w',
    read_pkt fresh_in (chunked ["$OK#"; "x9+"]%string) false = (RP_invalid s n, i', w') /\
    error_flag w' = true /\
    (existsb (Ascii.eqb "x") hex_alphabet = false -> stream i' w' = chars "9+").
Proof.
  apply (read_pkt_rejects_bad_checksum_digits fresh_in (chunked ["$OK#"; "x9+"]%string)
           false (chars "OK") "x" "9" (chars "+")).
  - vm_compute. repeat split; lia.
  - reflexivity.
  - reflexivity.
  - repeat constructor; discriminate.
  - vm_compute. lia.
  - apply not_in_check. reflexivity.
  - reflexivity.
  - reflexivity.
Defined.

(** ** Failure and the error flag *)

Lemma recv_loop_flag (turns : nat) (start : Z) (allow_empty : bool) (avail : nat)
    (i : in_struct) :
  forall (w : world) r i' w',
  error_flag w = false ->
  recv_loop turns start allow_empty avail i w = (r, i', w') ->
  match r with
  | RC_fail => error_flag w' = true
  | RC_empty => allow_empty = true /\ error_flag w' = false /\ i' = i
  | RC_char _ => error_flag w' = false
  end.
Proof.
  induction turns as [|k IH]; intros w r i' w' Hf; cbn [recv_loop].
  { intros E; injection E as <- <- <-. reflexivity. }
  destruct (idevice_connection_receive_timeout w avail 500) as [[err got] w1] eqn:Er.
  destruct (receive_timeout_facts _ _ _ _ _ _ Er) as (_ & Hf1 & _).
  rewrite Hf in Hf1.
  destruct (negb (err =? IDEVICE_E_SUCCESS)).
  { intros E; injection E as <- <- <-. reflexivity. }
  destruct got as [|c got].
  - destruct allow_empty.
    { intros E; injection E as <- <- <-. auto. }
    destruct (time w1 - start >? 10).
    { intros E; injection E as <- <- <-. reflexivity. }
    apply IH. exact Hf1.
  - intros E; injection E as <- <- <-. exact Hf1.
Qed.

Lemma read_char_flag (i : in_struct) (w : world) (allow_empty : bool) r i' w' :
  error_flag w = false ->
  read_char i w allow_empty = (r, i', w') ->
  match r with
  | RC_fail => error_flag w' = true
  | RC_empty => allow_empty = true /\ error_flag w' = false
  | RC_char _ => error_flag w' = false
  end.
Proof.
  intros Hf. unfold read_char. rewrite Hf.
  destruct (buf_next i =? buf_tail i)%nat.
  - destruct (make_room i) as [|i1].
    + intros E; injection E as <- <- <-. reflexivity.
    + intros E. apply recv_loop_flag in E; [|exact Hf].
      destruct r; try tauto.
  - intros E; injection E as <- <- <-. exact Hf.
Qed.

Lemma scan_hash_flag (turns : nat) :
  forall (i : in_struct) (w : world) found i' w',
  error_flag w = false ->
  scan_hash turns i w = (found, i', w') ->
  error_flag w' = negb found.
Proof.
  induction turns as [|k IH]; intros i w found i' w' Hf; cbn [scan_hash].
  { intros E; injection E as <- <- <-. reflexivity. }
  destruct (read_char i w false) as [[r i1] w1] eqn:Er.
  pose proof (read_char_flag _ _ _ _ _ _ Hf Er) as Hr.
  destruct r as [| |ch].
  - intros E; injection E as <- <- <-. exact Hr.
  - destruct Hr as (Habs & _). discriminate Habs.
  - destruct (Ascii.eqb ch "#").
    + intros E; injection E as <- <- <-. exact Hr.
    + apply IH. exact Hr.
Qed.

Lemma read_pkt_flag (i : in_struct) (w : world) (allow_empty : bool) r i' w' :
  error_flag w = false ->
  read_pkt i w allow_empty = (r, i', w') ->
  match r with
  | RP_ok _ _ => error_flag w' = false
  | RP_invalid _ _ | RP_fail => error_flag w' = true
  end.
Proof.
  intros Hf. unfold read_pkt. rewrite Hf.
  assert (Hfin : forall ok i1 w1, error_flag w1 = false ->
            finish_pkt ok i1 w1 = (r, i', w') ->
            match r with
            | RP_ok _ _ => error_flag w' = false
            | RP_invalid _ _ | RP_fail => error_flag w' = true
            end).
  { intros ok i1 w1 H1. unfold finish_pkt.
    destruct ok; intros E; injection E as <- <- <-; [exact H1|reflexivity]. }
  destruct (read_char i w allow_empty) as [[r1 i1] w1] eqn:E1.
  pose proof (read_char_flag _ _ _ _ _ _ Hf E1) as H1.
  destruct r1 as [| |ch].
  - intros E; injection E as <- <- <-. exact H1.
  - apply Hfin. tauto.
  - destruct (Ascii.eqb ch "+"); [now apply Hfin|].
    destruct (Ascii.eqb ch "$"); [|now apply Hfin].
    destruct (scan_hash (S (pending i1 w1)) i1 w1) as [[found i2] w2] eqn:E2.
    pose proof (scan_hash_flag _ _ _ _ _ _ H1 E2) as H2.
    destruct found; cbn [negb] in H2.
    2:{ intros E; injection E as <- <- <-. exact H2. }
    destruct (read_char i2 w2 false) as [[r3 i3] w3] eqn:E3.
    pose proof (read_char_flag _ _ _ _ _ _ H2 E3) as H3.
    destruct r3 as [| |ch3].
    + intros E; injection E as <- <- <-. exact H3.
    + destruct H3 as (Habs & _). discriminate Habs.
    + destruct (hex2int ch3 >=? 0); [|now apply Hfin].
      destruct (read_char i3 w3 false) as [[r4 i4] w4] eqn:E4.
      pose proof (read_char_flag _ _ _ _ _ _ H3 E4) as H4.
      destruct r4 as [| |ch4].
      * intros E; injection E as <- <- <-. exact H4.
      * destruct H4 as (Habs & _). discriminate Habs.
      * now apply Hfin.
Qed.

Lemma read_pkt_assert_flag (i : in_struct) (w : world) expected ret i' w' :
  error_flag w = false ->
  read_pkt_assert i w expected = (ret, i', w') ->
  (ret = 0 /\ error_flag w' = false) \/ (ret = -1 /\ error_flag w' = true).
Proof.
  intros Hf. unfold read_pkt_assert.
  destruct (read_pkt i w false) as [[r i1] w1] eqn:E1.
  pose proof (read_pkt_flag _ _ _ _ _ _ Hf E1) as H1.
  destruct r as [|s n|s n].
  - intros E; injection E as <- <- <-. now right.
  - intros E; injection E as <- <- <-. now right.
  - destruct expected as [e|].
    + destruct (strncmp (skipn s (buf i1)) e n =? 0);
        intros E; injection E as <- <- <-; [now left|now right].
    + intros E; injection E as <- <- <-. now right.
Qed.

(** Every way a read can fail leaves the error flag set, and every read
    that succeeds leaves it clear: [read_char] fails exactly when the flag
    is set afterwards (and reports an empty receive only when the caller
    allows it), [read_pkt] returns 0 exactly when the flag is clear
    afterwards, and so does [read_pkt_assert], which returns nothing but 0
    and -1.  [main], which looks at no return value of
    [read_pkt_assert], loses nothing by it. *)
Theorem reads_fail_by_the_flag (i : in_struct) (w : world) (allow_empty : bool) :
  error_flag w = false ->
  (forall r i' w',
      read_char i w allow_empty = (r, i', w') ->
      match r with
      | RC_fail => error_flag w' = true
      | RC_empty => allow_empty = true /\ error_flag w' = false
      | RC_char _ => error_flag w' = false
      end) /\
  (forall r i' w',
      read_pkt i w allow_empty = (r, i', w') ->
      match r with
      | RP_ok _ _ => error_flag w' = false
      | RP_invalid _ _ | RP_fail => error_flag w' = true
      end) /\
  (forall expected ret i' w',
      read_pkt_assert i w expected = (ret, i', w') ->
      (ret = 0 /\ error_flag w' = false) \/ (ret = -1 /\ error_flag w' = true)).
Proof.
  intros Hf.
  split; [intros r i' w'; now apply read_char_flag|].
  split; [intros r i' w'; now apply read_pkt_flag|].
  intros expected ret i' w'. now apply read_pkt_assert_flag.
Qed.

Lemma reads_fail_by_the_flag_witness :
  let r := read_pkt_assert fresh_in (chunked ["$OK#9a"]%string) (Some (chars "+")) in
  (fst (fst r) = 0 /\ error_flag (snd r) = false) \/
  (fst (fst r) = -1 /\ error_flag (snd r) = true).
Proof.
  cbv zeta.
  apply (proj2 (proj2 (reads_fail_by_the_flag fresh_in (chunked ["$OK#9a"]%string)
                         false eq_refl))
           (Some (chars "+"))
           (fst (fst (read_pkt_assert fresh_in (chunked ["$OK#9a"]%string) (Some (chars "+")))))
           (snd (fst (read_pkt_assert fresh_in (chunked ["$OK#9a"]%string) (Some (chars "+")))))
           (snd (read_pkt_assert fresh_in (chunked ["$OK#9a"]%string) (Some (chars "+"))))).
  vm_compute. reflexivity.
Defined.

(** ** The packet writer *)

(** With the error flag clear [write_pkt] makes exactly one send call with
    the whole string and never tries again: the flag stays clear exactly
    when that one call reports success and all [strlen(s)] bytes sent; a
    short send sets the flag like a failed one.  Nothing is received. *)
Theorem write_pkt_sends_once (w : world) (s : list ascii) :
  error_flag w = false -> Z.of_nat (strlen s) < 2 ^ 31 ->
  trace (write_pkt w s) = E_send s :: trace w /\
  rx (write_pkt w s) = rx w /\ tx (write_pkt w s) = tl (tx w) /\
  (error_flag (write_pkt w s) = false <->
   match tx w with
   | [] => True
   | ev :: _ => sv_err ev = IDEVICE_E_SUCCESS /\ sv_bytes ev = Z.of_nat (strlen s)
   end).
Proof.
  intros Hf Hlen. unfold write_pkt. rewrite Hf.
  rewrite wrap_int_small
    by (change (2 ^ 31) with 2147483648 in *; pose proof (Nat2Z.is_nonneg (strlen s)); lia).
  unfold idevice_connection_send, log. cbn [tx].
  destruct (tx w) as [|ev rest] eqn:Et.
  - rewrite Z.eqb_refl, Z.eqb_refl. cbn [negb orb].
    cbn. repeat split; auto.
  - unfold set_tx, set_error_flag.
    destruct (Z.eqb_spec (sv_err ev) IDEVICE_E_SUCCESS) as [He|He];
      destruct (Z.eqb_spec (sv_bytes ev) (Z.of_nat (strlen s))) as [Hb|Hb];
      cbn [negb orb]; cbn; repeat split; auto; try tauto; try discriminate;
      intros (A & B); contradiction.
Qed.

Lemma write_pkt_sends_once_witness :
  let w := initial_world [] [] [{| sv_err := 0; sv_bytes := 3 |}] in
  trace (write_pkt w (chars "$c#00")) = E_send (chars "$c#00") :: trace w /\
  rx (write_pkt w (chars "$c#00")) = rx w /\
  tx (write_pkt w (chars "$c#00")) = tl (tx w) /\
  (error_flag (write_pkt w (chars "$c#00")) = false <->
   0 = IDEVICE_E_SUCCESS /\ 3 = Z.of_nat (strlen (chars "$c#00"))).
Proof.
  cbv zeta.
  apply (write_pkt_sends_once
           (initial_world [] [] [{| sv_err := 0; sv_bytes := 3 |}]) (chars "$c#00")).
  - reflexivity.
  - vm_compute. reflexivity.
Defined.

(** * The session driver, further *)

(** ** Views of a packet in the arena *)

Lemma packet_views (i : in_struct) (w : world) (allow_empty : bool)
    (s n : nat) (i' : in_struct) (w' : world) :
  cursors_ok i ->
  read_pkt i w allow_empty = (RP_ok s n, i', w') ->
  n = List.length (packet_of (RP_ok s n) i') /\
  (s + n <= List.length (buf i'))%nat /\
  forall a b, packet_of (RP_ok s n) i' = a ++ b ->
    skipn (s + List.length a) (buf i') = b ++ skipn (s + n) (buf i').
Proof.
  intros Hok E.
  destruct (read_pkt_buffer _ _ _ _ _ _ Hok E) as (Hok' & _ & (Hs & Hsn & _)).
  destruct Hok' as (_ & _ & Hnx & Ht & He).
  cbn [packet_of].
  assert (Hn : List.length (slice (buf i') s n) = n) by (apply slice_length; lia).
  split; [now rewrite Hn|]. split; [lia|].
  intros a b Hab.
  pose proof (skipn_slice (buf i') s n) as HV. rewrite Hab in HV.
  replace (s + List.length a)%nat with (List.length a + s)%nat by lia.
  rewrite <- skipn_skipn, HV, <- app_assoc, skipn_app, skipn_all, Nat.sub_diag.
  reflexivity.
Qed.


(** ** Output packets *)



(** ** Packets the loop does not answer *)

Lemma strncmp_three_differs (h1 h2 : ascii) (rest : list ascii) :
  (h1, h2) <> ("0"%char, "0"%char) ->
  (strncmp ("#"%char :: h1 :: h2 :: rest) (chars "#00") 3 =? 0) = false.
Proof.
  intros Hne. apply Z.eqb_neq. intros H0.
  assert (Hnul : ~ In NUL (chars "#00")) by (apply not_in_check; reflexivity).
  pose proof (proj1 (strncmp_zero_iff ["#"%char; h1; h2] rest (chars "#00") Hnul) H0) as Hm.
  unfold matches_within_packet in Hm. cbn in Hm.
  injection Hm as <- <-. now apply Hne.
Qed.

Lemma strncmp_two_differs (k c : ascii) (rest : list ascii) :
  k <> c -> c <> NUL ->
  (strncmp ("$"%char :: k :: rest) ["$"%char; c] 2 =? 0) = false.
Proof.
  intros Hne Hc. apply Z.eqb_neq. intros H0.
  assert (Hnul : ~ In NUL ["$"%char; c]).
  { intros [H|[H|[]]]; [discriminate H|now apply Hc]. }
  pose proof (proj1 (strncmp_zero_iff ["$"%char; k] rest ["$"%char; c] Hnul) H0) as Hm.
  unfold matches_within_packet in Hm. cbn in Hm.
  injection Hm as <-. now apply Hne.
Qed.

Lemma strncmp_whole (pkt rest e : list ascii) :
  ~ In NUL e -> List.length pkt = List.length e ->
  strncmp (pkt ++ rest) e (List.length pkt) = 0 -> pkt = e.
Proof.
  intros Hnul Hlen H0.
  pose proof (proj1 (strncmp_zero_iff pkt rest e Hnul) H0) as Hm.
  unfold matches_within_packet in Hm.
  rewrite Hlen, firstn_app, firstn_all, Nat.sub_diag, firstn_O, app_nil_r in Hm.
  rewrite <- Hlen in Hm.
  rewrite firstn_all2 in Hm by lia. now symmetry.
Qed.

(** What the loop does with the packets it has no reply for.  The empty
    packet [$#00] is skipped and the spin counter reset.  A stop packet
    [$T...] ends the loop.  Any other dollar packet whose two checksum
    characters are not [00] ends the loop, an output or exit packet too,
    and so does any packet of at most five bytes other than [$#00], an
    acknowledgement [+] or an [$O#00] without text for instance.  Where
    the loop ends this way nothing is sent in reply, [app_quit] stays
    unset and the result is the one held before. *)
Theorem packets_without_reply (i : in_struct) (w : world) (ret spin_counter : Z)
    (s n : nat) (i' : in_struct) (w' : world) (pkt : list ascii) :
  cursors_ok i ->
  read_pkt i w true = (RP_ok s n, i', w') ->
  packet_of (RP_ok s n) i' = pkt ->
  (pkt = chars "$#00" -> running_step ret spin_counter i w = Continue 0 i' w') /\
  (forall body, pkt = "$"%char :: "T"%char :: body -> body <> [] ->
     running_step ret spin_counter i w = Break ret i' w') /\
  (forall k body h1 h2,
     pkt = "$"%char :: k :: body ++ ["#"%char; h1; h2] ->
     k <> "T"%char -> (h1, h2) <> ("0"%char, "0"%char) ->
     running_step ret spin_counter i w = Break ret i' w') /\
  (pkt <> [] -> (List.length pkt <= 5)%nat -> pkt <> chars "$#00" ->
     running_step ret spin_counter i w = Break ret i' w').
Proof.
  intros Hok E Hpkt.
  destruct (packet_views _ _ _ _ _ _ _ Hok E) as (Hn & Hlen & Hview).
  rewrite Hpkt in Hn, Hview.
  set (rest := skipn (s + n) (buf i')) in *.
  pose proof (Hview [] pkt eq_refl) as HV. cbn [List.length] in HV.
  rewrite Nat.add_0_r in HV.
  split; [|split; [|split]].
  - intros ->. cbn in Hn. subst n.
    unfold running_step. rewrite E, HV. cbn [Nat.eqb].
    eval_strncmp. reflexivity.
  - intros body -> Hb.
    assert (2 < n)%nat by (subst n; destruct body; [contradiction|cbn; lia]).
    unfold running_step. rewrite E, HV.
    replace (n =? 0)%nat with false by (symmetry; apply Nat.eqb_neq; lia).
    replace (2 <? n)%nat with true by (symmetry; apply Nat.ltb_lt; lia).
    eval_strncmp. rewrite !andb_false_r. cbn [andb]. reflexivity.
  - intros k body h1 h2 -> Hk Hh.
    cbn [List.length] in Hn. rewrite length_app in Hn. cbn [List.length] in Hn.
    assert (HT : skipn (s + n - 3) (buf i') = "#"%char :: h1 :: h2 :: rest).
    { replace (s + n - 3)%nat
        with (s + List.length ("$"%char :: k :: body))%nat
        by (cbn [List.length]; lia).
      apply (Hview ("$"%char :: k :: body) ["#"%char; h1; h2]). reflexivity. }
    unfold running_step. rewrite E, HV, HT.
    replace (n =? 0)%nat with false by (symmetry; apply Nat.eqb_neq; lia).
    replace (n =? 4)%nat with false by (symmetry; apply Nat.eqb_neq; lia).
    rewrite (strncmp_three_differs h1 h2 rest Hh).
    cbn [app].
    rewrite (strncmp_two_differs k "T" _ Hk ltac:(discriminate)).
    rewrite !andb_false_r. cbn [andb]. reflexivity.
  - intros Hne H5 Hno.
    assert (n <> 0)%nat by (subst n; destruct pkt; [contradiction|cbn; lia]).
    unfold running_step. rewrite E, HV.
    replace (n =? 0)%nat with false by (symmetry; apply Nat.eqb_neq; lia).
    replace (5 <? n)%nat with false by (symmetry; apply Nat.ltb_ge; lia).
    cbn [andb].
    destruct (Nat.eqb_spec n 4) as [H4|H4]; cbn [andb].
    + destruct (Z.eqb_spec (strncmp (pkt ++ rest) (chars "$#00") 4) 0) as [H0|H0].
      * exfalso. apply Hno.
        assert (Hnul : ~ In NUL (chars "$#00")) by (apply not_in_check; reflexivity).
        apply (strncmp_whole pkt rest (chars "$#00") Hnul).
        { rewrite <- Hn, H4. reflexivity. }
        { rewrite <- Hn, H4. exact H0. }
      * now destruct ((2 <? n)%nat && (strncmp (pkt ++ rest) (chars "$T") 2 =? 0)).
    + now destruct ((2 <? n)%nat && (strncmp (pkt ++ rest) (chars "$T") 2 =? 0)).
Qed.

Lemma packets_without_reply_witness :
  let w := chunked ["$W00#"; "0f"]%string in
  let r := read_pkt fresh_in w true in
  running_step 1 0 fresh_in w = Break 1 (snd (fst r)) (snd r).
Proof.
  cbv zeta.
  refine (proj1 (proj2 (proj2
            (packets_without_reply fresh_in (chunked ["$W00#"; "0f"]%string) 1 0
               0 7
               (snd (fst (read_pkt fresh_in (chunked ["$W00#"; "0f"]%string) true)))
               (snd (read_pkt fresh_in (chunked ["$W00#"; "0f"]%string) true))
               (chars "$W00#0f") _ _ _)))
            "W"%char (chars "00") "0"%char "f"%char _ _ _).
  - vm_compute. repeat split; lia.
  - vm_compute. reflexivity.
  - vm_compute. reflexivity.
  - reflexivity.
  - discriminate.
  - discriminate.
Defined.

(** ** What [main] returns *)

Lemma receive_keeps_quit (w : world) (avail : nat) (timeout : Z) err got w' :
  idevice_connection_receive_timeout w avail timeout = (err, got, w') ->
  app_quit w' = app_quit w.
Proof.
  unfold idevice_connection_receive_timeout, log. cbn [rx].
  destruct (rx w) as [|ev rest].
  - intros E; injection E as <- <- <-. reflexivity.
  - destruct (rv_err ev =? IDEVICE_E_SUCCESS).
    + intros E; injection E as <- <- <-.
      now destruct (firstn avail (rv_data ev)).
    + intros E; injection E as <- <- <-. reflexivity.
Qed.

Lemma recv_loop_keeps_quit (turns : nat) (start : Z) (allow_empty : bool) (avail : nat)
    (i : in_struct) :
  forall (w : world) r i' w',
  recv_loop turns start allow_empty avail i w = (r, i', w') ->
  app_quit w' = app_quit w.
Proof.
  induction turns as [|k IH]; intros w r i' w'; cbn [recv_loop].
  { intros E; injection E as <- <- <-. reflexivity. }
  destruct (idevice_connection_receive_timeout w avail 500) as [[err got] w1] eqn:Er.
  apply receive_keeps_quit in Er.
  destruct (negb (err =? IDEVICE_E_SUCCESS)).
  { intros E; injection E as <- <- <-. exact Er. }
  destruct got as [|c got].
  - destruct allow_empty.
    { intros E; injection E as <- <- <-. exact Er. }
    destruct (time w1 - start >? 10).
    { intros E; injection E as <- <- <-. exact Er. }
    intros E. apply IH in E. now rewrite E.
  - intros E; injection E as <- <- <-. exact Er.
Qed.

Lemma read_char_keeps_quit (i : in_struct) (w : world) (allow_empty : bool) r i' w' :
  read_char i w allow_empty = (r, i', w') -> app_quit w' = app_quit w.
Proof.
  unfold read_char. destruct (error_flag w).
  { intros E; injection E as <- <- <-. reflexivity. }
  destruct (buf_next i =? buf_tail i)%nat.
  - destruct (make_room i) as [|i1].
    + intros E; injection E as <- <- <-. reflexivity.
    + apply recv_loop_keeps_quit.
  - intros E; injection E as <- <- <-. reflexivity.
Qed.

Lemma scan_hash_keeps_quit (turns : nat) :
  forall (i : in_struct) (w : world) found i' w',
  scan_hash turns i w = (found, i', w') -> app_quit w' = app_quit w.
Proof.
  induction turns as [|k IH]; intros i w found i' w'; cbn [scan_hash].
  { intros E; injection E as <- <- <-. reflexivity. }
  destruct (read_char i w false) as [[r i1] w1] eqn:Er.
  apply read_char_keeps_quit in Er.
  destruct r as [| |ch]; try (intros E; injection E as <- <- <-; exact Er).
  destruct (Ascii.eqb ch "#").
  - intros E; injection E as <- <- <-. exact Er.
  - intros E. apply IH in E. now rewrite E.
Qed.

Lemma read_pkt_keeps_quit (i : in_struct) (w : world) (allow_empty : bool) r i' w' :
  read_pkt i w allow_empty = (r, i', w') -> app_quit w' = app_quit w.
Proof.
  unfold read_pkt. destruct (error_flag w).
  { intros E; injection E as <- <- <-. reflexivity. }
  assert (Hfin : forall ok i1 w1, app_quit w1 = app_quit w ->
            finish_pkt ok i1 w1 = (r, i', w') -> app_quit w' = app_quit w).
  { intros ok i1 w1 H1. unfold finish_pkt.
    destruct ok; intros E; injection E as <- <- <-; exact H1. }
  destruct (read_char i w allow_empty) as [[r1 i1] w1] eqn:E1.
  apply read_char_keeps_quit in E1.
  destruct r1 as [| |ch].
  - intros E; injection E as <- <- <-. exact E1.
  - now apply Hfin.
  - destruct (Ascii.eqb ch "+"); [now apply Hfin|].
    destruct (Ascii.eqb ch "$"); [|now apply Hfin].
    destruct (scan_hash (S (pending i1 w1)) i1 w1) as [[found i2] w2] eqn:E2.
    apply scan_hash_keeps_quit in E2. rewrite E1 in E2.
    destruct found.
    2:{ intros E; injection E as <- <- <-. exact E2. }
    destruct (read_char i2 w2 false) as [[r3 i3] w3] eqn:E3.
    apply read_char_keeps_quit in E3. rewrite E2 in E3.
    destruct r3 as [| |ch3]; try (intros E; injection E as <- <- <-; exact E3).
    destruct (hex2int ch3 >=? 0); [|now apply Hfin].
    destruct (read_char i3 w3 false) as [[r4 i4] w4] eqn:E4.
    apply read_char_keeps_quit in E4. rewrite E3 in E4.
    destruct r4 as [| |ch4]; try (intros E; injection E as <- <- <-; exact E4).
    now apply Hfin.
Qed.

Lemma read_pkt_assert_keeps_quit (i : in_struct) (w : world) expected ret i' w' :
  read_pkt_assert i w expected = (ret, i', w') -> app_quit w' = app_quit w.
Proof.
  unfold read_pkt_assert.
  destruct (read_pkt i w false) as [[r i1] w1] eqn:E1.
  apply read_pkt_keeps_quit in E1.
  destruct r as [|s n|s n]; try (intros E; injection E as <- <- <-; exact E1).
  destruct expected as [e|].
  - destruct (strncmp (skipn s (buf i1)) e n =? 0);
      intros E; injection E as <- <- <-; exact E1.
  - intros E; injection E as <- <- <-. exact E1.
Qed.

Lemma write_pkt_keeps_quit (w : world) (s : list ascii) :
  app_quit (write_pkt w s) = app_quit w.
Proof.
  unfold write_pkt. destruct (error_flag w); [reflexivity|].
  unfold idevice_connection_send, log. cbn [tx].
  destruct (tx w) as [|ev rest].
  - now destruct (negb _ || negb _).
  - now destruct (negb _ || negb _).
Qed.

Lemma write_pkt_flagged (w : world) (s : list ascii) :
  error_flag w = true -> write_pkt w s = w.
Proof. intros H. unfold write_pkt. now rewrite H. Qed.

Lemma read_pkt_assert_flagged (i : in_struct) (w : world) expected :
  error_flag w = true -> read_pkt_assert i w expected = (-1, i, w).
Proof. intros H. unfold read_pkt_assert, read_pkt. now rewrite H. Qed.

(** With the flag clear, [write_pkt] has put its string on the trace. *)
Lemma write_pkt_unflagged (w : world) (s : list ascii) :
  error_flag (write_pkt w s) = false ->
  exists tr, trace (write_pkt w s) = E_send s :: tr.
Proof.
  unfold write_pkt. destruct (error_flag w) eqn:Hf.
  { intros H. rewrite H in Hf. discriminate. }
  unfold idevice_connection_send, log. cbn [tx].
  destruct (tx w) as [|ev rest].
  - destruct (negb _ || negb _); intros _; eexists; reflexivity.
  - destruct (negb _ || negb _); intros _; eexists; reflexivity.
Qed.

Ltac step_quit :=
  match goal with
  | |- context [read_pkt_assert ?i ?w ?e] =>
      let r := fresh "r" in
      let i1 := fresh "i" in
      let w1 := fresh "w" in
      let E := fresh "E" in
      destruct (read_pkt_assert i w e) as [[r i1] w1] eqn:E;
      apply read_pkt_assert_keeps_quit in E;
      rewrite ?write_pkt_keeps_quit in E
  end.

Lemma send_env_keeps_quit (env : list (list ascii)) :
  forall (i : in_struct) (w : world) i' w',
  send_env env i w = Some (i', w') -> app_quit w' = app_quit w.
Proof.
  induction env as [|s rest IH]; intros i w i' w'; cbn [send_env].
  { intros E; injection E as <- <-. reflexivity. }
  destruct (create_env_packet s) as [p|]; cbn [bind]; [|discriminate].
  step_quit. intros H. apply IH in H. congruence.
Qed.

Lemma launch_keeps_quit env app_path args debug_flag (w : world) i' w' :
  launch env app_path args debug_flag w = Some (i', w') ->
  app_quit w' = app_quit w.
Proof.
  unfold launch. cbv zeta.
  step_quit. step_quit.
  destruct (send_env _ _ _) as [[i2 w2]|] eqn:Es; cbn [bind]; [|discriminate].
  apply send_env_keeps_quit in Es. rewrite write_pkt_keeps_quit in Es.
  destruct (create_args_packet app_path args) as [p|]; cbn [bind]; [|discriminate].
  step_quit. step_quit. step_quit.
  intros H; injection H as <- <-. rewrite write_pkt_keeps_quit. congruence.
Qed.

Lemma running_step_quit (ret spin_counter : Z) (i : in_struct) (w : world) :
  match running_step ret spin_counter i w with
  | Continue _ _ w2 => app_quit w2 = app_quit w
  | Break r2 _ w2 => (r2 = ret /\ app_quit w2 = app_quit w) \/ app_quit w2 = true
  end.
Proof.
  unfold running_step.
  destruct (read_pkt i w true) as [[r i1] w1] eqn:E.
  apply read_pkt_keeps_quit in E.
  destruct r as [|s n|s n]; [now left|now left|].
  destruct (n =? 0)%nat.
  { destruct (wrap_int (spin_counter + 1) >? 5); exact E. }
  destruct (_ && _); [exact E|].
  destruct (_ && _ && _); [now rewrite write_pkt_keeps_quit|].
  destruct (_ && _); [now left|].
  destruct (_ && _ && _); [|now left].
  right. now rewrite write_pkt_keeps_quit.
Qed.

Lemma running_quit (fuel : nat) :
  forall (ret spin_counter : Z) (i : in_struct) (w : world) r i' w',
  running fuel ret spin_counter i w = Some (r, i', w') ->
  (r = ret /\ app_quit w' = app_quit w) \/ app_quit w' = true.
Proof.
  induction fuel as [|k IH]; intros ret spin_counter i w r i' w'; cbn [running];
    [discriminate|].
  assert (Hp : app_quit (poll_user_quit w) = app_quit w).
  { unfold poll_user_quit. now destruct (signals w). }
  destruct (user_quit (poll_user_quit w)).
  { intros E; injection E as <- <- <-. now left. }
  pose proof (running_step_quit ret spin_counter i (poll_user_quit w)) as Hs.
  destruct (running_step ret spin_counter i (poll_user_quit w)) as [sp i1 w1|r1 i1 w1].
  - intros E. apply IH in E. destruct E as [(-> & Hq)|Hq]; [left|now right].
    split; [reflexivity|congruence].
  - intros E; injection E as <- <- <-.
    destruct Hs as [(-> & Hq)|Hq]; [left|now right].
    split; [reflexivity|congruence].
Qed.

Lemma main_session_result (fuel : nat)
    (env : option (list (list ascii))) (app_path : option (list ascii))
    (args : option (list (list ascii))) (debug_flag : bool)
    (w : world) (ret : Z) (w' : world) :
  app_quit w = false ->
  main fuel env app_path args debug_flag w = Some (ret, w') ->
  (app_quit w' = false -> ret = 1) /\
  (exists tr, trace w' = E_disconnect :: tr) /\
  (error_flag w' = false ->
   exists tr, trace w' = E_disconnect :: E_send (chars "$k#00") :: tr).
Proof.
  intros Hq. unfold main.
  destruct (launch env app_path args debug_flag w) as [[i0 w0]|] eqn:El;
    cbn [bind]; [|discriminate].
  apply launch_keeps_quit in El.
  destruct (running fuel 1 0 i0 w0) as [[[r i1] w1]|] eqn:Er;
    cbn [bind]; [|discriminate].
  apply running_quit in Er.
  intros E; injection E as <- <-.
  split; [|split].
  - unfold log. cbn [app_quit]. rewrite write_pkt_keeps_quit.
    destruct Er as [(-> & _)|Hq1]; [reflexivity|]. rewrite Hq1. discriminate.
  - eexists. reflexivity.
  - unfold log. cbn [error_flag trace]. intros Hf.
    destruct (write_pkt_unflagged _ _ Hf) as (tr & ->). eexists. reflexivity.
Qed.

Lemma parse_options_result {G : Getopt} (fuel : nat) :
  forall (argv : list (list ascii)) (g : getopt_state) (optind : nat)
         (o : options) (p : parse_result),
  parse_options fuel argv g optind o = Some p ->
  match p with
  | PO_exit status => status = 0 \/ status = 2
  | PO_return o' => opt_app_id o' <> None
  end.
Proof.
  induction fuel as [|k IH]; intros argv g optind o p; cbn [parse_options];
    [discriminate|].
  destruct (getopt_long argv g optind) as [[[c optarg] optind1] g1].
  destruct ((c =? -1) || (c =? 1)).
  { destruct (optind1 <? List.length argv)%nat; cbn [orb].
    - intros E; injection E as <-. now right.
    - destruct (opt_app_id o) eqn:Ea; intros E; injection E as <-.
      + rewrite Ea. discriminate.
      + now right. }
  destruct (c =? byte_val "h"); [intros E; injection E as <-; now left|].
  destruct ((c =? byte_val "u") || (c =? byte_val "U")).
  { destruct optarg as [a|]; cbn [bind]; [|discriminate].
    destruct (negb (strlen a =? 40)%nat); [intros E; injection E as <-; now right|].
    apply IH. }
  destruct ((c =? byte_val "s") || (c =? byte_val "r")).
  { destruct optarg as [a|]; cbn [bind]; [|discriminate]. apply IH. }
  destruct (c =? byte_val "D").
  { destruct optarg as [a|]; cbn [bind]; [|discriminate]. apply IH. }
  destruct (c =? byte_val "d"); [apply IH|].
  destruct (c =? byte_val "a").
  { destruct (List.length argv <? optind1)%nat; [discriminate|apply IH]. }
  intros E; injection E as <-. now right.
Qed.

(** What [main] ends with.  [parse_options] ends the process with status
    0 or 2 and then nothing has happened on the connection, or it returns
    with an application named.  Where [connect_to_debugserver] fails,
    [main] returns -1 at once: nothing is sent to or received from the
    debugserver, [app_quit] is unset, and the one effect there can be is
    the disconnect [connect_to_debugserver] itself makes.  Otherwise
    [main] returns 1 unless an exit packet has set [app_quit] (a stop
    packet, a user's interrupt, a failed or unexpected read all leave the
    initial result); the disconnect is the last thing it does, and unless
    the error flag is set by then, the kill packet [$k#00] was sent just
    before. *)
Theorem main_result_code {G : Getopt} (turns : nat) (argv : list (list ascii))
    (g : getopt_state) (a : device_answers) (fuel : nat)
    (signals : list bool) (rx0 : list recv_event) (tx0 : list send_event)
    (out : ending) (w' : world) :
  main_whole turns argv g a fuel signals rx0 tx0 = Some (out, w') ->
  exists p,
    parse_options turns argv g 1 (mkOptions None None None None false) = Some p /\
    match p with
    | PO_exit status =>
        out = Exited status /\ (status = 0 \/ status = 2) /\
        trace w' = [] /\ rx w' = rx0 /\ tx w' = tx0
    | PO_return o =>
        opt_app_id o <> None /\
        let '(rc, _, _) :=
          connect_to_debugserver a (opt_app_id o) None (initial_world signals rx0 tx0) in
        if rc =? 0 then
          exists ret,
            out = Returned ret /\
            (app_quit w' = false -> ret = 1) /\
            (exists tr, trace w' = E_disconnect :: tr) /\
            (error_flag w' = false ->
             exists tr, trace w' = E_disconnect :: E_send (chars "$k#00") :: tr)
        else
          out = Returned (-1) /\ app_quit w' = false /\
          rx w' = rx0 /\ tx w' = tx0 /\
          (trace w' = [] \/ trace w' = [E_disconnect])
    end.
Proof.
  unfold main_whole.
  destruct (parse_options turns argv g 1 (mkOptions None None None None false))
    as [p|] eqn:Ep; cbn [bind]; [|discriminate].
  intros Hmain. exists p. split; [reflexivity|].
  pose proof (parse_options_result _ _ _ _ _ _ Ep) as Hp.
  destruct p as [status|o].
  { injection Hmain as <- <-. repeat split; auto. }
  split; [exact Hp|]. revert Hmain. cbv zeta.
  assert (Hconn : forall rc p w1,
            connect_to_debugserver a (opt_app_id o) None (initial_world signals rx0 tx0)
            = (rc, p, w1) ->
            app_quit w1 = false /\ rx w1 = rx0 /\ tx w1 = tx0 /\
            (rc <> 0 -> trace w1 = [] \/ trace w1 = [E_disconnect])).
  { intros rc p w1. unfold connect_to_debugserver.
    destruct (negb (idevice_new_ok a));
      [intros E; injection E as <- <- <-; cbn; auto|].
    destruct (negb (lockdownd_ok a));
      [intros E; injection E as <- <- <-; cbn; auto|].
    destruct (negb (debugserver_ok a));
      [intros E; injection E as <- <- <-; cbn; auto|].
    destruct (negb (idevice_connect_ok a));
      [intros E; injection E as <- <- <-; cbn; auto|].
    destruct (opt_app_id o) as [id|];
      [|intros E; injection E as <- <- <-; cbn; repeat split; auto; contradiction].
    destruct (installed_path a) as [p0|];
      [intros E; injection E as <- <- <-; cbn; repeat split; auto; contradiction|].
    destruct (strncmp id (chars "/") 1 =? 0);
      intros E; injection E as <- <- <-; cbn; repeat split; auto; contradiction. }
  destruct (connect_to_debugserver a (opt_app_id o) None (initial_world signals rx0 tx0))
    as [[rc p] w1] eqn:Ec.
  destruct (Hconn rc p w1 eq_refl) as (Hq & Hrx & Htx & Htr).
  destruct (Z.eqb_spec rc 0) as [H0|H0]; cbn [negb].
  - destruct (main fuel (opt_env o) p (opt_args o) (opt_debug_flag o) w1)
      as [[ret w2]|] eqn:Em; cbn [bind]; [|discriminate].
    intros E; injection E as <- <-.
    exists ret. split; [reflexivity|].
    exact (main_session_result _ _ _ _ _ _ _ _ Hq Em).
  - intros E; injection E as <- <-.
    split; [reflexivity|]. split; [exact Hq|]. split; [exact Hrx|].
    split; [exact Htx|]. exact (Htr H0).
Qed.

Lemma main_result_code_witness :
  let o := mkOptions None (Some (chars "/a")) None None false in
  let replies := launch_replies ++ [delivers "$T05#00"] in
  (exists w',
     main_whole (G := scripted_getopt) 2 start_a start_a_options
       (mkAnswers true true true true None) 4 [] replies []
     = Some (Returned 1, w') /\
     (exists tr, trace w' = E_disconnect :: tr) /\
     (error_flag w' = false ->
      exists tr, trace w' = E_disconnect :: E_send (chars "$k#00") :: tr)) /\
  (exists w',
     main_whole (G := scripted_getopt) 2 start_a start_a_options
       (mkAnswers true true false true None) 4 [] replies []
     = Some (Returned (-1), w') /\
     app_quit w' = false /\ rx w' = replies /\ tx w' = [] /\
     (trace w' = [] \/ trace w' = [E_disconnect])) /\
  main_whole (G := scripted_getopt) 2 start_a [] (mkAnswers true true true true None)
    4 [] replies []
  = Some (Exited 2, initial_world [] replies []).
Proof.
  cbv zeta. split; [|split].
  - eexists. split; [vm_compute; reflexivity|].
    destruct (main_result_code (G := scripted_getopt) 2 start_a start_a_options
                (mkAnswers true true true true None) 4 []
                (launch_replies ++ [delivers "$T05#00"]) [] (Returned 1) _
                ltac:(vm_compute; reflexivity)) as (p & Ep & Hp).
    vm_compute in Ep. injection Ep as <-.
    destruct Hp as (_ & ret & _ & _ & H2 & H3).
    split; [exact H2|exact H3].
  - eexists. split; [vm_compute; reflexivity|].
    destruct (main_result_code (G := scripted_getopt) 2 start_a start_a_options
                (mkAnswers true true false true None) 4 []
                (launch_replies ++ [delivers "$T05#00"]) [] (Returned (-1)) _
                ltac:(vm_compute; reflexivity)) as (p & Ep & Hp).
    vm_compute in Ep. injection Ep as <-.
    destruct Hp as (_ & _ & H1 & H2 & H3 & H4).
    split; [exact H1|]. split; [exact H2|]. split; [exact H3|exact H4].
  - vm_compute. reflexivity.
Defined.

(** ** A handshake that fails *)

Lemma read_pkt_assert_refused (i : in_struct) (w : world) expected ret i' w' :
  read_pkt_assert i w expected = (ret, i', w') -> ret <> 0 ->
  error_flag w' = true.
Proof.
  intros E Hr. destruct (error_flag w) eqn:Hf.
  - rewrite (read_pkt_assert_flagged _ _ _ Hf) in E. injection E as <- <- <-. exact Hf.
  - destruct (read_pkt_assert_flag _ _ _ _ _ _ Hf E) as [(-> & _)|(_ & H)];
      [contradiction|exact H].
Qed.

Lemma send_env_flagged (env : list (list ascii)) (i : in_struct) (w : world) :
  Forall seven_bit env -> error_flag w = true ->
  send_env env i w = Some (i, w).
Proof.
  intros H7 Hf. induction H7 as [|s rest Hs _ IH]; cbn [send_env]; [reflexivity|].
  destruct (tohex_digits_seven_bit s Hs) as (h & Ht & _).
  unfold create_env_packet. rewrite Ht. cbn [bind].
  rewrite (write_pkt_flagged _ _ Hf), (read_pkt_assert_flagged _ _ _ Hf). exact IH.
Qed.

Lemma running_flagged (fuel : nat) (ret spin_counter : Z) (i : in_struct) (w : world) :
  error_flag w = true ->
  running (S fuel) ret spin_counter i w = Some (ret, i, poll_user_quit w).
Proof.
  intros Hf. cbn [running].
  destruct (user_quit (poll_user_quit w)); [reflexivity|].
  assert (Hp : error_flag (poll_user_quit w) = true).
  { unfold poll_user_quit. now destruct (signals w). }
  unfold running_step, read_pkt. now rewrite Hp.
Qed.

(** If the very first expectation of [main], the acknowledgement [+] of
    [$QStartNoAckMode#b0], is not met, for whatever reason, nothing more is
    sent to or read from the device: no environment, no launch packet, no
    continue, not even the kill packet.  [main] looks once at pending
    signals, disconnects and returns 1. *)
Theorem failed_handshake_ends_session (fuel : nat)
    (env : option (list (list ascii))) (app_path : option (list ascii))
    (args : option (list (list ascii))) (debug_flag : bool)
    (w : world) (r : Z) (i1 : in_struct) (w1 : world) :
  Forall seven_bit (match env with Some e => e | None => [] end) ->
  create_args_packet app_path args <> None ->
  read_pkt_assert (in_new debug_flag (16 * 1024))
                  (write_pkt w (chars "$QStartNoAckMode#b0")) (Some (chars "+"))
  = (r, i1, w1) ->
  r <> 0 ->
  main (S fuel) env app_path args debug_flag w
  = Some (1, log E_disconnect (poll_user_quit w1)).
Proof.
  intros Henv Hargs E Hr.
  pose proof (read_pkt_assert_refused _ _ _ _ _ _ E Hr) as Hf.
  unfold main, launch. cbv zeta. rewrite E.
  rewrite (read_pkt_assert_flagged _ _ _ Hf), (write_pkt_flagged _ _ Hf).
  rewrite (send_env_flagged _ _ _ Henv Hf). cbn [bind].
  destruct (create_args_packet app_path args) as [p|]; [|contradiction].
  cbn [bind].
  repeat (rewrite (write_pkt_flagged _ _ Hf)
          || rewrite (read_pkt_assert_flagged _ _ _ Hf)
          || (progress cbv beta iota)).
  cbn [bind].
  rewrite (running_flagged _ _ _ _ _ Hf). cbn [bind].
  assert (Hp : error_flag (poll_user_quit w1) = true).
  { unfold poll_user_quit. now destruct (signals w1). }
  now rewrite (write_pkt_flagged _ _ Hp).
Qed.

Lemma failed_handshake_ends_session_witness :
  exists w1,
    main 1 (Some [chars "A=b"]) (Some (chars "/a")) None false
      (initial_world [] [delivers "-"] [])
    = Some (1, log E_disconnect (poll_user_quit w1)) /\
    trace w1 = [E_recv (16 * 1024); E_send (chars "$QStartNoAckMode#b0")].
Proof.
  eexists. split.
  - eapply (failed_handshake_ends_session 0 (Some [chars "A=b"]) (Some (chars "/a")) None
              false (initial_world [] [delivers "-"] []) (-1)).
    + repeat constructor.
    + vm_compute. discriminate.
    + vm_compute. reflexivity.
    + discriminate.
  - vm_compute. reflexivity.
Defined.

(** ** The receive deadline *)

Lemma deadline_test (c0 d : Z) :
  (d <= 10000 -> ((c0 + d) / 1000 - c0 / 1000 >? 10) = false) /\
  (11000 <= d -> ((c0 + d) / 1000 - c0 / 1000 >? 10) = true).
Proof.
  split; intros Hd.
  - rewrite Z.gtb_ltb. apply Z.ltb_ge. Z.div_mod_to_equations. lia.
  - apply Z.gtb_lt. Z.div_mod_to_equations. lia.
Qed.

Lemma idle_polls_snoc (avail m : nat) (tr : list effect) :
  idle_polls avail m ++ E_sleep 1 :: E_recv avail :: tr
  = idle_polls avail (S m) ++ tr.
Proof.
  induction m as [|k IH]; [reflexivity|].
  cbn [idle_polls app] in *. now rewrite IH.
Qed.

Lemma receive_idle (w : world) (avail : nat) (rest : list recv_event) :
  rx w = idle :: rest ->
  idevice_connection_receive_timeout w avail 500
  = (IDEVICE_E_SUCCESS, [],
     set_rx rest (tick 500 (log (E_recv avail) w))).
Proof.
  intros H. unfold idevice_connection_receive_timeout. cbn [rx log]. rewrite H.
  cbn [idle rv_err rv_data Z.eqb IDEVICE_E_SUCCESS].
  rewrite firstn_nil, skipn_nil. reflexivity.
Qed.

(** The polls of [read_char] on a silent connection, [m] of them still to
    go round after this one. *)
Lemma recv_loop_silent (c0 : Z) (avail : nat) (i : in_struct) (rest : list recv_event) :
  forall (m turns : nat) (w : world),
  (m < turns)%nat -> (m <= 7)%nat ->
  rx w = repeat idle (S m) ++ rest ->
  clock w = c0 + 1500 * (7 - Z.of_nat m) ->
  exists w',
    recv_loop turns (c0 / 1000) false avail i w = (RC_fail, i, w') /\
    error_flag w' = true /\ rx w' = rest /\
    clock w' = c0 + 11000 /\
    trace w' = idle_polls avail m ++ trace w.
Proof.
  induction m as [|m IH]; intros turns w Ht Hm Hrx Hc;
    (destruct turns as [|turns]; [lia|]); cbn [recv_loop].
  - cbn [repeat app] in Hrx. rewrite (receive_idle w avail rest Hrx).
    cbn [Z.eqb IDEVICE_E_SUCCESS negb].
    unfold time. cbn [clock set_rx tick log].
    replace (clock w + 500) with (c0 + 11000) by lia.
    rewrite (proj2 (deadline_test c0 11000)) by lia.
    eexists. split; [reflexivity|]. cbn.
    repeat split; lia.
  - cbn [repeat app] in Hrx.
    rewrite (receive_idle w avail (repeat idle (S m) ++ rest) Hrx).
    cbn [Z.eqb IDEVICE_E_SUCCESS negb].
    unfold time at 1. cbn [clock set_rx tick log].
    replace (clock w + 500) with (c0 + (1500 * (7 - Z.of_nat (S m)) + 500)) by lia.
    rewrite (proj1 (deadline_test c0 (1500 * (7 - Z.of_nat (S m)) + 500))) by lia.
    destruct (IH turns
                (sleep 1 (set_rx (repeat idle (S m) ++ rest)
                            (tick 500 (log (E_recv avail) w)))))
      as (w' & E & Hf & Hr & Hcl & Htr).
    + lia.
    + lia.
    + reflexivity.
    + unfold sleep, set_rx, tick, log. cbn [clock]. lia.
    + exists w'. split; [exact E|]. split; [exact Hf|]. split; [exact Hr|].
      split; [exact Hcl|]. rewrite Htr. cbn [trace sleep log tick set_rx].
      apply idle_polls_snoc.
Qed.

(** Where the caller must have a byte, [read_char] does not wait for ever.
    On a connection that stays silent, every receive running out its 500
    ms, it polls eight times, sleeping a second after each of the first
    seven, and then gives up with the error flag set, eleven seconds after
    it began, at whatever fraction of a second it began. *)
Theorem read_char_gives_up_after_eight_polls (i i1 : in_struct) (w : world)
    (rest : list recv_event) :
  error_flag w = false ->
  buf_next i = buf_tail i ->
  make_room i = Room_ok i1 ->
  rx w = repeat idle 8 ++ rest ->
  exists w',
    read_char i w false = (RC_fail, i1, w') /\
    error_flag w' = true /\ rx w' = rest /\
    clock w' = clock w + 11000 /\
    trace w' = idle_polls (buf_end i1 - buf_tail i1) 7 ++ trace w.
Proof.
  intros Hf Hnt Hroom Hrx. unfold read_char. rewrite Hf, Hnt, Nat.eqb_refl, Hroom.
  unfold time at 1.
  apply (recv_loop_silent (clock w) (buf_end i1 - buf_tail i1) i1 rest 7 recv_turns w).
  - unfold recv_turns. lia.
  - lia.
  - exact Hrx.
  - cbn. lia.
Qed.

Lemma read_char_gives_up_after_eight_polls_witness :
  exists w',
    read_char fresh_in (initial_world [] (repeat idle 8 ++ [delivers "+"]) []) false
    = (RC_fail, fresh_in, w') /\
    error_flag w' = true /\ rx w' = [delivers "+"] /\
    clock w' = 0 + 11000 /\
    trace w' = idle_polls (buf_end fresh_in - buf_tail fresh_in) 7 ++ [].
Proof.
  apply (read_char_gives_up_after_eight_polls fresh_in fresh_in
           (initial_world [] (repeat idle 8 ++ [delivers "+"]) []) [delivers "+"]).
  - reflexivity.
  - reflexivity.
  - reflexivity.
  - reflexivity.
Defined.

End AppRunnerFacts.

(** * Properties of the web-inspector relay *)

Module RelayFacts.
Import WebInspectorProxy RelaySpec.

Section WithPlist.
Context {L : PlistLib}.

(** ** Length prefixes (C9) *)

(** C9.  When the four bytes of a length prefix have come in and decode to
    zero or to [sizeof(buffer)] (128 KiB) or more, the body of the
    local-to-remote loop breaks in the very state the prefix read left: no
    further receive call is made and the bytes behind the prefix stay
    queued.  The pump then closes the client socket and stops. *)
Theorem bad_length_prefix_stops_pump (si : socket_info_t) (dtoc : bool)
    (message : option plist_t) (n : net)
    (recv_len : Z) (network_mlen : list ascii) (n1 : net) :
  receive_message_timeout n (client_fd si) 4 = (recv_len, network_mlen, n1) ->
  0 <= recv_len ->
  be32toh network_mlen = 0 \/ sizeof_buffer <= be32toh network_mlen ->
  ctod_body si dtoc message n = inr (si, (dtoc, message), n1) /\
  (ctod_guard n si = true ->
   forall fuel,
     thread_client_to_device (S fuel) si n
     = Some (set_stop_dtoc (set_client_fd (-1) si),
             emit (Io_close (client_fd si)) (emit (Io_shutdown (client_fd si)) n1))).
Proof.
  intros E Hlen Hbad.
  assert (Hbody : ctod_body si dtoc message n = inr (si, (dtoc, message), n1));
    [|split; [exact Hbody|]].
  - unfold ctod_body. rewrite E.
    destruct (Z.ltb_spec recv_len 0) as [|_]; [lia|].
    replace ((be32toh network_mlen =? 0) || (be32toh network_mlen >=? sizeof_buffer))
      with true; [reflexivity|].
    symmetry. apply orb_true_iff. destruct Hbad as [H|H].
    + left. now apply Z.eqb_eq.
    + right. apply Z.geb_le. exact H.
  - intros Hg fuel. unfold thread_client_to_device. cbn [ctod_loop].
    assert (Hb : ctod_body si false None n = inr (si, (false, None), n1)).
    { clear Hbody. unfold ctod_body. rewrite E.
      destruct (Z.ltb_spec recv_len 0) as [|_]; [lia|].
      replace ((be32toh network_mlen =? 0) || (be32toh network_mlen >=? sizeof_buffer))
        with true; [reflexivity|].
      symmetry. apply orb_true_iff. destruct Hbad as [H|H].
      + left. now apply Z.eqb_eq.
      + right. apply Z.geb_le. exact H. }
    rewrite Hg, Hb. reflexivity.
Qed.

(** A prefix that arrives in one chunk with bytes behind it: one receive
    call for four bytes, and the rest of the chunk still queued. *)
Lemma prefix_read_leaves_payload (n : net) (fd : Z) (b0 b1 b2 b3 p : ascii)
    (payload : list ascii) (rest : list sock_event) :
  client_rx n = Sock_data (b0 :: b1 :: b2 :: b3 :: p :: payload) :: rest ->
  receive_message_timeout n fd 4
  = (4, [b0; b1; b2; b3],
     set_client_rx (Sock_data (p :: payload) :: rest) (emit (Io_recv fd 4) n)).
Proof.
  intros H. unfold receive_message_timeout. rewrite H. reflexivity.
Qed.

(** ** The stop flags (C10) *)

(** The body of the local-to-remote loop stores nothing into the record
    but the inspector handle. *)
Lemma ctod_body_writes (si : socket_info_t) (dtoc : bool) (message : option plist_t)
    (n : net) :
  forall si' dtoc' n',
  (ctod_body si dtoc message n = inl (si', dtoc', n') \/
   ctod_body si dtoc message n = inr (si', dtoc', n')) ->
  si' = si \/ si' = set_inspector true si.
Proof.
  intros si' dtoc' n'. unfold ctod_body.
  destruct (receive_message_timeout n (client_fd si) 4) as [[r1 mlen] n1].
  destruct (r1 <? 0); [intros [H|H]; inversion H; now left|].
  destruct ((be32toh mlen =? 0) || (be32toh mlen >=? sizeof_buffer));
    [intros [H|H]; inversion H; now left|].
  destruct (receive_message_timeout n1 (client_fd si) (Z.to_nat (be32toh mlen)))
    as [[r2 buffer] n2].
  destruct (r2 <? 0); [intros [H|H]; inversion H; now left|].
  destruct (if (be32toh mlen >? 8) && memcmp_prefix buffer "bplist00"
            then Some (plist_from_bin buffer message)
            else if (be32toh mlen >? 5) && memcmp_prefix buffer "<?xml"
                 then Some (plist_from_xml buffer message) else None) as [message1|];
    [|intros [H|H]; inversion H; now left].
  destruct (inspector si).
  - cbn [Z.eqb negb].
    destruct (if dtoc then (0, n2)
              else let '(rc, rest) := next_rc (thread_rc n2) in
                   (rc, set_thread_rc rest (emit Io_thread_new n2))) as [rc3 n3].
    destruct (negb (rc3 =? 0)); [intros [H|H]; inversion H; now left|].
    destruct (next_rc (device_tx n3)) as [res rest].
    destruct (negb (res =? 0)); intros [H|H]; inversion H; now left.
  - destruct (next_rc (service_rc n2)) as [rc rest].
    destruct (rc =? 0); cbn [negb]; [|intros [H|H]; inversion H; now left].
    destruct (if dtoc then (0, set_service_rc rest (emit Io_start_service n2))
              else let '(rc, rest0) :=
                     next_rc (thread_rc (set_service_rc rest (emit Io_start_service n2))) in
                   (rc, set_thread_rc rest0
                          (emit Io_thread_new
                             (set_service_rc rest (emit Io_start_service n2)))))
      as [rc3 n3].
    destruct (negb (rc3 =? 0)); [intros [H|H]; inversion H; now right|].
    destruct (next_rc (device_tx n3)) as [res rest3].
    destruct (negb (res =? 0)); intros [H|H]; inversion H; now right.
Qed.

Lemma dtoc_body_keeps_record (si : socket_info_t) (n : net) :
  forall si' n',
  (dtoc_body si n = inl (si', n') \/ dtoc_body si n = inr (si', n')) -> si' = si.
Proof.
  intros si' n'. unfold dtoc_body. cbn [device_rx emit].
  destruct (device_rx n) as [|[res message] rest];
    [intros [H|H]; inversion H; reflexivity|].
  destruct (negb (res =? 0)); [intros [H|H]; inversion H; reflexivity|].
  destruct (match message with
            | None => []
            | Some m => if format_xml si =? 0 then plist_to_bin m else plist_to_xml m
            end) as [|b buf]; [intros [H|H]; inversion H; reflexivity|].
  destruct (send_message _ (client_fd si) (htobe32 _)) as [sent n1].
  destruct (sent <=? 0); [intros [H|H]; inversion H; reflexivity|].
  destruct (send_message n1 (client_fd si) (b :: buf)) as [sent2 n2].
  destruct (sent2 <=? 0); intros [H|H]; inversion H; reflexivity.
Qed.

Lemma guards_see_stop_flags (n : net) (si : socket_info_t) :
  (stop_ctod si = 1 -> ctod_guard n si = false) /\
  (stop_dtoc si = 1 -> dtoc_guard n si = false).
Proof.
  unfold ctod_guard, dtoc_guard.
  split; intros ->; cbn [Z.eqb]; now rewrite andb_false_r.
Qed.

Lemma parse_args_flags (k : nat) :
  forall (argv : list (list ascii)) debug_mode udid si debug_mode' udid' si',
  (List.length argv <= k)%nat ->
  parse_args argv debug_mode udid si = Parsed debug_mode' udid' si' ->
  stop_ctod si' = stop_ctod si /\ stop_dtoc si' = stop_dtoc si.
Proof.
  induction k as [|k IH]; intros argv debug_mode udid si debug_mode' udid' si' Hk.
  { destruct argv; [|cbn in Hk; lia]. cbn [parse_args].
    intros E; injection E as <- <- <-. now split. }
  destruct argv as [|a rest]; cbn [parse_args].
  { intros E; injection E as <- <- <-. now split. }
  cbn [List.length] in Hk.
  destruct (streq a "-d" || streq a "--debug").
  { apply IH. lia. }
  destruct (streq a "-u" || streq a "--udid").
  { destruct rest as [|v rest]; [discriminate|].
    destruct (negb (AppRunner.strlen v =? 40)%nat); [discriminate|].
    apply IH. cbn [List.length] in Hk. lia. }
  destruct (streq a "-t" || streq a "--timeout").
  { destruct rest as [|v rest]; [discriminate|].
    destruct (AppRunner.atoi v <=? 0); [discriminate|].
    intros E. apply IH in E; [exact E|cbn [List.length] in Hk; lia]. }
  destruct (streq a "-x" || streq a "--xml").
  { intros E. apply IH in E; [exact E|lia]. }
  destruct (streq a "-h" || streq a "--help"); [discriminate|].
  destruct (AppRunner.atoi a >? 0); [|discriminate].
  intros E. apply IH in E; [exact E|lia].
Qed.

(** [main] enters its loop with one record, both stop flags 0, and no
    thread but itself. *)
Lemma boot_one_record argv server_fd0 client_fd0 idevice_new_rc created acc n r0 :
  boot argv server_fd0 client_fd0 idevice_new_rc created acc n = Some r0 ->
  exists si0, one_record r0 si0 /\ stop_ctod si0 = 0 /\ stop_dtoc si0 = 0.
Proof.
  unfold boot, main_startup.
  destruct (parse_args argv 0 None (main_init server_fd0 client_fd0))
    as [|dbg udid si0] eqn:Ep; [discriminate|].
  destruct (parse_args_flags _ _ _ _ _ _ _ _ (Nat.le_refl _) Ep) as (Hc & Hd).
  destruct (local_port si0 =? 0); [discriminate|].
  destruct (negb (idevice_new_rc =? 0)); [discriminate|].
  cbv zeta.
  destruct (server_fd (set_server_fd created (set_device true si0)) <? 0);
    [discriminate|].
  intros E; injection E as <-.
  eexists. split; [|split].
  - split; [reflexivity|]. split; repeat constructor; contradiction.
  - exact Hc.
  - exact Hd.
Qed.

(** What a step of a thread does to the record, to the thread and to the
    thread it starts: the object worked on is handed on, no stop flag
    goes back to 0, and a pump gets past its stores only with the other
    direction's flag at 1. *)
Lemma thread_step_facts (next_tid : nat) (ths : list thread) (si : socket_info_t)
    (n : net) (acc : list Z) (t : thread) (o : outcome) :
  thread_step next_tid ths si n acc t = Some o ->
  working_on (o_thread o) = working_on t /\
  (forall t', o_spawned o = Some t' ->
     working_on t' = working_on t /\ ~ ctod_stored t' /\ ~ dtoc_stored t') /\
  (stop_ctod si = 1 -> stop_ctod (o_record o) = 1) /\
  (stop_dtoc si = 1 -> stop_dtoc (o_record o) = 1) /\
  (ctod_stored (o_thread o) -> ctod_stored t \/ stop_dtoc (o_record o) = 1) /\
  (dtoc_stored (o_thread o) -> dtoc_stored t \/ stop_ctod (o_record o) = 1).
Proof.
  assert (Hdone : forall o0 : outcome,
            working_on (o_thread o0) = working_on t ->
            (forall t', o_spawned o0 = Some t' ->
               working_on t' = working_on t /\ ~ ctod_stored t' /\ ~ dtoc_stored t') ->
            (stop_ctod si = 1 -> stop_ctod (o_record o0) = 1) ->
            (stop_dtoc si = 1 -> stop_dtoc (o_record o0) = 1) ->
            (ctod_stored (o_thread o0) -> ctod_stored t \/ stop_dtoc (o_record o0) = 1) ->
            (dtoc_stored (o_thread o0) -> dtoc_stored t \/ stop_ctod (o_record o0) = 1) ->
            Some o0 = Some o ->
            working_on (o_thread o) = working_on t /\
            (forall t', o_spawned o = Some t' ->
               working_on t' = working_on t /\ ~ ctod_stored t' /\ ~ dtoc_stored t') /\
            (stop_ctod si = 1 -> stop_ctod (o_record o) = 1) /\
            (stop_dtoc si = 1 -> stop_dtoc (o_record o) = 1) /\
            (ctod_stored (o_thread o) -> ctod_stored t \/ stop_dtoc (o_record o) = 1) /\
            (dtoc_stored (o_thread o) -> dtoc_stored t \/ stop_ctod (o_record o) = 1)).
  { intros o0 A B C D E F H. injection H as <-. auto 10. }
  assert (Hnone : forall t' : thread,
            @None thread = Some t' ->
            working_on t' = working_on t /\ ~ ctod_stored t' /\ ~ dtoc_stored t')
    by discriminate.
  destruct t as [pc|data pc|data pc|data pc]; destruct pc; cbn [thread_step];
    try discriminate.
  - (* M_while *)
    apply Hdone; cbn; auto; destruct (quit_flag n =? 0); cbn; tauto.
  - (* M_accept *)
    destruct acc as [|v rest]; apply Hdone; cbn; auto;
      match goal with |- context [if ?c then _ else _] => destruct c; cbn; tauto end.
  - (* M_thread_new *)
    unfold thread_new. destruct (next_rc (thread_rc n)) as [rc rest].
    destruct (negb (rc =? 0)); apply Hdone; cbn; auto; try tauto.
    intros t' H; injection H as <-. cbn. tauto.
  - (* M_leave *)
    apply Hdone; cbn; auto; tauto.
  - (* H_thread_new *)
    unfold thread_new. destruct (next_rc (thread_rc n)) as [rc rest].
    destruct (negb (rc =? 0)); apply Hdone; cbn; auto; try tauto.
    intros t' H; injection H as <-. cbn. tauto.
  - (* H_join *)
    destruct ctod as [c|]; [|discriminate].
    destruct (returned_ctod ths c); [|discriminate].
    apply Hdone; cbn; auto; tauto.
  - (* H_shutdown *)
    apply Hdone; cbn; auto; tauto.
  - (* C_while *)
    unfold ctod_turn. destruct (ctod_guard n si).
    2:{ apply Hdone; cbn; auto; tauto. }
    destruct (ctod_body si match dtoc with Some _ => true | None => false end
                message n)
      as [[[si1 [d1 m1]] n1]|[[si1 [d1 m1]] n1]] eqn:Eb.
    + destruct (ctod_body_writes _ _ _ _ _ _ _ (or_introl Eb)) as [-> | ->];
        apply Hdone; cbn; auto; try tauto;
        intros t' H;
        (match type of H with (if ?c then _ else _) = _ => destruct c end;
         [injection H as <-; cbn; tauto|discriminate H]).
    + destruct (ctod_body_writes _ _ _ _ _ _ _ (or_intror Eb)) as [-> | ->];
        apply Hdone; cbn; auto; try tauto;
        intros t' H;
        (match type of H with (if ?c then _ else _) = _ => destruct c end;
         [injection H as <-; cbn; tauto|discriminate H]).
  - (* C_shutdown *)
    cbn [close_client]. apply Hdone; cbn; auto; tauto.
  - (* C_join *)
    destruct (returned_dtoc ths dtoc); [|discriminate].
    apply Hdone; cbn; auto; tauto.
  - (* D_while *)
    unfold dtoc_turn. destruct (dtoc_guard n si).
    2:{ apply Hdone; cbn; auto; tauto. }
    destruct (dtoc_body si n) as [[si1 n1]|[si1 n1]] eqn:Eb.
    + rewrite (dtoc_body_keeps_record _ _ _ _ (or_introl Eb)).
      apply Hdone; cbn; auto; tauto.
    + rewrite (dtoc_body_keeps_record _ _ _ _ (or_intror Eb)).
      apply Hdone; cbn; auto; tauto.
  - (* D_shutdown *)
    cbn [close_client]. apply Hdone; cbn; auto; tauto.
Qed.

Lemma nth_error_set_thread (t : thread) (ths : list thread) :
  forall tid t0, nth_error ths tid = Some t0 ->
  forall P : thread -> Prop,
  Forall P ths -> (P t0 -> P t) -> Forall P (set_thread tid t ths).
Proof.
  induction ths as [|x ths IH]; intros tid t0 Hn P Hf Ht;
    [destruct tid; discriminate Hn|].
  inversion Hf; subst. destruct tid; cbn [set_thread nth_error] in *.
  - injection Hn as ->. constructor; auto.
  - constructor; [assumption|]. now apply (IH tid t0).
Qed.

(** A step keeps the relay on its one record and takes no stop flag back
    to 0. *)
Lemma step_one_record (tid : nat) (r r' : relay) (si : socket_info_t) :
  one_record r si -> step tid r = Some r' ->
  exists si', one_record r' si' /\
              (stop_ctod si = 1 -> stop_ctod si' = 1) /\
              (stop_dtoc si = 1 -> stop_dtoc si' = 1).
Proof.
  intros (Hm & Hw & Hs). unfold step.
  destruct (process_over r); [discriminate|].
  destruct (nth_error (threads r) tid) as [t|] eqn:Et; [|discriminate].
  cbn [bind].
  assert (Hin : In t (threads r)) by (eapply nth_error_In; exact Et).
  pose proof (proj1 (Forall_forall _ _) Hw t Hin) as Hwt.
  pose proof (proj1 (Forall_forall _ _) Hs t Hin) as (Hct & Hdt).
  rewrite Hwt, Hm. cbn [socket_info nth_error bind].
  destruct (thread_step (List.length (threads r)) (threads r) si
              (outside r) (accepts r) t) as [o|] eqn:Eo; [|discriminate].
  cbn [bind]. intros E; injection E as <-.
  destruct (thread_step_facts _ _ _ _ _ _ _ Eo) as (A & B & C & D & F & G).
  exists (o_record o). split; [|split; assumption].
  split; [reflexivity|]. cbn [threads]. split.
  - apply Forall_app. split.
    + apply (nth_error_set_thread (o_thread o) (threads r) tid t Et); [exact Hw|].
      intros _. congruence.
    + destruct (o_spawned o) as [t'|] eqn:Esp; [|constructor].
      destruct (B t' eq_refl) as (B1 & _). constructor; [congruence|constructor].
  - assert (Hs' : Forall (fun t0 => (ctod_stored t0 -> stop_dtoc (o_record o) = 1) /\
                                    (dtoc_stored t0 -> stop_ctod (o_record o) = 1))
                    (threads r)).
    { eapply Forall_impl; [|exact Hs]. cbn. intros t0 (X & Y). split; auto. }
    apply Forall_app. split.
    + apply (nth_error_set_thread (o_thread o) (threads r) tid t Et); [exact Hs'|].
      intros (X & Y). split.
      * intros H. destruct (F H) as [H1|H1]; auto.
      * intros H. destruct (G H) as [H1|H1]; auto.
    + destruct (o_spawned o) as [t'|] eqn:Esp; [|constructor].
      destruct (B t' eq_refl) as (_ & B2 & B3).
      constructor; [|constructor]. split; intros; contradiction.
Qed.

Lemma run_one_record (sched : list action) :
  forall (r r' : relay) (si : socket_info_t),
  one_record r si -> run sched r = Some r' ->
  exists si', one_record r' si' /\
              (stop_ctod si = 1 -> stop_ctod si' = 1) /\
              (stop_dtoc si = 1 -> stop_dtoc si' = 1).
Proof.
  induction sched as [|a sched IH]; intros r r' si Hr; cbn [run].
  { intros E; injection E as <-. exists si. auto. }
  destruct (act a r) as [r1|] eqn:Ea; [|discriminate]. cbn [bind].
  assert (H1 : exists s1, one_record r1 s1 /\
                          (stop_ctod si = 1 -> stop_ctod s1 = 1) /\
                          (stop_dtoc si = 1 -> stop_dtoc s1 = 1)).
  { destruct a as [tid|]; cbn [act] in Ea.
    - exact (step_one_record tid r r1 si Hr Ea).
    - destruct (process_over r); [discriminate|]. injection Ea as <-.
      exists si. split; [exact Hr|auto]. }
  destruct H1 as (s1 & Hr1 & Hc & Hd).
  intros E. destruct (IH r1 r' s1 Hr1 E) as (si' & Hr' & Hc' & Hd').
  exists si'. auto.
Qed.

Lemma set_thread_same_length (t : thread) (ths : list thread) :
  forall tid, List.length (set_thread tid t ths) = List.length ths.
Proof.
  induction ths as [|x ths IH]; intros [|tid]; cbn [set_thread List.length]; auto.
Qed.

(** With its stop flag at 1 a pump at the head of its loop leaves the loop
    in its next step, without a turn: nothing is received, sent or
    stored. *)
Lemma stopped_pump_leaves (r : relay) (si : socket_info_t) (tid : nat) :
  one_record r si -> process_over r = false ->
  (stop_ctod si = 1 ->
   forall data dtoc message,
     nth_error (threads r) tid = Some (Client_to_device data (C_while dtoc message)) ->
     step tid r
     = Some (mkRelay (memory r) (outside r) (accepts r)
               (set_thread tid (Client_to_device data (C_shutdown dtoc)) (threads r)))) /\
  (stop_dtoc si = 1 ->
   forall data,
     nth_error (threads r) tid = Some (Device_to_client data D_while) ->
     step tid r
     = Some (mkRelay (memory r) (outside r) (accepts r)
               (set_thread tid (Device_to_client data D_shutdown) (threads r)))).
Proof.
  intros (Hm & Hw & _) Hover.
  split.
  - intros Hstop data dtoc message Et.
    assert (Hd : data = socket_info).
    { apply (proj1 (Forall_forall _ _) Hw _ (nth_error_In _ _ Et)). }
    unfold step. rewrite Hover, Et. cbn [bind working_on]. rewrite Hd, Hm.
    cbn [socket_info nth_error bind thread_step]. unfold ctod_turn.
    rewrite (proj1 (guards_see_stop_flags (outside r) si) Hstop).
    cbn [bind o_record o_outside o_accepts o_thread o_spawned poke].
    now rewrite app_nil_r.
  - intros Hstop data Et.
    assert (Hd : data = socket_info).
    { apply (proj1 (Forall_forall _ _) Hw _ (nth_error_In _ _ Et)). }
    unfold step. rewrite Hover, Et. cbn [bind working_on]. rewrite Hd, Hm.
    cbn [socket_info nth_error bind thread_step]. unfold dtoc_turn.
    rewrite (proj2 (guards_see_stop_flags (outside r) si) Hstop).
    cbn [bind o_record o_outside o_accepts o_thread o_spawned poke].
    now rewrite app_nil_r.
Qed.

(** C10.  [main] enters its accept loop with one connection record and
    both stop flags 0.  Whatever the schedule of the threads and the
    signals, there is still that one record and [main], every connection
    handler and every pump works on it; a local-to-remote pump that is
    past its last stores has left [stop_dtoc] at 1 and a remote-to-local
    pump [stop_ctod]; and no step of any thread takes a flag back to 0.
    So after any further schedule, the accept of new connections
    included, a flag that was 1 is 1, and the pump of that direction, of
    whatever connection, leaves its loop at its first test without a
    turn. *)
Theorem stop_flags_shared_and_sticky
    (argv : list (list ascii)) (server_fd0 client_fd0 idevice_new_rc created : Z)
    (acc : list Z) (n : net) (r0 : relay) (sched : list action) (r : relay) :
  boot argv server_fd0 client_fd0 idevice_new_rc created acc n = Some r0 ->
  run sched r0 = Some r ->
  (exists si0, memory r0 = [si0] /\ stop_ctod si0 = 0 /\ stop_dtoc si0 = 0) /\
  exists si,
    memory r = [si] /\
    (forall t, In t (threads r) -> working_on t = socket_info) /\
    (forall t, In t (threads r) -> ctod_stored t -> stop_dtoc si = 1) /\
    (forall t, In t (threads r) -> dtoc_stored t -> stop_ctod si = 1) /\
    forall sched' r',
      run sched' r = Some r' ->
      exists si',
        memory r' = [si'] /\
        (forall t, In t (threads r') -> working_on t = socket_info) /\
        (stop_ctod si = 1 ->
         stop_ctod si' = 1 /\
         forall tid data dtoc message,
           process_over r' = false ->
           nth_error (threads r') tid
           = Some (Client_to_device data (C_while dtoc message)) ->
           step tid r'
           = Some (mkRelay (memory r') (outside r') (accepts r')
                     (set_thread tid (Client_to_device data (C_shutdown dtoc))
                        (threads r')))) /\
        (stop_dtoc si = 1 ->
         stop_dtoc si' = 1 /\
         forall tid data,
           process_over r' = false ->
           nth_error (threads r') tid = Some (Device_to_client data D_while) ->
           step tid r'
           = Some (mkRelay (memory r') (outside r') (accepts r')
                     (set_thread tid (Device_to_client data D_shutdown)
                        (threads r')))).
Proof.
  intros Hboot Hrun.
  destruct (boot_one_record _ _ _ _ _ _ _ _ Hboot) as (si0 & H0 & Hc0 & Hd0).
  split; [exists si0; split; [apply H0|auto]|].
  destruct (run_one_record sched r0 r si0 H0 Hrun) as (si & Hr & _ & _).
  exists si. pose proof Hr as (Hm & Hw & Hs).
  split; [exact Hm|].
  split; [intros t Hin; exact (proj1 (Forall_forall _ _) Hw t Hin)|].
  split; [intros t Hin; exact (proj1 (proj1 (Forall_forall _ _) Hs t Hin))|].
  split; [intros t Hin; exact (proj2 (proj1 (Forall_forall _ _) Hs t Hin))|].
  intros sched' r' Hrun'.
  destruct (run_one_record sched' r r' si Hr Hrun') as (si' & Hr' & Hc & Hd).
  exists si'. pose proof Hr' as (Hm' & Hw' & _).
  split; [exact Hm'|].
  split; [intros t Hin; exact (proj1 (Forall_forall _ _) Hw' t Hin)|].
  split.
  - intros H1. split; [auto|]. intros tid data dtoc message Hover Et.
    exact (proj1 (stopped_pump_leaves r' si' tid Hr' Hover) (Hc H1) data dtoc message Et).
  - intros H1. split; [auto|]. intros tid data Hover Et.
    exact (proj2 (stopped_pump_leaves r' si' tid Hr' Hover) (Hd H1) data Et).
Qed.

End WithPlist.

(** ** Worked instances *)

#[local] Existing Instance raw_plist.

Lemma bad_length_prefix_stops_pump_witness :
  let left_zero := set_client_rx [Sock_data ["x"%char]]
                     (emit (Io_recv 4 4) sends_zero_length) in
  let left_big := set_client_rx [Sock_data ["x"%char]]
                    (emit (Io_recv 4 4) sends_oversize_length) in
  (ctod_body serving false None sends_zero_length
   = inr (serving, (false, None), left_zero) /\
   thread_client_to_device 1 serving sends_zero_length
   = Some (set_stop_dtoc (set_client_fd (-1) serving),
           emit (Io_close 4) (emit (Io_shutdown 4) left_zero))) /\
  (ctod_body serving false None sends_oversize_length
   = inr (serving, (false, None), left_big) /\
   thread_client_to_device 1 serving sends_oversize_length
   = Some (set_stop_dtoc (set_client_fd (-1) serving),
           emit (Io_close 4) (emit (Io_shutdown 4) left_big))).
Proof.
  cbv zeta. split.
  - destruct (bad_length_prefix_stops_pump (L := raw_plist) serving false None
                sends_zero_length 4 [NUL; NUL; NUL; NUL]
                (set_client_rx [Sock_data ["x"%char]]
                   (emit (Io_recv 4 4) sends_zero_length))
                eq_refl ltac:(lia) (or_introl eq_refl)) as [H1 H2].
    split; [exact H1|exact (H2 eq_refl 0%nat)].
  - assert (Hbig : sizeof_buffer <= be32toh [NUL; "002"%char; NUL; NUL])
      by (vm_compute; discriminate).
    destruct (bad_length_prefix_stops_pump (L := raw_plist) serving false None
                sends_oversize_length 4 [NUL; "002"%char; NUL; NUL]
                (set_client_rx [Sock_data ["x"%char]]
                   (emit (Io_recv 4 4) sends_oversize_length))
                eq_refl ltac:(lia) (or_intror Hbig))
      as [H1 H2].
    split; [exact H1|exact (H2 eq_refl 0%nat)].
Defined.

Lemma stop_flags_shared_and_sticky_witness :
  boot [chars "9222"] 0 0 0 3 [4; 5] one_frame_then_close = Some listening /\
  run first_connection listening = Some first_connection_done /\
  run second_connection first_connection_done = Some second_connection_started /\
  step 5 second_connection_started
  = Some (mkRelay (memory second_connection_started)
            (outside second_connection_started)
            (accepts second_connection_started)
            (set_thread 5 (Client_to_device socket_info (C_shutdown None))
               (threads second_connection_started))).
Proof.
  assert (Hboot : boot [chars "9222"] 0 0 0 3 [4; 5] one_frame_then_close
                  = Some listening) by (vm_compute; reflexivity).
  assert (Hrun : run first_connection listening = Some first_connection_done)
    by (vm_compute; reflexivity).
  assert (Hrun' : run second_connection first_connection_done
                  = Some second_connection_started) by (vm_compute; reflexivity).
  split; [exact Hboot|]. split; [exact Hrun|]. split; [exact Hrun'|].
  destruct (stop_flags_shared_and_sticky (L := raw_plist)
              [chars "9222"] 0 0 0 3 [4; 5] one_frame_then_close listening
              first_connection first_connection_done Hboot Hrun)
    as (_ & si & Hm & _ & _ & Hd & Hlater).
  destruct (Hlater second_connection second_connection_started Hrun')
    as (si' & _ & _ & Hc & _).
  assert (Hstop : stop_ctod si = 1).
  { apply (Hd (Device_to_client socket_info D_returned)); [|exact I].
    right. right. right. left. reflexivity. }
  apply (proj2 (Hc Hstop) 5%nat socket_info None None); reflexivity.
Defined.

End RelayFacts.

(** * The relay's framing, further *)

Module RelayFraming.
Import WebInspectorProxy RelaySpec.

(** ** Length prefixes *)

Lemma byte_val_range (c : ascii) : 0 <= byte_val c < 256.
Proof.
  unfold byte_val. pose proof (N_ascii_bounded c) as H. lia.
Qed.

Lemma byte_val_char_of_int (z : Z) : byte_val (char_of_int z) = z mod 256.
Proof.
  unfold byte_val, char_of_int.
  pose proof (Z.mod_pos_bound z 256 ltac:(lia)) as Hb.
  rewrite N_ascii_embedding by lia. lia.
Qed.

Lemma char_of_int_byte_val (c : ascii) (k : Z) :
  char_of_int (k * 256 + byte_val c) = c.
Proof.
  apply AppRunnerFacts.byte_val_inj. rewrite byte_val_char_of_int.
  pose proof (byte_val_range c).
  rewrite Z.add_comm, Z.mod_add by lia. apply Z.mod_small. lia.
Qed.

Lemma be32toh_htobe32_eq (v : Z) :
  0 <= v < 2 ^ 32 -> be32toh (htobe32 v) = v.
Proof.
  intros Hv. unfold be32toh, htobe32. cbn [fold_left].
  rewrite !byte_val_char_of_int.
  change (2 ^ 32) with 4294967296 in Hv.
  Z.div_mod_to_equations. lia.
Qed.

(** [htobe32] and [be32toh] are inverse to each other: a length below 2^32
    is written as four bytes that read back as the same length, and any
    four bytes read as a number below 2^32 that is written back as the
    same bytes.  So the prefix one pump writes is the length the other
    pump's reader takes from it. *)
Theorem length_prefix_round_trip :
  (forall v, 0 <= v < 2 ^ 32 ->
     be32toh (htobe32 v) = v /\ List.length (htobe32 v) = 4%nat) /\
  (forall b0 b1 b2 b3,
     0 <= be32toh [b0; b1; b2; b3] < 2 ^ 32 /\
     htobe32 (be32toh [b0; b1; b2; b3]) = [b0; b1; b2; b3]).
Proof.
  split.
  - intros v Hv. split; [now apply be32toh_htobe32_eq|reflexivity].
  - intros b0 b1 b2 b3.
    pose proof (byte_val_range b0). pose proof (byte_val_range b1).
    pose proof (byte_val_range b2). pose proof (byte_val_range b3).
    unfold be32toh. cbn [fold_left]. split.
    + change (2 ^ 32) with 4294967296. lia.
    + unfold htobe32.
      set (v := ((((0 * 256 + byte_val b0) * 256 + byte_val b1) * 256 + byte_val b2) * 256
                 + byte_val b3)).
      assert (E0 : v / 16777216 = 0 * 256 + byte_val b0)
        by (subst v; Z.div_mod_to_equations; lia).
      assert (E1 : v / 65536 = byte_val b0 * 256 + byte_val b1)
        by (subst v; Z.div_mod_to_equations; lia).
      assert (E2 : v / 256 = (byte_val b0 * 256 + byte_val b1) * 256 + byte_val b2)
        by (subst v; Z.div_mod_to_equations; lia).
      rewrite E0, E1, E2. subst v.
      now rewrite !char_of_int_byte_val.
Qed.

Lemma length_prefix_round_trip_witness :
  be32toh (htobe32 131071) = 131071 /\ List.length (htobe32 131071) = 4%nat.
Proof. apply (proj1 length_prefix_round_trip 131071). vm_compute. split; [discriminate|reflexivity]. Defined.

(** ** Reassembly of a message *)

Lemma client_bytes_cons (ev : sock_event) (script : list sock_event) :
  client_bytes (ev :: script)
  = match ev with Sock_data bs => bs | _ => [] end ++ client_bytes script.
Proof. reflexivity. Qed.

Section WithPlist.
Context {L : PlistLib}.

(** The receive loop on a script without hard errors that holds the bytes
    still missing: they are appended in order, whatever the chunks, and
    what is behind them stays queued. *)
Lemma receive_loop_reassembles (fd : Z) (len : nat) (script : list sock_event) :
  forall (data : list ascii) (tr : list io),
  Forall benign script ->
  (List.length data < len)%nat ->
  (len - List.length data <= List.length (client_bytes script))%nat ->
  exists rest recvs,
    receive_loop script fd len data tr
    = (Z.of_nat len,
       data ++ firstn (len - List.length data) (client_bytes script),
       rest, recvs ++ tr) /\
    client_bytes rest = skipn (len - List.length data) (client_bytes script) /\
    Forall benign rest /\
    Forall (fun e => exists f l, e = Io_recv f l) recvs.
Proof.
  induction script as [|ev script IH]; intros data tr Hb Hlt Hle.
  { cbn in Hle. lia. }
  inversion Hb as [|? ? Hev Hb']; subst.
  assert (Hstep :
            (len - List.length data <= List.length (client_bytes script))%nat ->
            exists rest recvs,
              receive_loop script fd len data (Io_recv fd (len - List.length data) :: tr)
              = (Z.of_nat len,
                 data ++ firstn (len - List.length data) (client_bytes script),
                 rest, recvs ++ tr) /\
              client_bytes rest = skipn (len - List.length data) (client_bytes script) /\
              Forall benign rest /\
              Forall (fun e => exists f l, e = Io_recv f l) recvs).
  { intros Hle'.
    destruct (IH data (Io_recv fd (len - List.length data) :: tr) Hb' Hlt Hle')
      as (rest & recvs & E & Hc & Hr & Hv).
    exists rest, (recvs ++ [Io_recv fd (len - List.length data)]).
    rewrite <- app_assoc. cbn [app]. split; [exact E|].
    split; [exact Hc|]. split; [exact Hr|].
    apply Forall_app. split; [exact Hv|]. constructor; [|constructor]. eauto. }
  assert (Hshort : (List.length data <? len)%nat = true) by (apply Nat.ltb_lt; exact Hlt).
  rewrite client_bytes_cons in *.
  destruct ev as [bs| |e]; cbn [receive_loop].
  - set (want := (len - List.length data)%nat) in *.
    destruct (Nat.ltb_spec (List.length (data ++ firstn want bs)) len) as [Hsh|Hfull].
    + rewrite length_app, length_firstn in Hsh.
      assert (Hbs : (List.length bs < want)%nat) by lia.
      rewrite firstn_all2 by lia.
      destruct (IH (data ++ bs) (Io_recv fd want :: tr) Hb')
        as (rest & recvs & E & Hc & Hr & Hv).
      { rewrite length_app. lia. }
      { rewrite length_app in *. lia. }
      exists rest, (recvs ++ [Io_recv fd want]).
      rewrite <- app_assoc. cbn [app]. rewrite E.
      rewrite length_app in *.
      replace (len - (List.length data + List.length bs))%nat
        with (want - List.length bs)%nat in * by lia.
      split; [|split; [|split]].
      * rewrite firstn_app, (firstn_all2 bs) by lia.
        now rewrite <- app_assoc.
      * rewrite Hc, skipn_app, (skipn_all2 bs) by lia. reflexivity.
      * exact Hr.
      * apply Forall_app. split; [exact Hv|]. constructor; [|constructor]. eauto.
    + rewrite length_app, length_firstn in Hfull.
      assert (Hbs : (want <= List.length bs)%nat) by lia.
      exists (match skipn want bs with
              | [] => script
              | more => Sock_data more :: script
              end), [Io_recv fd want].
      cbn [app].
      split; [|split; [|split]].
      * rewrite firstn_app.
        replace (want - List.length bs)%nat with 0%nat by lia.
        now rewrite firstn_O, app_nil_r.
      * rewrite skipn_app.
        replace (want - List.length bs)%nat with 0%nat by lia.
        cbn [skipn]. destruct (skipn want bs); reflexivity.
      * destruct (skipn want bs); [exact Hb'|]. constructor; [exact I|exact Hb'].
      * constructor; [|constructor]. eauto.
  - rewrite Hshort. apply Hstep. exact Hle.
  - cbn in Hev. subst e. cbn [Pos.eqb]. rewrite Hshort. apply Hstep. exact Hle.
Qed.

Lemma receive_message_reassembles_net (n : net) (fd : Z) (len : nat) :
  (0 < len)%nat ->
  Forall benign (client_rx n) ->
  (len <= List.length (client_bytes (client_rx n)))%nat ->
  exists n' recvs,
    receive_message_timeout n fd len
    = (Z.of_nat len, firstn len (client_bytes (client_rx n)), n') /\
    client_bytes (client_rx n') = skipn len (client_bytes (client_rx n)) /\
    Forall benign (client_rx n') /\
    log n' = recvs ++ log n /\
    Forall (fun e => exists f l, e = Io_recv f l) recvs /\
    quit_flag n' = quit_flag n /\ client_tx n' = client_tx n /\
    device_rx n' = device_rx n /\ device_tx n' = device_tx n /\
    service_rc n' = service_rc n /\ thread_rc n' = thread_rc n.
Proof.
  intros Hpos Hb Hle.
  destruct (receive_loop_reassembles fd len (client_rx n) [] (log n) Hb)
    as (rest & recvs & E & Hc & Hr & Hv).
  { cbn. lia. }
  { cbn [List.length]. rewrite Nat.sub_0_r. exact Hle. }
  cbn [List.length app] in E, Hc. rewrite Nat.sub_0_r in E, Hc.
  unfold receive_message_timeout. rewrite E.
  eexists. exists recvs. split; [reflexivity|]. cbn.
  repeat (split; [assumption || reflexivity|]). reflexivity.
Qed.

(** [receive_message_timeout] puts a message together from whatever
    pieces the socket hands over: on a connection without hard errors,
    empty receives and the retried error 11 interleaved as they may be, it
    returns [message_length] with exactly the next [message_length] bytes
    of the client's stream, and leaves the bytes behind them queued. *)
Theorem receive_message_reassembles (n : net) (fd : Z) (message_length : nat) :
  (0 < message_length)%nat ->
  Forall benign (client_rx n) ->
  (message_length <= List.length (client_bytes (client_rx n)))%nat ->
  exists n',
    receive_message_timeout n fd message_length
    = (Z.of_nat message_length,
       firstn message_length (client_bytes (client_rx n)), n') /\
    client_bytes (client_rx n') = skipn message_length (client_bytes (client_rx n)) /\
    Forall benign (client_rx n').
Proof.
  intros Hpos Hb Hle.
  destruct (receive_message_reassembles_net n fd message_length Hpos Hb Hle)
    as (n' & recvs & E & Hc & Hr & _).
  exists n'. auto.
Qed.

(** The result of [receive_message_timeout] is never a short count: it is
    [message_length], with exactly that many bytes stored, or it is
    negative, and then a hard error or a closed descriptor ended the loop.
    The test [recv_len < 0] of the pump therefore misses no failure. *)
Theorem receive_message_all_or_negative (n : net) (fd : Z)
    (message_length : nat) (r : Z) (data : list ascii) (n' : net) :
  (0 < message_length)%nat ->
  receive_message_timeout n fd message_length = (r, data, n') ->
  (r = Z.of_nat message_length /\ List.length data = message_length) \/ r < 0.
Proof.
  intros Hpos. unfold receive_message_timeout.
  destruct (receive_loop (client_rx n) fd message_length [] (log n))
    as [[[r0 data0] rest] tr] eqn:E.
  intros H; injection H as <- <- <-.
  assert (Hgen : forall script d tr0 r1 d1 rest1 tr1,
            (List.length d < message_length)%nat ->
            receive_loop script fd message_length d tr0 = (r1, d1, rest1, tr1) ->
            (r1 = Z.of_nat message_length /\ List.length d1 = message_length) \/ r1 < 0).
  { clear. induction script as [|ev script IH]; intros d tr0 r1 d1 rest1 tr1 Hlt;
      cbn [receive_loop].
    { intros H; injection H as <- <- <- <-. right. lia. }
    assert (Hshort : (List.length d <? message_length)%nat = true)
      by (apply Nat.ltb_lt; exact Hlt).
    destruct ev as [bs| |e].
    - destruct (Nat.ltb_spec
                  (List.length (d ++ firstn (message_length - List.length d) bs))
                  message_length) as [Hsh|Hfull].
      + apply IH. exact Hsh.
      + intros H; injection H as <- <- <- <-. left. split; [reflexivity|].
        rewrite length_app, length_firstn in *. lia.
    - rewrite Hshort. apply IH. exact Hlt.
    - destruct (e =? 11)%positive; [rewrite Hshort; apply IH; exact Hlt|].
      intros H; injection H as <- <- <- <-. right. lia. }
  apply (Hgen (client_rx n) [] (log n) r0 data0 rest tr); [exact Hpos|exact E].
Qed.

(** ** Sending a message *)




End WithPlist.

#[local] Existing Instance raw_plist.

Lemma receive_message_reassembles_witness :
  exists n',
    receive_message_timeout
      (client_sends [Sock_idle; Sock_data (chars "ab"); Sock_error 11;
                     Sock_data (chars "cdef")]) 4 4
    = (4, chars "abcd", n') /\
    client_bytes (client_rx n') = chars "ef" /\
    Forall benign (client_rx n').
Proof.
  apply (receive_message_reassembles
           (client_sends [Sock_idle; Sock_data (chars "ab"); Sock_error 11;
                          Sock_data (chars "cdef")]) 4 4).
  - lia.
  - repeat constructor.
  - vm_compute. lia.
Defined.

Lemma receive_message_all_or_negative_witness :
  let x := receive_message_timeout
             (client_sends [Sock_data (chars "ab"); Sock_error 5]) 4 4 in
  (fst (fst x) = 4 /\ List.length (snd (fst x)) = 4%nat) \/ fst (fst x) < 0.
Proof.
  cbv zeta.
  apply (receive_message_all_or_negative
           (client_sends [Sock_data (chars "ab"); Sock_error 5]) 4 4 _ _
           (snd (receive_message_timeout
                   (client_sends [Sock_data (chars "ab"); Sock_error 5]) 4 4))).
  - lia.
  - vm_compute. reflexivity.
Defined.


End RelayFraming.

(** * The pumps, further *)

Module RelayPumps.
Import WebInspectorProxy RelaySpec.

Section WithPlist.
Context {L : PlistLib}.

(** ** The remote-to-local pump *)



Lemma dtoc_turns_going (k : nat) :
  forall (si : socket_info_t) (n : net) si' n',
  dtoc_turns k si n = (si', n', true) -> dtoc_loop k si n = None.
Proof.
  induction k as [|k IH]; intros si n si' n'; cbn [dtoc_turns dtoc_loop];
    [reflexivity|].
  destruct (dtoc_guard n si); [|discriminate].
  destruct (dtoc_body si n) as [[si1 n1]|[si1 n1]]; [apply IH|discriminate].
Qed.

(** A receive from the device that fails does not end the remote-to-local
    pump, and nothing goes to the client for it: the loop goes round.  On
    a device that never delivers, after any number [k] of turns the pump
    left to itself has made [k] receive calls on the device and nothing
    else, the record is as it was, and the loop is still going, so the
    pump never returns; only the quit flag, its stop flag or a closed
    descriptor end it. *)
Theorem dtoc_survives_receive_failures (si : socket_info_t) (n : net) :
  dtoc_guard n si = true ->
  Forall (fun ev => fst ev <> 0) (device_rx n) ->
  forall k,
    exists n',
      dtoc_turns k si n = (si, n', true) /\
      log n' = repeat Io_inspector_receive k ++ log n /\
      device_rx n' = skipn k (device_rx n) /\
      client_tx n' = client_tx n /\ client_rx n' = client_rx n /\
      thread_device_to_client k si n = None.
Proof.
  intros Hg Hf k.
  assert (Hturns : exists n',
            dtoc_turns k si n = (si, n', true) /\
            log n' = repeat Io_inspector_receive k ++ log n /\
            device_rx n' = skipn k (device_rx n) /\
            client_tx n' = client_tx n /\ client_rx n' = client_rx n).
  { revert n Hg Hf. induction k as [|k IH]; intros n Hg Hf.
    { exists n. repeat split; reflexivity. }
    cbn [dtoc_turns]. rewrite Hg.
    assert (Hbody : dtoc_body si n
                    = inl (si, set_device_rx (tl (device_rx n))
                                 (emit Io_inspector_receive n))).
    { unfold dtoc_body. cbn [device_rx emit].
      destruct (device_rx n) as [|[res message] rest] eqn:Hrx.
      - cbn [tl]. unfold set_device_rx, emit. cbn. now rewrite Hrx.
      - inversion Hf as [|? ? Hres Hrest]; subst. cbn [fst] in Hres.
        replace (negb (res =? 0)) with true
          by (symmetry; apply negb_true_iff, Z.eqb_neq; exact Hres).
        reflexivity. }
    rewrite Hbody.
    destruct (IH (set_device_rx (tl (device_rx n)) (emit Io_inspector_receive n)))
      as (n' & E & Hl & Hd & Ht & Hr).
    { unfold dtoc_guard in *. exact Hg. }
    { cbn [device_rx set_device_rx]. destruct (device_rx n); [constructor|].
      now inversion Hf. }
    exists n'. split; [exact E|]. cbn [log device_rx client_tx client_rx
                                       set_device_rx emit] in *.
    split.
    { rewrite Hl. change (repeat Io_inspector_receive (S k))
        with (Io_inspector_receive :: repeat Io_inspector_receive k).
      rewrite (repeat_cons k Io_inspector_receive), <- app_assoc. reflexivity. }
    split; [|split; assumption].
    rewrite Hd. destruct (device_rx n); [now rewrite !skipn_nil|reflexivity]. }
  destruct Hturns as (n' & E & Hrest).
  exists n'. split; [exact E|].
  repeat (split; [apply Hrest|]).
  unfold thread_device_to_client. now rewrite (dtoc_turns_going _ _ _ _ _ E).
Qed.

(** ** The local-to-remote pump *)

Lemma counts_skip_recvs (recvs tr : list io) :
  Forall (fun e => exists f l, e = Io_recv f l) recvs ->
  service_starts (recvs ++ tr) = service_starts tr /\
  thread_spawns (recvs ++ tr) = thread_spawns tr /\
  inspector_sends (recvs ++ tr) = inspector_sends tr.
Proof.
  unfold service_starts, thread_spawns, inspector_sends.
  induction 1 as [|e recvs (f & l & ->) _ IH]; [auto|].
  cbn [app filter]. exact IH.
Qed.

Lemma receive_loop_log (fd : Z) (len : nat) (script : list sock_event) :
  forall (data : list ascii) (tr : list io) r d rest tr',
  receive_loop script fd len data tr = (r, d, rest, tr') ->
  exists recvs, tr' = recvs ++ tr /\
                Forall (fun e => exists f l, e = Io_recv f l) recvs.
Proof.
  induction script as [|ev script IH]; intros data tr r d rest tr'; cbn [receive_loop].
  { intros H; injection H as <- <- <- <-.
    exists [Io_recv fd (len - List.length data)]. split; [reflexivity|].
    constructor; [eauto|constructor]. }
  assert (Hstep : forall data1,
            receive_loop script fd len data1 (Io_recv fd (len - List.length data) :: tr)
            = (r, d, rest, tr') ->
            exists recvs, tr' = recvs ++ tr /\
                          Forall (fun e => exists f l, e = Io_recv f l) recvs).
  { intros data1 E. destruct (IH _ _ _ _ _ _ E) as (recvs & -> & Hv).
    exists (recvs ++ [Io_recv fd (len - List.length data)]).
    rewrite <- app_assoc. split; [reflexivity|].
    apply Forall_app. split; [exact Hv|]. constructor; [eauto|constructor]. }
  assert (Hone : (r, d, rest, Io_recv fd (len - List.length data) :: tr)
                 = (r, d, rest, tr') ->
                 exists recvs, tr' = recvs ++ tr /\
                               Forall (fun e => exists f l, e = Io_recv f l) recvs).
  { intros H; injection H as <-.
    exists [Io_recv fd (len - List.length data)]. split; [reflexivity|].
    constructor; [eauto|constructor]. }
  destruct ev as [bs| |e].
  - destruct (List.length (data ++ firstn (len - List.length data) bs) <? len)%nat;
      [apply Hstep|].
    intros H. apply Hone. injection H as <- <- <- <-. reflexivity.
  - destruct (List.length data <? len)%nat; [apply Hstep|].
    intros H. apply Hone. injection H as <- <- <- <-. reflexivity.
  - destruct (e =? 11)%positive.
    + destruct (List.length data <? len)%nat; [apply Hstep|].
      intros H. apply Hone. injection H as <- <- <- <-. reflexivity.
    + intros H. apply Hone. injection H as <- <- <- <-. reflexivity.
Qed.

Lemma receive_message_counts (n : net) (fd : Z) (len : nat) r d n' :
  receive_message_timeout n fd len = (r, d, n') ->
  service_starts (log n') = service_starts (log n) /\
  thread_spawns (log n') = thread_spawns (log n) /\
  inspector_sends (log n') = inspector_sends (log n).
Proof.
  unfold receive_message_timeout.
  destruct (receive_loop (client_rx n) fd len [] (log n)) as [[[r0 d0] rest] tr] eqn:E.
  intros H; injection H as <- <- <-. cbn [log].
  destruct (receive_loop_log _ _ _ _ _ _ _ _ _ E) as (recvs & -> & Hv).
  now apply counts_skip_recvs.
Qed.

Lemma length_gtb (payload : list ascii) (k : nat) :
  (Z.of_nat (List.length payload) >? Z.of_nat k) = (k <? List.length payload)%nat.
Proof.
  destruct (Nat.ltb_spec k (List.length payload));
    [apply Z.gtb_lt|rewrite Z.gtb_ltb; apply Z.ltb_ge]; lia.
Qed.

(** One turn of the local-to-remote loop on a framed message, a four-byte
    length in network order and then that many bytes, in whatever pieces
    the socket hands them over.  A payload that is longer than eight bytes
    and starts with [bplist00], or longer than five and starts with
    [<?xml], is parsed, by the binary parser in the first case and the XML
    parser in the second, and what the parser left in [message] for
    exactly these bytes is handed to [webinspector_send] and kept for the
    next turn; the loop goes round (the service being up already and the
    other pump started).  Any other payload,
    [bplist00] or [<?xml] with nothing behind it too, ends the loop, and
    nothing but the receives has happened.  Either way exactly the frame
    is consumed: what the client sent behind it stays queued. *)
Theorem ctod_forwards_framed_message (si : socket_info_t) (dtoc : bool)
    (message : option plist_t) (n : net) (payload behind : list ascii) :
  Forall benign (client_rx n) ->
  client_bytes (client_rx n)
  = htobe32 (Z.of_nat (List.length payload)) ++ payload ++ behind ->
  payload <> [] -> Z.of_nat (List.length payload) < sizeof_buffer ->
  (recognised payload = false ->
   exists n' recvs,
     ctod_body si dtoc message n = inr (si, (dtoc, message), n') /\
     client_bytes (client_rx n') = behind /\
     log n' = recvs ++ log n /\
     Forall (fun e => exists f l, e = Io_recv f l) recvs) /\
  (recognised payload = true ->
   inspector si = true -> dtoc = true -> hd 0 (device_tx n) = 0 ->
   exists n' recvs,
     ctod_body si dtoc message n = inl (si, (true, document payload message), n') /\
     client_bytes (client_rx n') = behind /\
     log n' = Io_inspector_send (document payload message) :: recvs ++ log n /\
     Forall (fun e => exists f l, e = Io_recv f l) recvs).
Proof.
  intros Hb Hbytes Hne Hsize.
  set (len := List.length payload) in *.
  assert (Hpos : (0 < len)%nat) by (subst len; destruct payload; [contradiction|cbn; lia]).
  unfold sizeof_buffer in Hsize.
  destruct (RelayFraming.receive_message_reassembles_net n (client_fd si) 4
              ltac:(lia) Hb) as (n1 & recvs1 & E1 & Hc1 & Hb1 & Hl1 & Hv1 & _ & _ & _ & Htx1 & _).
  { rewrite Hbytes, length_app. cbn [htobe32 List.length]. lia. }
  rewrite Hbytes in E1, Hc1.
  change (firstn 4 (htobe32 (Z.of_nat len) ++ payload ++ behind))
    with (htobe32 (Z.of_nat len)) in E1.
  change (skipn 4 (htobe32 (Z.of_nat len) ++ payload ++ behind))
    with (payload ++ behind) in Hc1.
  destruct (RelayFraming.receive_message_reassembles_net n1 (client_fd si) len
              Hpos Hb1) as (n2 & recvs2 & E2 & Hc2 & Hb2 & Hl2 & Hv2 & _ & _ & _ & Htx2 & _).
  { rewrite Hc1, length_app. subst len. lia. }
  rewrite Hc1 in E2, Hc2.
  assert (Hfirst : firstn len (payload ++ behind) = payload).
  { subst len. rewrite firstn_app, firstn_all, Nat.sub_diag, firstn_O. apply app_nil_r. }
  assert (Hskip : skipn len (payload ++ behind) = behind).
  { subst len. rewrite skipn_app, skipn_all, Nat.sub_diag. reflexivity. }
  rewrite Hfirst in E2. rewrite Hskip in Hc2.
  assert (Hlog : log n2 = (recvs2 ++ recvs1) ++ log n)
    by (now rewrite Hl2, Hl1, app_assoc).
  assert (Hrecvs : Forall (fun e => exists f l, e = Io_recv f l) (recvs2 ++ recvs1))
    by (apply Forall_app; now split).
  assert (Hhead :
            ctod_body si dtoc message n
            = (let parsed :=
                 if (Z.of_nat len >? 8) && memcmp_prefix payload "bplist00"
                 then Some (plist_from_bin payload message)
                 else if (Z.of_nat len >? 5) && memcmp_prefix payload "<?xml"
                      then Some (plist_from_xml payload message) else None in
               match parsed with
               | None => inr (si, (dtoc, message), n2)
               | Some message =>
                   let started :=
                     if inspector si then (0, si, n2)
                     else
                       let '(rc, rest) := next_rc (service_rc n2) in
                       (rc, (if rc =? 0 then set_inspector true si else si),
                        set_service_rc rest (emit Io_start_service n2)) in
                   let '(rc, si, n) := started in
                   if negb (rc =? 0) then inr (si, (dtoc, message), n)
                   else
                     let spawned :=
                       if dtoc then (0, n)
                       else
                         let '(rc, rest) := next_rc (thread_rc n) in
                         (rc, set_thread_rc rest (emit Io_thread_new n)) in
                     let '(rc, n) := spawned in
                     if negb (rc =? 0) then inr (si, (dtoc, message), n)
                     else
                       let dtoc := true in
                       let '(res, rest) := next_rc (device_tx n) in
                       let n := set_device_tx rest (emit (Io_inspector_send message) n) in
                       if negb (res =? 0) then inr (si, (dtoc, message), n)
                       else inl (si, (dtoc, message), n)
               end)).
  { unfold ctod_body. rewrite E1.
    change (Z.of_nat 4 <? 0) with false. cbv iota.
    rewrite (RelayFraming.be32toh_htobe32_eq (Z.of_nat len))
      by (change (2 ^ 32) with 4294967296; lia).
    replace (Z.of_nat len =? 0) with false by (symmetry; apply Z.eqb_neq; lia).
    replace (Z.of_nat len >=? sizeof_buffer) with false
      by (symmetry; unfold sizeof_buffer; rewrite Z.geb_leb; apply Z.leb_gt; lia).
    cbn [orb]. rewrite Nat2Z.id, E2.
    replace (Z.of_nat len <? 0) with false by (symmetry; apply Z.ltb_ge; lia).
    reflexivity. }
  change 8 with (Z.of_nat 8) in Hhead. change 5 with (Z.of_nat 5) in Hhead.
  subst len. rewrite !length_gtb in Hhead.
  unfold recognised. split.
  - intros Hrec. apply orb_false_iff in Hrec. destruct Hrec as (R1 & R2).
    rewrite R1, R2 in Hhead. exists n2, (recvs2 ++ recvs1).
    split; [exact Hhead|]. split; [exact Hc2|]. split; [exact Hlog|exact Hrecvs].
  - intros Hrec Hi -> Hd.
    assert (Hsome :
              (if (8 <? List.length payload)%nat && memcmp_prefix payload "bplist00"
               then Some (plist_from_bin payload message)
               else if (5 <? List.length payload)%nat && memcmp_prefix payload "<?xml"
                    then Some (plist_from_xml payload message) else None)
              = Some (document payload message)).
    { unfold document. apply orb_true_iff in Hrec.
      destruct ((8 <? List.length payload)%nat && memcmp_prefix payload "bplist00");
        [reflexivity|].
      destruct Hrec as [Hrec|Hrec]; [discriminate|]. now rewrite Hrec. }
    rewrite Hsome in Hhead.
    rewrite Hi in Hhead. cbn [Z.eqb negb] in Hhead. cbv zeta iota beta in Hhead.
    cbn [Z.eqb negb] in Hhead.
    rewrite Htx2, Htx1 in Hhead.
    destruct (device_tx n) as [|res rest] eqn:Hdt; cbn [hd] in Hd;
      cbn [next_rc] in Hhead.
    + cbn [Z.eqb negb] in Hhead. eexists. exists (recvs2 ++ recvs1).
      split; [exact Hhead|].
      cbn [client_rx set_device_tx emit log]. split; [exact Hc2|].
      split; [now rewrite Hlog|exact Hrecvs].
    + subst res. cbn [Z.eqb negb] in Hhead. eexists. exists (recvs2 ++ recvs1).
      split; [exact Hhead|].
      cbn [client_rx set_device_tx emit log]. split; [exact Hc2|].
      split; [now rewrite Hlog|exact Hrecvs].
Qed.

(** ** Starting the service and the other pump *)

Ltac count_io :=
  unfold service_starts, thread_spawns, inspector_sends in *;
  cbn [log emit set_service_rc set_thread_rc set_device_tx filter List.length
       inspector set_inspector] in *.

Ltac close_counts :=
  let H := fresh "H" in
  intros H;
  match goal with b : bool |- _ =>
    match type of H with context [if b then _ else _] => destruct b end
  end;
  inversion H; subst; clear H; count_io;
  repeat match goal with
         | |- _ /\ _ => split
         | |- _ -> _ => intro
         end;
  try discriminate; try congruence; try lia;
  try (left; lia);
  try (right; repeat split; (lia || congruence || reflexivity)).

Lemma ctod_body_counts (si : socket_info_t) (dtoc : bool) (message : option plist_t)
    (n : net) :
  forall si' dtoc' message' n' (went_round : bool),
  (if went_round then ctod_body si dtoc message n = inl (si', (dtoc', message'), n')
   else ctod_body si dtoc message n = inr (si', (dtoc', message'), n')) ->
  (inspector si = true ->
   service_starts (log n') = service_starts (log n) /\ inspector si' = true) /\
  (dtoc = true ->
   thread_spawns (log n') = thread_spawns (log n) /\ dtoc' = true) /\
  (service_starts (log n') <= service_starts (log n) + 1)%nat /\
  (thread_spawns (log n') <= thread_spawns (log n) + 1)%nat /\
  (dtoc = false -> dtoc' = true ->
   thread_spawns (log n') = (thread_spawns (log n) + 1)%nat) /\
  (inspector_sends (log n') = inspector_sends (log n) \/
   (inspector_sends (log n') = S (inspector_sends (log n)) /\
    inspector si' = true /\ dtoc' = true)) /\
  (went_round = true -> inspector si' = true /\ dtoc' = true).
Proof.
  intros si' dtoc' message' n' went_round. unfold ctod_body.
  destruct (receive_message_timeout n (client_fd si) 4) as [[r1 mlen] n1] eqn:E1.
  destruct (receive_message_counts _ _ _ _ _ _ E1) as (A1 & B1 & C1).
  destruct (r1 <? 0); [close_counts|].
  destruct ((be32toh mlen =? 0) || (be32toh mlen >=? sizeof_buffer)); [close_counts|].
  destruct (receive_message_timeout n1 (client_fd si) (Z.to_nat (be32toh mlen)))
    as [[r2 buffer] n2] eqn:E2.
  destruct (receive_message_counts _ _ _ _ _ _ E2) as (A2 & B2 & C2).
  destruct (r2 <? 0); [close_counts|].
  destruct (if (be32toh mlen >? 8) && memcmp_prefix buffer "bplist00"
            then Some (plist_from_bin buffer message)
            else if (be32toh mlen >? 5) && memcmp_prefix buffer "<?xml"
                 then Some (plist_from_xml buffer message) else None) as [message1|];
    [|close_counts].
  destruct (inspector si) eqn:Hi.
  - cbn [Z.eqb negb].
    destruct dtoc.
    + cbn [Z.eqb negb].
      destruct (next_rc (device_tx n2)) as [res rest].
      destruct (negb (res =? 0)); close_counts.
    + destruct (next_rc (thread_rc n2)) as [rc3 rest3].
      destruct (negb (rc3 =? 0)); [close_counts|].
      cbn [device_tx thread_rc service_rc set_thread_rc set_service_rc emit].
      destruct (next_rc (device_tx n2)) as [res rest].
      destruct (negb (res =? 0)); close_counts.
  - destruct (next_rc (service_rc n2)) as [rc rest].
    destruct (rc =? 0); cbn [negb]; [|close_counts].
    destruct dtoc.
    + cbn [Z.eqb negb]. cbn [device_tx thread_rc service_rc set_thread_rc set_service_rc emit].
      destruct (next_rc (device_tx n2)) as [res rest1].
      destruct (negb (res =? 0)); close_counts.
    + cbn [device_tx thread_rc service_rc set_thread_rc set_service_rc emit].
      destruct (next_rc (thread_rc n2)) as [rc3 rest3].
      destruct (negb (rc3 =? 0)); [close_counts|].
      cbn [device_tx thread_rc service_rc set_thread_rc set_service_rc emit].
      destruct (next_rc (device_tx n2)) as [res rest1].
      destruct (negb (res =? 0)); close_counts.
Qed.

Lemma ctod_loop_counts (fuel : nat) :
  forall (si : socket_info_t) (dtoc : bool) (message : option plist_t) (n : net)
         si' dtoc' message' n',
  ctod_loop fuel si dtoc message n = Some (si', (dtoc', message'), n') ->
  (service_starts (log n')
   <= service_starts (log n) + (if inspector si then 0 else 1))%nat /\
  (inspector si = true -> service_starts (log n') = service_starts (log n)) /\
  (thread_spawns (log n')
   <= thread_spawns (log n) + (if dtoc then 0 else 1))%nat /\
  (dtoc' = true ->
   thread_spawns (log n') = (thread_spawns (log n) + (if dtoc then 0 else 1))%nat) /\
  (inspector si = true -> inspector si' = true) /\
  (dtoc = true -> dtoc' = true) /\
  (inspector_sends (log n) <= inspector_sends (log n'))%nat /\
  ((inspector_sends (log n) < inspector_sends (log n'))%nat ->
   inspector si' = true /\ dtoc' = true).
Proof.
  induction fuel as [|k IH]; intros si dtoc message n si' dtoc' message' n';
    cbn [ctod_loop]; [discriminate|].
  destruct (ctod_guard n si).
  2:{ intros E; injection E as <- <- <- <-.
      destruct (inspector si), dtoc; repeat split; intros; auto; lia. }
  destruct (ctod_body si dtoc message n)
    as [[[si1 [dtoc1 message1]] n1]|[[si1 [dtoc1 message1]] n1]] eqn:Eb.
  - intros E. apply IH in E.
    destruct (ctod_body_counts si dtoc message n si1 dtoc1 message1 n1 true Eb)
      as (Hs & Ht & Hs1 & Ht1 & Htn & Hm & Hin).
    destruct (Hin eq_refl) as (Hi1 & Hd1).
    destruct E as (Es & Ese & Et & Etd & Ei & Ed & Em & Emi).
    rewrite Hi1, Hd1 in *.
    specialize (Ei eq_refl). specialize (Ed eq_refl). specialize (Etd Ed).
    specialize (Ese eq_refl).
    split; [|split; [|split; [|split; [|split; [|split; [|split]]]]]]; auto.
    + destruct (inspector si); [destruct (Hs eq_refl)|]; lia.
    + intros Hi. destruct (Hs Hi). lia.
    + destruct dtoc; [destruct (Ht eq_refl)|]; lia.
    + intros _. destruct dtoc; [destruct (Ht eq_refl); lia|].
      specialize (Htn eq_refl eq_refl). lia.
    + destruct Hm as [Hm|(Hm & _)]; lia.
  - intros E; injection E as <- <- <- <-.
    destruct (ctod_body_counts si dtoc message n si1 dtoc1 message1 n1 false Eb)
      as (Hs & Ht & Hs1 & Ht1 & Htn & Hm & _).
    split; [|split; [|split; [|split; [|split; [|split; [|split]]]]]].
    + destruct (inspector si); [destruct (Hs eq_refl)|]; lia.
    + intros Hi. now destruct (Hs Hi).
    + destruct dtoc; [destruct (Ht eq_refl)|]; lia.
    + intros Hd. destruct dtoc; [destruct (Ht eq_refl); lia|].
      specialize (Htn eq_refl Hd). lia.
    + intros Hi. now destruct (Hs Hi).
    + intros Hd. now destruct (Ht Hd).
    + destruct Hm as [Hm|(Hm & _)]; lia.
    + intros Hlt. destruct Hm as [Hm|(Hm & Hi & Hd)]; [lia|auto].
Qed.

(** In one run of [thread_client_to_device] the inspector service is
    started at most once, and not at all when the record holds a handle
    already; the other pump is started at most once; and no message goes
    to the inspector before there is a handle and the other pump has been
    started, exactly once. *)
Theorem ctod_starts_service_and_pump_once (fuel : nat) (si : socket_info_t) (n : net)
    (si' : socket_info_t) (n' : net) :
  thread_client_to_device fuel si n = Some (si', n') ->
  (service_starts (log n') <= service_starts (log n) + 1)%nat /\
  (inspector si = true -> service_starts (log n') = service_starts (log n)) /\
  (thread_spawns (log n') <= thread_spawns (log n) + 1)%nat /\
  ((inspector_sends (log n) < inspector_sends (log n'))%nat ->
   inspector si' = true /\
   thread_spawns (log n') = (thread_spawns (log n) + 1)%nat).
Proof.
  unfold thread_client_to_device.
  destruct (ctod_loop fuel si false None n) as [[[si1 [dtoc1 message1]] n1]|] eqn:El;
    [|discriminate].
  cbn [bind close_client].
  destruct (ctod_loop_counts _ _ _ _ _ _ _ _ _ El)
    as (Es & Ese & Et & Etd & Ei & _ & Em & Emi).
  destruct dtoc1; unfold join_dtoc; intros E; injection E as <- <-;
    count_io; cbn [set_stop_dtoc set_stop_ctod set_client_fd inspector] in *.
  - split; [|split; [|split]].
    + destruct (inspector si); lia.
    + exact Ese.
    + lia.
    + intros Hlt. destruct (Emi Hlt) as (Hi & Hd). split; [exact Hi|].
      rewrite (Etd Hd). reflexivity.
  - split; [|split; [|split]].
    + destruct (inspector si); lia.
    + exact Ese.
    + lia.
    + intros Hlt. destruct (Emi Hlt) as (Hi & Hd). discriminate Hd.
Qed.

End WithPlist.

#[local] Existing Instance raw_plist.


Lemma dtoc_survives_receive_failures_witness :
  exists n',
    dtoc_turns 7 serving (mkNet 0 [] [] [(-1, None); (-2, None)] [] [] [] [])
    = (serving, n', true) /\
    log n' = repeat Io_inspector_receive 7 ++ [] /\
    device_rx n' = [] /\ client_tx n' = [] /\ client_rx n' = [] /\
    thread_device_to_client 7 serving
      (mkNet 0 [] [] [(-1, None); (-2, None)] [] [] [] []) = None.
Proof.
  assert (Hg : dtoc_guard (mkNet 0 [] [] [(-1, None); (-2, None)] [] [] [] []) serving
               = true) by reflexivity.
  assert (Hf : Forall (fun ev : Z * option plist_t => fst ev <> 0)
                 (device_rx (mkNet 0 [] [] [(-1, None); (-2, None)] [] [] [] []))).
  { repeat (constructor; [discriminate|]). constructor. }
  exact (dtoc_survives_receive_failures serving
           (mkNet 0 [] [] [(-1, None); (-2, None)] [] [] [] []) Hg Hf 7%nat).
Defined.

Lemma ctod_forwards_framed_message_witness :
  exists n' recvs,
    ctod_body (set_inspector true serving) true None
      (client_chunks [[NUL; NUL]; [NUL; "007"%char; "<"%char; "?"%char];
                      chars "xml?>more"])
    = inl (set_inspector true serving, (true, document (chars "<?xml?>") None), n') /\
    client_bytes (client_rx n') = chars "more" /\
    log n' = Io_inspector_send (document (chars "<?xml?>") None) :: recvs ++ [] /\
    Forall (fun e => exists f l, e = Io_recv f l) recvs.
Proof.
  apply (proj2 (ctod_forwards_framed_message (set_inspector true serving) true None
                  (client_chunks [[NUL; NUL]; [NUL; "007"%char; "<"%char; "?"%char];
                                  chars "xml?>more"])
                  (chars "<?xml?>") (chars "more")
                  ltac:(repeat constructor) ltac:(reflexivity)
                  ltac:(discriminate) ltac:(reflexivity))).
  - reflexivity.
  - reflexivity.
  - reflexivity.
  - reflexivity.
Defined.

Lemma ctod_starts_service_and_pump_once_witness :
  exists si' n',
    thread_client_to_device 3 serving
      (client_chunks [[NUL; NUL; NUL; "007"%char]; chars "<?xml?>"])
    = Some (si', n') /\
    (service_starts (log n') <= 0 + 1)%nat /\
    (inspector serving = true -> service_starts (log n') = 0%nat) /\
    (thread_spawns (log n') <= 0 + 1)%nat /\
    ((0 < inspector_sends (log n'))%nat ->
     inspector si' = true /\ thread_spawns (log n') = (0 + 1)%nat).
Proof.
  eexists. eexists. split.
  - vm_compute. reflexivity.
  - apply (ctod_starts_service_and_pump_once 3 serving
             (client_chunks [[NUL; NUL; NUL; "007"%char]; chars "<?xml?>"])).
    vm_compute. reflexivity.
Defined.

End RelayPumps.

(** * The relay's command line *)

Module RelayMain.
Import WebInspectorProxy RelaySpec.

Lemma streq_true (a : list ascii) (s : string) : streq a s = true -> a = chars s.
Proof.
  unfold streq. destruct (list_eq_dec ascii_dec a (chars s)); [auto|discriminate].
Qed.

Lemma parse_args_record (server_fd0 client_fd0 : Z) (k : nat) :
  forall (argv : list (list ascii)) debug_mode udid si debug_mode' udid' si',
  (List.length argv <= k)%nat ->
  parsed_record server_fd0 client_fd0 si ->
  parse_args argv debug_mode udid si = Parsed debug_mode' udid' si' ->
  parsed_record server_fd0 client_fd0 si'.
Proof.
  induction k as [|k IH]; intros argv debug_mode udid si debug_mode' udid' si' Hk Hp.
  { destruct argv; [|cbn in Hk; lia]. cbn [parse_args].
    intros E; injection E as <- <- <-. exact Hp. }
  destruct argv as [|a rest]; cbn [parse_args].
  { intros E; injection E as <- <- <-. exact Hp. }
  cbn [List.length] in Hk.
  destruct (streq a "-d" || streq a "--debug").
  { apply IH; [lia|exact Hp]. }
  destruct (streq a "-u" || streq a "--udid").
  { destruct rest as [|v rest]; [discriminate|].
    destruct (negb (AppRunner.strlen v =? 40)%nat); [discriminate|].
    apply IH; [cbn [List.length] in Hk; lia|exact Hp]. }
  destruct (streq a "-t" || streq a "--timeout").
  { destruct rest as [|v rest]; [discriminate|].
    destruct (AppRunner.atoi v <=? 0); [discriminate|].
    apply IH; [cbn [List.length] in Hk; lia|].
    destruct Hp as (P1 & P2 & P3 & P4 & P5 & P6 & P7 & P8 & P9).
    unfold parsed_record. cbn.
    pose proof (Z.mod_pos_bound (AppRunner.atoi v) (2 ^ 32) ltac:(lia)).
    change (2 ^ 16) with 65536 in *; change (2 ^ 32) with 4294967296 in *.
    repeat split; auto; lia. }
  destruct (streq a "-x" || streq a "--xml").
  { apply IH; [lia|].
    destruct Hp as (P1 & P2 & P3 & P4 & P5 & P6 & P7 & P8 & P9).
    unfold parsed_record. cbn. change (2 ^ 16) with 65536 in *; change (2 ^ 32) with 4294967296 in *.
    repeat split; auto; lia. }
  destruct (streq a "-h" || streq a "--help"); [discriminate|].
  destruct (AppRunner.atoi a >? 0); [|discriminate].
  apply IH; [lia|].
  destruct Hp as (P1 & P2 & P3 & P4 & P5 & P6 & P7 & P8 & P9).
  unfold parsed_record. cbn.
  pose proof (Z.mod_pos_bound (AppRunner.atoi a) (2 ^ 16) ltac:(lia)).
  change (2 ^ 16) with 65536 in *; change (2 ^ 32) with 4294967296 in *.
    repeat split; auto; lia.
Qed.

(** [main] before its accept loop.  It gets to listen only with a port in
    1..65535, a device and a server socket, and then with both stop flags
    clear, no inspector handle, and [client_fd] not yet written.  It
    returns [EXIT_FAILURE] only when [idevice_new] or [socket_create] has
    failed: every problem with the arguments, a missing port too, ends in
    status 0.  The port is what [atoi] makes of its argument as an [int]:
    given one argument alone, [main] gets to listen only if that [int] is
    positive, and the port is its low sixteen bits. *)
Theorem relay_main_startup (argv : list (list ascii)) (server_fd0 client_fd0 : Z)
    (idevice_new_rc created : Z) :
  (forall debug_mode si,
     main_startup argv server_fd0 client_fd0 idevice_new_rc created
     = Listening debug_mode si ->
     1 <= local_port si <= 65535 /\ idevice_new_rc = 0 /\
     server_fd si = created /\ 0 <= created /\
     device si = true /\ inspector si = false /\
     stop_ctod si = 0 /\ stop_dtoc si = 0 /\ client_fd si = client_fd0) /\
  (forall result,
     main_startup argv server_fd0 client_fd0 idevice_new_rc created = Exit result ->
     result = EXIT_SUCCESS \/
     (result = EXIT_FAILURE /\ (idevice_new_rc <> 0 \/ created < 0))) /\
  (forall a debug_mode si,
     argv = [a] ->
     main_startup argv server_fd0 client_fd0 idevice_new_rc created
     = Listening debug_mode si ->
     0 < AppRunner.atoi a < 2 ^ 31 /\
     local_port si = AppRunner.atoi a mod 2 ^ 16).
Proof.
  assert (Hinit : parsed_record server_fd0 client_fd0 (main_init server_fd0 client_fd0)).
  { unfold parsed_record. cbn. repeat split; auto; lia. }
  rewrite <- and_assoc. split.
  2:{ intros a debug_mode si ->. unfold main_startup. cbn [parse_args].
      destruct (streq a "-d" || streq a "--debug"); [discriminate|].
      destruct (streq a "-u" || streq a "--udid"); [discriminate|].
      destruct (streq a "-t" || streq a "--timeout"); [discriminate|].
      destruct (streq a "-x" || streq a "--xml"); [discriminate|].
      destruct (streq a "-h" || streq a "--help"); [discriminate|].
      destruct (AppRunner.atoi a >? 0) eqn:Ea; [|discriminate].
      cbn [local_port set_local_port].
      destruct (AppRunner.atoi a mod 2 ^ 16 =? 0); [discriminate|].
      destruct (negb (idevice_new_rc =? 0)); [discriminate|].
      cbn [server_fd set_server_fd].
      destruct (created <? 0); [discriminate|].
      intros E; injection E as <- <-. cbn [local_port set_server_fd set_device set_local_port].
      split; [|reflexivity].
      split; [apply Z.gtb_lt; exact Ea|].
      unfold AppRunner.atoi, wrap_int.
      pose proof (Z.mod_pos_bound (AppRunner.strtol a + 2 ^ 31) (2 ^ 32) ltac:(lia)).
      change (2 ^ 31) with 2147483648 in *. change (2 ^ 32) with 4294967296 in *.
      lia. }
  unfold main_startup.
  destruct (parse_args argv 0 None (main_init server_fd0 client_fd0))
    as [|dbg udid si0] eqn:Ep.
  { split; [discriminate|]. intros result E; injection E as <-. now left. }
  pose proof (parse_args_record _ _ _ _ _ _ _ _ _ _ (Nat.le_refl _) Hinit Ep)
    as (P1 & P2 & P3 & P4 & P5 & P6 & P7 & P8 & P9).
  destruct (Z.eqb_spec (local_port si0) 0) as [H0|H0].
  { split; [discriminate|]. intros result E; injection E as <-. now left. }
  destruct (Z.eqb_spec idevice_new_rc 0) as [Hrc|Hrc]; cbn [negb].
  2:{ split; [discriminate|]. intros result E; injection E as <-. right. auto. }
  cbn [server_fd set_server_fd].
  destruct (Z.ltb_spec created 0) as [Hc|Hc].
  { split; [discriminate|]. intros result E; injection E as <-. right. auto. }
  split; [|discriminate].
  intros debug_mode si E; injection E as <- <-. cbn.
  change (2 ^ 16) with 65536 in P1. repeat split; auto; lia.
Qed.

(** A port argument beyond [INT_MAX] is no port: [atoi] makes a negative
    [int] of [2147483649]. *)
Example port_beyond_int_is_usage :
  AppRunner.atoi (chars "2147483649") = -2147483647 /\
  main_startup [chars "2147483649"] 0 0 0 3 = Exit EXIT_SUCCESS.
Proof. split; vm_compute; reflexivity. Qed.

Lemma relay_main_startup_witness :
  main_startup [chars "-x"; chars "-t"; chars "250"; chars "9222"] 0 0 0 3
  = Listening 0 (mkInfo 3 0 9222 true false 250 1 0 0) /\
  1 <= 9222 <= 65535.
Proof.
  split; [vm_compute; reflexivity|].
  apply (proj1 (relay_main_startup
                  [chars "-x"; chars "-t"; chars "250"; chars "9222"] 0 0 0 3)
           0 (mkInfo 3 0 9222 true false 250 1 0 0)).
  vm_compute. reflexivity.
Defined.

(** The port is kept in sixteen bits.  A port argument that is a positive
    multiple of 65536 passes the test [atoi(argv[i]) > 0] and is stored as
    0, so [main] takes it that no port was given: it connects to no device,
    opens no socket and returns status 0. *)
Theorem port_multiple_of_65536_is_no_port (p : list ascii) (server_fd0 client_fd0 : Z)
    (idevice_new_rc created : Z) :
  0 < AppRunner.atoi p -> AppRunner.atoi p mod 2 ^ 16 = 0 ->
  exists debug_mode udid si,
    parse_args [p] 0 None (main_init server_fd0 client_fd0)
    = Parsed debug_mode udid si /\
    local_port si = 0 /\
    main_startup [p] server_fd0 client_fd0 idevice_new_rc created = Exit EXIT_SUCCESS.
Proof.
  intros Hpos Hmod.
  assert (Hopt : forall s, AppRunner.atoi (chars s) = 0 -> streq p s = false).
  { intros s Hs. destruct (streq p s) eqn:E; [|reflexivity].
    apply streq_true in E. subst p. lia. }
  assert (Hparse : parse_args [p] 0 None (main_init server_fd0 client_fd0)
                   = Parsed 0 None
                       (set_local_port 0 (main_init server_fd0 client_fd0))).
  { cbn [parse_args].
    rewrite !Hopt by reflexivity. cbn [orb].
    replace (AppRunner.atoi p >? 0) with true by (symmetry; apply Z.gtb_lt; lia).
    now rewrite Hmod. }
  exists 0, None, (set_local_port 0 (main_init server_fd0 client_fd0)).
  split; [exact Hparse|]. split; [reflexivity|].
  unfold main_startup. rewrite Hparse. reflexivity.
Qed.

Lemma port_multiple_of_65536_is_no_port_witness :
  exists debug_mode udid si,
    parse_args [chars "131072"] 0 None (main_init 0 0) = Parsed debug_mode udid si /\
    local_port si = 0 /\
    main_startup [chars "131072"] 0 0 0 3 = Exit EXIT_SUCCESS.
Proof.
  apply (port_multiple_of_65536_is_no_port (chars "131072") 0 0 0 3).
  - vm_compute. reflexivity.
  - vm_compute. reflexivity.
Defined.

End RelayMain.

